(** * Omega2D: the simulation orchestrator, rigid bodies and point collections

    A shallow embedding of [Simulation.cpp], [Body.cpp] and the [Points]
    constructor of [Points.h], together with the properties of the
    time-stepping engine stated in the specification.

    Conventions.
    - C++ [double] is Rocq's primitive binary64 [float]; C++ [float] is a
      binary32 value of [spec_float], computed with the parameterised
      operations of [SpecFloat] at precision 24 and maximal exponent 128.
    - [size_t] values are [nat]; [std::vector] is [list], read with stdpp's
      lookup and written with stdpp's insert.
    - [std::shared_ptr<Body>] is an optional index into a table of bodies
      ([None] is [nullptr]); [std::make_shared] appends to the table.
    - [std::cout] is a list of printed items.
    - An [assert] that fails ends the run ([Aborts]); reading a vector out of
      range or dereferencing a null pointer is [Undefined]. *)

From Stdlib Require Import ZArith Lia Bool.
From Stdlib Require Import Floats.
From stdpp Require Import base list strings.

Local Open Scope string_scope.
Local Open Scope list_scope.
Local Open Scope nat_scope.

(** ** Numbers *)

(** [Dimensions] comes from [Omega2D.h]; [Body.cpp] fixes it by building
    [Vec] from two coordinates. *)
Definition Dimensions : nat := 2.

Module F32.
Definition prec : Z := 24.
Definition emax : Z := 128.
Definition t : Type := spec_float.
Definition zero : t := S754_zero false.
Definition add : t -> t -> t := SFadd prec emax.
Definition mul : t -> t -> t := SFmul prec emax.
Definition div : t -> t -> t := SFdiv prec emax.
Definition sqrt : t -> t := SFsqrt prec emax.
Definition ltb : t -> t -> bool := SFltb.
Definition of_Z (z : Z) : t := binary_normalize prec emax z 0 false.
(** [std::numeric_limits<float>::epsilon()], that is 2^-23. *)
Definition epsilon : t := S754_finite false 8388608 (-46).
(** The conversion [(double)x], exact for every binary32 value. *)
Definition to_double (x : t) : float := SF2Prim x.
End F32.

(** [std::array<T,Dimensions>]: two cells, read and written by index. The
    callers guard the index with [assert] or loop below [Dimensions]. *)
Definition arr2 (A : Type) : Type := (A * A)%type.

Definition arr2_get {A : Type} (i : nat) (a : arr2 A) : A :=
  match i with
  | 0 => fst a
  | _ => snd a
  end.

Definition arr2_set {A : Type} (i : nat) (x : A) (a : arr2 A) : arr2 A :=
  match i with
  | 0 => (x, snd a)
  | 1 => (fst a, x)
  | _ => a
  end.

Definition Vec : Type := arr2 float.

(** ** Results of a call *)

Inductive outcome (A : Type) : Type :=
| Returns (a : A)
| Aborts (why : string)
| Undefined (why : string).
Arguments Returns {A} a.
Arguments Aborts {A} why.
Arguments Undefined {A} why.

Definition bind {A B : Type} (c : outcome A) (k : A -> outcome B) : outcome B :=
  match c with
  | Returns a => k a
  | Aborts w => Aborts w
  | Undefined w => Undefined w
  end.

Notation "x <- c ;; k" := (bind c (fun x => k))
  (at level 100, c at next level, right associativity).

(** [assert(c)] *)
Definition assert (c : bool) (what : string) : outcome unit :=
  if c then Returns tt else Aborts what.

(** What [operator<<] sends to [std::cout]. *)
Inductive out_item : Type :=
| OStr (s : string)
| ODouble (d : float)
| OInt (z : Z)
| OSize (n : nat)
| OEndl.

(** C++ exceptions, carried by a [std::future] and rethrown by [get()]. *)
Inductive exn : Type := Exn (what : string).

(** ** tinyexpr

    The expression compiler is a third-party library. [te_compile] returns
    the compiled expression (or null) together with the value it writes to
    the error position; [te_eval] evaluates an expression at the current
    value of its only variable [t], which [Body] binds to [this_time]. *)
Class TinyExpr : Type := {
  te_expr : Type;
  te_compile : string -> option te_expr * Z;
  te_eval : te_expr -> float -> float
}.

Section BodyModel.
Context `{TinyExpr}.

(** ** Body.cpp *)

Record Body : Type := mkBody {
  name : string;
  parent : string;
  this_time : float;
  pos : Vec;
  vel : Vec;
  apos : float;
  avel : float;
  pos_expr : arr2 string;
  pos_func : arr2 (option te_expr)
}.

Definition with_name (v : string) (b : Body) : Body :=
  mkBody v (parent b) (this_time b) (pos b) (vel b) (apos b) (avel b)
         (pos_expr b) (pos_func b).
Definition with_parent (v : string) (b : Body) : Body :=
  mkBody (name b) v (this_time b) (pos b) (vel b) (apos b) (avel b)
         (pos_expr b) (pos_func b).
Definition with_this_time (v : float) (b : Body) : Body :=
  mkBody (name b) (parent b) v (pos b) (vel b) (apos b) (avel b)
         (pos_expr b) (pos_func b).
Definition with_pos (v : Vec) (b : Body) : Body :=
  mkBody (name b) (parent b) (this_time b) v (vel b) (apos b) (avel b)
         (pos_expr b) (pos_func b).
Definition with_vel (v : Vec) (b : Body) : Body :=
  mkBody (name b) (parent b) (this_time b) (pos b) v (apos b) (avel b)
         (pos_expr b) (pos_func b).
Definition with_pos_expr (v : arr2 string) (b : Body) : Body :=
  mkBody (name b) (parent b) (this_time b) (pos b) (vel b) (apos b) (avel b)
         v (pos_func b).
Definition with_pos_func (v : arr2 (option te_expr)) (b : Body) : Body :=
  mkBody (name b) (parent b) (this_time b) (pos b) (vel b) (apos b) (avel b)
         (pos_expr b) v.

(** [Body::Body(const double _x, const double _y)]; [pos_func.resize(Dimensions)]
    fills the two slots with null. *)
Definition Body_new (_x _y : float) : Body :=
  mkBody "" "" 0%float (_x, _y) (0%float, 0%float) 0%float 0%float
         ("", "") (None, None).

(** [Body::Body()] delegates to [Body(0.0, 0.0)]. *)
Definition Body_default : Body := Body_new 0%float 0%float.

Definition set_name (_name : string) (b : Body) : Body := with_name _name b.
Definition set_parent_name (_name : string) (b : Body) : Body := with_parent _name b.
Definition get_name (b : Body) : string := name b.

(** [Body::set_pos(const size_t _i, const double _val)] *)
Definition set_pos (_i : nat) (_val : float) (b : Body) : outcome Body :=
  _ <- assert (_i <? Dimensions) "_i>=0 and _i<Dimensions" ;;
  Returns (with_pos (arr2_set _i _val (pos b)) b).

(** [Body::set_pos(const size_t _i, const std::string _val)]: the body and
    what was printed. *)
Definition set_pos_expr (_i : nat) (_val : string) (b : Body)
  : outcome (Body * list out_item) :=
  _ <- assert (_i <? Dimensions) "_i>=0 and _i<Dimensions" ;;
  let b := with_pos_expr (arr2_set _i _val (pos_expr b)) b in
  let '(f, ierr) := te_compile _val in
  let b := with_pos_func (arr2_set _i f (pos_func b)) b in
  match arr2_get _i (pos_func b) with
  | Some e =>
      Returns (b, [OStr "  testing parsed expression, with t=0, value is ";
                   ODouble (te_eval e (this_time b)); OEndl])
  | None =>
      Returns (b, [OStr "  Error parsing expression ("; OStr _val;
                   OStr "), near character "; OInt ierr; OEndl])
  end.

(** One turn of the loop of [Body::get_pos]. *)
Definition get_pos_body (b : Body) (i : nat) : Body :=
  match arr2_get i (pos_func b) with
  | Some e => with_pos (arr2_set i (te_eval e (this_time b)) (pos b)) b
  | None => b
  end.

(** [Body::get_pos(const double _time)]: the returned vector and the body. *)
Definition get_pos (_time : float) (b : Body) : Vec * Body :=
  let b := with_this_time _time b in
  let b := foldl get_pos_body b (seq 0 Dimensions) in
  (pos b, b).

(** One turn of the loop of [Body::get_vel]. *)
Definition get_vel_body (_time dt : float) (b : Body) (i : nat) : Body :=
  match arr2_get i (pos_func b) with
  | Some e =>
      let b := with_this_time (_time + dt)%float b in
      let pplus := te_eval e (this_time b) in
      let b := with_this_time (_time - dt)%float b in
      let pminus := te_eval e (this_time b) in
      with_vel (arr2_set i ((pplus - pminus) / (2.0 * dt))%float (vel b)) b
  | None => b
  end.

(** [Body::get_vel(const double _time)]; the step [1.e-5] is the binary64
    value [0x1.4f8b588e368f1p-17]. *)
Definition get_vel (_time : float) (b : Body) : Vec * Body :=
  let dt := 0x1.4f8b588e368f1p-17%float in
  let b := foldl (get_vel_body _time dt) b (seq 0 Dimensions) in
  (vel b, b).

Definition get_orient (_time : float) (b : Body) : float := apos b.
Definition get_rotvel (_time : float) (b : Body) : float := avel b.

(** *** Histories of calls on one body

    The calls of [Body.cpp] that leave the compiled expressions alone, and
    their effect in sequence. *)
Inductive body_call : Type :=
| CallSetName (_name : string)
| CallSetParentName (_name : string)
| CallSetPos (_i : nat) (_val : float)
| CallGetPos (_time : float)
| CallGetVel (_time : float)
| CallGetOrient (_time : float)
| CallGetRotvel (_time : float).

Definition run_call (c : body_call) (b : Body) : outcome Body :=
  match c with
  | CallSetName n => Returns (set_name n b)
  | CallSetParentName n => Returns (set_parent_name n b)
  | CallSetPos i v => set_pos i v b
  | CallGetPos t => Returns (snd (get_pos t b))
  | CallGetVel t => Returns (snd (get_vel t b))
  | CallGetOrient _ => Returns b
  | CallGetRotvel _ => Returns b
  end.

Fixpoint run_calls (cs : list body_call) (b : Body) : outcome Body :=
  match cs with
  | [] => Returns b
  | c :: rest => b' <- run_call c b ;; run_calls rest b'
  end.

(** The constants a history has stored: the constructor's coordinates,
    each replaced by the last constant set for it. *)
Fixpoint stored_constants (cs : list body_call) (v : Vec) : Vec :=
  match cs with
  | [] => v
  | CallSetPos i c :: rest => stored_constants rest (arr2_set i c v)
  | _ :: rest => stored_constants rest v
  end.

(** What a history of constant-only calls maintains: no compiled
    expression, zero velocity, and the position [v]. *)
Definition constant_body (b : Body) (v : Vec) : Prop :=
  pos_func b = (None, None) /\ vel b = (0%float, 0%float) /\ pos b = v.

(** The body after further [get_pos] calls at the given times. *)
Definition after_get_pos (ts : list float) (b : Body) : Body :=
  foldl (fun b t => snd (get_pos t b)) b ts.

End BodyModel.

(** ** Element collections *)

Inductive elem_t : Type := active | reactive | inert.
Inductive move_t : Type := lagrangian | bodybound | fixed.

#[global] Instance elem_t_eq_dec : EqDecision elem_t.
Proof. solve_decision. Defined.
#[global] Instance move_t_eq_dec : EqDecision move_t.
Proof. solve_decision. Defined.

(** [std::shared_ptr<Body>]: [None] is [nullptr], [Some a] the body stored
    at index [a] of the body table. *)
Definition ptr : Type := option nat.

(** [_in[k]] on a [std::vector]. *)
Definition vec_at (v : list F32.t) (k : nat) : outcome F32.t :=
  match v !! k with
  | Some y => Returns y
  | None => Undefined "vector read out of range"
  end.

(** [for (i=0; i<n; ++i) out[i] = _in[f i]] *)
Fixpoint gather (f : nat -> nat) (v : list F32.t) (ixs : list nat)
  : outcome (list F32.t) :=
  match ixs with
  | [] => Returns []
  | i :: rest =>
      y <- vec_at v (f i) ;;
      ys <- gather f v rest ;;
      Returns (y :: ys)
  end.

(** [Points<S>] with the members of [ElementBase<S>] that [Points.h] and
    [Simulation.cpp] touch. *)
Record Points : Type := mkPoints {
  pn : nat;
  pE : elem_t;
  pM : move_t;
  pB : ptr;
  px : arr2 (list F32.t);
  pr : list F32.t;
  ps : option (list F32.t * list F32.t * list F32.t);
  pu : arr2 (list F32.t);
  max_strength : F32.t
}.

(** The constructor of [Points.h], with the body pointer that
    [Simulation.cpp] passes as fourth argument handed to the base class:
    the collection and what was printed. *)
Definition Points_new (_in : list F32.t) (_e : elem_t) (_m : move_t) (_bp : ptr)
  : outcome (Points * list out_item) :=
  let n := length _in / 4 in
  let out := [OStr "  new collection with "; OSize (length _in / 4);
              OStr " particles..."; OEndl] in
  _ <- assert (length _in mod 7 =? 0) "_in.size() % 7 == 0" ;;
  x0 <- gather (fun i => 4 * i + 0) _in (seq 0 n) ;;
  x1 <- gather (fun i => 4 * i + 1) _in (seq 0 n) ;;
  r <- gather (fun i => 4 * i + 3) _in (seq 0 n) ;;
  s <- (if bool_decide (_e <> inert) then
          s0 <- gather (fun i => 7 * i + 0 + 3) _in (seq 0 n) ;;
          s1 <- gather (fun i => 7 * i + 1 + 3) _in (seq 0 n) ;;
          s2 <- gather (fun i => 7 * i + 2 + 3) _in (seq 0 n) ;;
          Returns (Some (s0, s1, s2))
        else Returns None) ;;
  Returns (mkPoints n _e _m _bp (x0, x1) r s
                    (replicate n F32.zero, replicate n F32.zero)
                    (F32.of_Z (-1)),
           out).

(** Modelled from the spec: [ElementPacket.h] is missing. A geometry packet
    is the flat coordinate sequence, the directed edges as index pairs (the
    flat index vector of [BoundaryFeature.cpp], two entries per panel) and
    the per-element seed value. *)
Record ElementPacket : Type := mkPacket {
  x : list F32.t;
  idx : list (nat * nat);
  val : list F32.t
}.

(** Modelled from the spec: [Surfaces.h] is missing. A panel set keeps the
    node coordinates, the panels as index pairs and the per-panel values,
    with its element kind, motion kind and body reference. *)
Record Surfaces : Type := mkSurfaces {
  sx : list F32.t;
  sidx : list (nat * nat);
  sval : list F32.t;
  sE : elem_t;
  sM : move_t;
  sB : ptr
}.

(** Modelled from the spec: the constructor of [Surfaces], which creates a
    collection from the three parts of a packet and the three tags. *)
Definition Surfaces_new (_x : list F32.t) (_idx : list (nat * nat))
  (_val : list F32.t) (_e : elem_t) (_m : move_t) (_bp : ptr) : Surfaces :=
  mkSurfaces _x _idx _val _e _m _bp.

(** Modelled from the spec: [Surfaces::add_new], which merges further
    geometry into the collection; the new panels index the new nodes, which
    follow the nodes already present. *)
Definition Surfaces_add_new (_x : list F32.t) (_idx : list (nat * nat))
  (_val : list F32.t) (surf : Surfaces) : Surfaces :=
  let nold := length (sx surf) / Dimensions in
  mkSurfaces (sx surf ++ _x)
             (sidx surf ++ map (fun e => (fst e + nold, snd e + nold)) _idx)
             (sval surf ++ _val)
             (sE surf) (sM surf) (sB surf).

(** Modelled from the spec: the panel count of a panel set. *)
Definition Surfaces_get_npanels (surf : Surfaces) : nat := length (sidx surf).

(** Modelled from the spec: the element count of a panel set (its nodes). *)
Definition Surfaces_get_n (surf : Surfaces) : nat := length (sx surf) / Dimensions.

(** [using Collection = std::variant<Points<float>, Surfaces<float>>] *)
Inductive Collection : Type :=
| CPoints (pts : Points)
| CSurfaces (surf : Surfaces).

(** The getters reached through [std::visit]. *)
Definition get_elemt (c : Collection) : elem_t :=
  match c with
  | CPoints p => pE p
  | CSurfaces f => sE f
  end.

Definition get_movet (c : Collection) : move_t :=
  match c with
  | CPoints p => pM p
  | CSurfaces f => sM f
  end.

Definition get_body_ptr (c : Collection) : ptr :=
  match c with
  | CPoints p => pB p
  | CSurfaces f => sB f
  end.

Definition get_n (c : Collection) : nat :=
  match c with
  | CPoints p => pn p
  | CSurfaces f => Surfaces_get_n f
  end.

(** ** The numerical kernels

    [BEM.h], [Diffusion.h], [Convection.h] and [ElementBase.h] are not part
    of the core. The two passes of a step receive their scalar arguments and
    the objects they are handed by reference (with the table of bodies that
    the collections point into); they give back those objects and the
    exception that ended the pass, if any. *)
Class Kernels `{TinyExpr} : Type := {
  ElementBase_add_new : list F32.t -> Points -> Points;
  BEM : Type;
  BEM_reset : BEM -> BEM;
  Diffusion : Type;
  get_nom_sep_scaled : Diffusion -> F32.t;
  get_particle_overlap : Diffusion -> F32.t;
  Diffusion_get_diffuse : Diffusion -> bool;
  Diffusion_step :
    float -> F32.t -> F32.t -> F32.t -> Vec ->
    Diffusion * list Collection * list Collection * BEM * list Body ->
    Diffusion * list Collection * list Collection * BEM * list Body * option exn;
  Convection : Type;
  advect_2nd :
    float -> F32.t -> Vec ->
    Convection * list Collection * list Collection * list Collection * BEM * list Body ->
    Convection * list Collection * list Collection * list Collection * BEM * list Body
      * option exn
}.

(** [std::future<void>]: without shared state, with a step still running
    in the background, or holding the end of the step (an exception or
    nothing). *)
Inductive future : Type :=
| FInvalid
| FPending
| FReady (r : option exn).

(** How a call that may rethrow ends. *)
Inductive completion (A : Type) : Type :=
| Normal (a : A)
| Raised (e : exn).
Arguments Normal {A} a.
Arguments Raised {A} e.

(** The calls that leave the orchestrator: a launch by [std::async] and the
    two passes with their scalar arguments. *)
Inductive kernel_call : Type :=
| CallAsync
| CallDiffusionStep (_time : float) (_dt _re _vdelta : F32.t) (_fs : Vec)
| CallAdvect2nd (_time : float) (_dt : F32.t) (_fs : Vec).

Section SimulationModel.
Context `{Kernels}.

(** The members of [Simulation] that the stepping engine reads or writes
    (the description, output interval and stop limits only have getters and
    setters), followed by the table of bodies behind the shared pointers,
    the console and the record of outgoing calls. *)
Record Simulation : Type := mkSim {
  re : F32.t;
  dt : F32.t;
  fs : arr2 F32.t;
  bodies : list ptr;
  vort : list Collection;
  bdry : list Collection;
  fldpt : list Collection;
  bem : BEM;
  diff : Diffusion;
  conv : Convection;
  time : float;
  sim_is_initialized : bool;
  step_has_started : bool;
  step_is_finished : bool;
  stepfuture : future;
  heap : list Body;
  cout : list out_item;
  calls : list kernel_call
}.

Definition with_bodies (v : list ptr) (s : Simulation) : Simulation :=
  mkSim (re s) (dt s) (fs s) v (vort s) (bdry s) (fldpt s) (bem s) (diff s)
        (conv s) (time s) (sim_is_initialized s) (step_has_started s)
        (step_is_finished s) (stepfuture s) (heap s) (cout s) (calls s).
Definition with_vort (v : list Collection) (s : Simulation) : Simulation :=
  mkSim (re s) (dt s) (fs s) (bodies s) v (bdry s) (fldpt s) (bem s) (diff s)
        (conv s) (time s) (sim_is_initialized s) (step_has_started s)
        (step_is_finished s) (stepfuture s) (heap s) (cout s) (calls s).
Definition with_bdry (v : list Collection) (s : Simulation) : Simulation :=
  mkSim (re s) (dt s) (fs s) (bodies s) (vort s) v (fldpt s) (bem s) (diff s)
        (conv s) (time s) (sim_is_initialized s) (step_has_started s)
        (step_is_finished s) (stepfuture s) (heap s) (cout s) (calls s).
Definition with_fldpt (v : list Collection) (s : Simulation) : Simulation :=
  mkSim (re s) (dt s) (fs s) (bodies s) (vort s) (bdry s) v (bem s) (diff s)
        (conv s) (time s) (sim_is_initialized s) (step_has_started s)
        (step_is_finished s) (stepfuture s) (heap s) (cout s) (calls s).
Definition with_bem (v : BEM) (s : Simulation) : Simulation :=
  mkSim (re s) (dt s) (fs s) (bodies s) (vort s) (bdry s) (fldpt s) v (diff s)
        (conv s) (time s) (sim_is_initialized s) (step_has_started s)
        (step_is_finished s) (stepfuture s) (heap s) (cout s) (calls s).
Definition with_diff (v : Diffusion) (s : Simulation) : Simulation :=
  mkSim (re s) (dt s) (fs s) (bodies s) (vort s) (bdry s) (fldpt s) (bem s) v
        (conv s) (time s) (sim_is_initialized s) (step_has_started s)
        (step_is_finished s) (stepfuture s) (heap s) (cout s) (calls s).
Definition with_conv (v : Convection) (s : Simulation) : Simulation :=
  mkSim (re s) (dt s) (fs s) (bodies s) (vort s) (bdry s) (fldpt s) (bem s)
        (diff s) v (time s) (sim_is_initialized s) (step_has_started s)
        (step_is_finished s) (stepfuture s) (heap s) (cout s) (calls s).
Definition with_time (v : float) (s : Simulation) : Simulation :=
  mkSim (re s) (dt s) (fs s) (bodies s) (vort s) (bdry s) (fldpt s) (bem s)
        (diff s) (conv s) v (sim_is_initialized s) (step_has_started s)
        (step_is_finished s) (stepfuture s) (heap s) (cout s) (calls s).
Definition with_sim_is_initialized (v : bool) (s : Simulation) : Simulation :=
  mkSim (re s) (dt s) (fs s) (bodies s) (vort s) (bdry s) (fldpt s) (bem s)
        (diff s) (conv s) (time s) v (step_has_started s) (step_is_finished s)
        (stepfuture s) (heap s) (cout s) (calls s).
Definition with_step_has_started (v : bool) (s : Simulation) : Simulation :=
  mkSim (re s) (dt s) (fs s) (bodies s) (vort s) (bdry s) (fldpt s) (bem s)
        (diff s) (conv s) (time s) (sim_is_initialized s) v
        (step_is_finished s) (stepfuture s) (heap s) (cout s) (calls s).
Definition with_step_is_finished (v : bool) (s : Simulation) : Simulation :=
  mkSim (re s) (dt s) (fs s) (bodies s) (vort s) (bdry s) (fldpt s) (bem s)
        (diff s) (conv s) (time s) (sim_is_initialized s) (step_has_started s)
        v (stepfuture s) (heap s) (cout s) (calls s).
Definition with_stepfuture (v : future) (s : Simulation) : Simulation :=
  mkSim (re s) (dt s) (fs s) (bodies s) (vort s) (bdry s) (fldpt s) (bem s)
        (diff s) (conv s) (time s) (sim_is_initialized s) (step_has_started s)
        (step_is_finished s) v (heap s) (cout s) (calls s).
Definition with_heap (v : list Body) (s : Simulation) : Simulation :=
  mkSim (re s) (dt s) (fs s) (bodies s) (vort s) (bdry s) (fldpt s) (bem s)
        (diff s) (conv s) (time s) (sim_is_initialized s) (step_has_started s)
        (step_is_finished s) (stepfuture s) v (cout s) (calls s).
Definition with_cout (v : list out_item) (s : Simulation) : Simulation :=
  mkSim (re s) (dt s) (fs s) (bodies s) (vort s) (bdry s) (fldpt s) (bem s)
        (diff s) (conv s) (time s) (sim_is_initialized s) (step_has_started s)
        (step_is_finished s) (stepfuture s) (heap s) v (calls s).
Definition with_calls (v : list kernel_call) (s : Simulation) : Simulation :=
  mkSim (re s) (dt s) (fs s) (bodies s) (vort s) (bdry s) (fldpt s) (bem s)
        (diff s) (conv s) (time s) (sim_is_initialized s) (step_has_started s)
        (step_is_finished s) (stepfuture s) (heap s) (cout s) v.

Definition print (items : list out_item) (s : Simulation) : Simulation :=
  with_cout (cout s ++ items) s.

Definition record_call (c : kernel_call) (s : Simulation) : Simulation :=
  with_calls (calls s ++ [c]) s.

(** [Simulation::Simulation()], for given kernel objects. *)
Definition Simulation_new (b : BEM) (d : Diffusion) (c : Convection) : Simulation :=
  mkSim (F32.of_Z 100) (F32.div (F32.of_Z 1) (F32.of_Z 100)) (F32.zero, F32.zero)
        [] [] [] [] b d c 0%float false false false FInvalid [] [] [].

(** [*p] and [p->] on a shared pointer. *)
Definition deref (h : list Body) (p : ptr) : outcome Body :=
  match p with
  | None => Undefined "null pointer dereferenced"
  | Some a =>
      match h !! a with
      | Some b => Returns b
      | None => Undefined "dangling pointer dereferenced"
      end
  end.

(** Writing through a pointer that [deref] accepted. *)
Definition store (p : ptr) (b : Body) (h : list Body) : list Body :=
  match p with
  | None => h
  | Some a => <[a := b]> h
  end.

(** [std::make_shared<Body>(...)] *)
Definition make_shared (b : Body) (h : list Body) : ptr * list Body :=
  (Some (length h), h ++ [b]).

(** *** Getters *)

Definition get_hnu (s : Simulation) : F32.t := F32.sqrt (F32.div (dt s) (re s)).
Definition get_ips (s : Simulation) : F32.t :=
  F32.mul (get_nom_sep_scaled (diff s)) (get_hnu s).
Definition get_vdelta (s : Simulation) : F32.t :=
  F32.mul (get_particle_overlap (diff s)) (get_ips s).

Definition get_npanels (s : Simulation) : nat :=
  foldl (fun n coll =>
           match coll with
           | CSurfaces surf => n + Surfaces_get_npanels surf
           | CPoints _ => n
           end) 0 (bdry s).

Definition get_nparts (s : Simulation) : nat :=
  foldl (fun n coll => n + get_n coll) 0 (vort s).

Definition get_nfldpts (s : Simulation) : nat :=
  foldl (fun n coll => n + get_n coll) 0 (fldpt s).

Definition get_diffuse (s : Simulation) : bool := Diffusion_get_diffuse (diff s).


(** *** The asynchronous step

    The background thread runs [step()] on the simulation while the caller
    keeps away from it; its effect is taken at the moment the step ends. *)

Definition future_valid (f : future) : bool :=
  match f with
  | FInvalid => false
  | _ => true
  end.

(** [is_future_ready] of [Simulation.h]: valid, and [wait_for] zero seconds
    answers [ready]. *)
Definition is_future_ready (f : future) : bool :=
  match f with
  | FReady _ => true
  | _ => false
  end.

(** [Simulation::step()]: the simulation and the exception that ended the
    step, if a pass threw one. *)
Definition step (s : Simulation) : Simulation * option exn :=
  let s := print [OEndl; OStr "Taking step at t="; ODouble (time s);
                  OStr " with n="; OSize (get_nparts s); OEndl] s in
  let thisfs : Vec := (F32.to_double (arr2_get 0 (fs s)),
                       F32.to_double (arr2_get 1 (fs s))) in
  let s := record_call (CallDiffusionStep (time s) (dt s) (re s) (get_vdelta s) thisfs) s in
  let '(d, v, b, m, h, e) :=
    Diffusion_step (time s) (dt s) (re s) (get_vdelta s) thisfs
                   (diff s, vort s, bdry s, bem s, heap s) in
  let s := with_heap h (with_bem m (with_bdry b (with_vort v (with_diff d s)))) in
  match e with
  | Some e => (s, Some e)
  | None =>
      let s := record_call (CallAdvect2nd (time s) (dt s) thisfs) s in
      let '(c, v, b, f, m, h, e) :=
        advect_2nd (time s) (dt s) thisfs
                   (conv s, vort s, bdry s, fldpt s, bem s, heap s) in
      let s := with_heap h (with_bem m (with_fldpt f (with_bdry b
                 (with_vort v (with_conv c s))))) in
      match e with
      | Some e => (s, Some e)
      | None => (with_time (time s + F32.to_double (dt s))%float s, None)
      end
  end.

(** The background thread reaches the end of the step it was launched
    with: the future becomes ready and holds how the step ended. *)
Definition worker_finish (s : Simulation) : Simulation :=
  match stepfuture s with
  | FPending => let '(s', e) := step s in with_stepfuture (FReady e) s'
  | _ => s
  end.

(** [stepfuture.wait()]: returns once the background step has ended. *)
Definition future_wait (s : Simulation) : Simulation := worker_finish s.

(** [stepfuture.get()], which both callers reach on a valid future only:
    waits, releases the shared state and rethrows a stored exception. *)
Definition future_get (s : Simulation) : completion unit * Simulation :=
  let s := future_wait s in
  match stepfuture s with
  | FReady (Some e) => (Raised e, with_stepfuture FInvalid s)
  | _ => (Normal tt, with_stepfuture FInvalid s)
  end.

(** [Simulation::async_step()]. Launching while the previous step still
    runs would have two threads write the same simulation. *)
Definition async_step (s : Simulation) : outcome Simulation :=
  let s := with_step_has_started true s in
  match stepfuture s with
  | FPending => Undefined "two steps running on one simulation"
  | _ => Returns (with_stepfuture FPending (record_call CallAsync s))
  end.

(** [Simulation::test_for_new_results()] (built without [USE_GL]). *)
Definition test_for_new_results (s : Simulation) : completion bool * Simulation :=
  if negb (step_has_started s) then (Normal true, s)
  else if is_future_ready (stepfuture s) then
    match future_get s with
    | (Raised e, s) => (Raised e, s)
    | (Normal _, s) =>
        let s := with_step_is_finished true s in
        let s := with_step_has_started false s in
        (Normal true, s)
    end
  else (Normal false, s).

(** [Simulation::reset()] *)
Definition reset (s : Simulation) : completion unit * Simulation :=
  let '(c, s) :=
    if future_valid (stepfuture s) then future_get (future_wait s)
    else (Normal tt, s) in
  match c with
  | Raised e => (Raised e, s)
  | Normal _ =>
      let s := with_time 0%float s in
      let s := with_vort [] s in
      let s := with_bdry [] s in
      let s := with_fldpt [] s in
      let s := with_bem (BEM_reset (bem s)) s in
      let s := with_sim_is_initialized false s in
      let s := with_step_has_started false s in
      let s := with_step_is_finished false s in
      (Normal tt, s)
  end.

(** [Simulation::clear_bodies()] *)
Definition clear_bodies (s : Simulation) : Simulation := with_bodies [] s.

(** *** Stop conditions *)

(** One turn of the loop of [do_any_bodies_move]: whether this body passes
    the test, and the simulation after the four calls on the body. *)
Definition body_moves (s : Simulation) (p : ptr) : outcome (bool * Simulation) :=
  b <- deref (heap s) p ;;
  let '(thisvel, b) := get_vel (time s) b in
  let '(nextvel, b) := get_vel (time s + F32.to_double (dt s))%float b in
  let thisrot := get_rotvel (time s) b in
  let nextrot := get_rotvel (time s + F32.to_double (dt s))%float b in
  let total := (abs (arr2_get 0 thisvel) + abs (arr2_get 1 thisvel) + abs thisrot +
                abs (arr2_get 0 nextvel) + abs (arr2_get 1 nextvel) + abs nextrot)%float in
  Returns ((F32.to_double F32.epsilon <? total)%float,
           with_heap (store p b (heap s)) s).

Fixpoint bodies_move_loop (l : list ptr) (some_move : bool) (s : Simulation)
  : outcome (bool * Simulation) :=
  match l with
  | [] => Returns (some_move, s)
  | p :: rest =>
      r <- body_moves s p ;;
      let '(m, s) := r in
      bodies_move_loop rest (if m then true else some_move) s
  end.

(** [Simulation::do_any_bodies_move()] *)
Definition do_any_bodies_move (s : Simulation) : outcome (bool * Simulation) :=
  bodies_move_loop (bodies s) false s.

Definition msg_no_features : string :=
  String.append "No flow features and no bodies. Add one or both, reset, and run."
                (String (Ascii.ascii_of_nat 10) "").
Definition msg_zero_freestream : string :=
  String.append "No flow features and zero freestream speed - try adding one or both."
                (String (Ascii.ascii_of_nat 10) "").
Definition msg_no_diffusion : string :=
  String.append "You have a solid body, but no diffusion. It will not shed vorticity. Turn on viscosity or add a flow feature, reset, and run."
                (String (Ascii.ascii_of_nat 10) "").

(** [fs[0]*fs[0]+fs[1]*fs[1] < std::numeric_limits<float>::epsilon()] *)
Definition zero_freestream (s : Simulation) : bool :=
  F32.ltb (F32.add (F32.mul (arr2_get 0 (fs s)) (arr2_get 0 (fs s)))
                   (F32.mul (arr2_get 1 (fs s)) (arr2_get 1 (fs s))))
          F32.epsilon.

(** [Simulation::check_simulation(const size_t _nff, const size_t _nbf)] *)
Definition check_simulation (_nff _nbf : nat) (s : Simulation)
  : outcome (string * Simulation) :=
  let retstr := "" in
  let retstr :=
    if (_nbf =? 0) && (get_nparts s =? 0)
    then String.append retstr msg_no_features else retstr in
  if (0 <? _nbf) && (get_nparts s =? 0) then
    let zero_freestream := zero_freestream s in
    r <- do_any_bodies_move s ;;
    let '(moves, s) := r in
    let no_body_movement := negb moves in
    if zero_freestream && no_body_movement then
      Returns (String.append retstr msg_zero_freestream, s)
    else if negb (Diffusion_get_diffuse (diff s)) then
      Returns (String.append retstr msg_no_diffusion, s)
    else Returns (retstr, s)
  else Returns (retstr, s).

(** *** Adding elements *)

(** [for (size_t i=3; i<_invec.size(); i+=4) _invec[i] = thisvd;] with one
    unit of fuel for every turn the loop can take. *)
Fixpoint set_radius_loop (fuel i : nat) (thisvd : F32.t) (_invec : list F32.t)
  : list F32.t :=
  match fuel with
  | 0 => _invec
  | S fuel' =>
      if i <? length _invec
      then set_radius_loop fuel' (i + 4) thisvd (<[i := thisvd]> _invec)
      else _invec
  end.

(** [Points<S>::add_new] of [Points.h] *)
Definition Points_add_new (_in : list F32.t) (pts : Points)
  : Points * list out_item :=
  let nnew := length _in / 4 in
  (ElementBase_add_new _in pts,
   [OStr "  adding "; OSize nnew; OStr " particles to collection..."; OEndl]).

(** The tail shared by [add_particles] and [add_fldpts]: a new collection
    when the list is empty, else [add_new] on the last one if it holds
    [Points]. *)
Definition store_points (_invec : list F32.t) (_e : elem_t) (_m : move_t)
  (l : list Collection) : outcome (list Collection * list out_item) :=
  if length l =? 0 then
    r <- Points_new _invec _e _m None ;;
    let '(p, out) := r in
    Returns (l ++ [CPoints p], out)
  else
    match last l with
    | Some (CPoints pts) =>
        let '(pts, out) := Points_add_new _invec pts in
        Returns (<[length l - 1 := CPoints pts]> l, out)
    | Some (CSurfaces _) => Returns (l, [])
    | None => Undefined "back() of an empty vector"
    end.

(** [Simulation::add_particles(std::vector<float> _invec)] *)
Definition add_particles (_invec : list F32.t) (s : Simulation)
  : outcome Simulation :=
  if length _invec =? 0 then Returns s
  else
    _ <- assert (length _invec mod 4 =? 0) "_invec.size() % 4 == 0" ;;
    let thisvd := get_vdelta s in
    let _invec := set_radius_loop (length _invec) 3 thisvd _invec in
    r <- store_points _invec active lagrangian (vort s) ;;
    let '(l, out) := r in
    Returns (with_vort l (print out s)).

(** [Simulation::add_fldpts(std::vector<float> _invec, const bool _moves)] *)
Definition add_fldpts (_invec : list F32.t) (_moves : bool) (s : Simulation)
  : outcome Simulation :=
  if length _invec =? 0 then Returns s
  else
    _ <- assert (length _invec mod Dimensions =? 0) "_invec.size() % Dimensions == 0" ;;
    let move_type := if _moves then lagrangian else fixed in
    r <- store_points _invec inert move_type (fldpt s) ;;
    let '(l, out) := r in
    Returns (with_fldpt l (print out s)).

(** The test made on [bdry[i]] by the search loop of [add_boundary]. *)
Definition this_match (this_elem_type : elem_t) (this_move_type : move_t)
  (_bptr : ptr) (coll : Collection) : bool :=
  let this_match := true in
  let tet := get_elemt coll in
  let this_match := if bool_decide (this_elem_type <> tet) then false else this_match in
  let tmt := get_movet coll in
  let this_match := if bool_decide (this_move_type <> tmt) then false else this_match in
  if bool_decide (this_move_type = bodybound) && bool_decide (tmt = bodybound) then
    let tbp := get_body_ptr coll in
    if bool_decide (_bptr <> tbp) then false else this_match
  else this_match.

(** The search loop of [add_boundary] from index [i] on: [imatch] and
    [no_match] after the last turn. *)
Fixpoint search_loop (this_elem_type : elem_t) (this_move_type : move_t)
  (_bptr : ptr) (l : list Collection) (i imatch : nat) (no_match : bool)
  : nat * bool :=
  match l with
  | [] => (imatch, no_match)
  | coll :: rest =>
      if this_match this_elem_type this_move_type _bptr coll
      then search_loop this_elem_type this_move_type _bptr rest (S i) i false
      else search_loop this_elem_type this_move_type _bptr rest (S i) imatch no_match
  end.

(** [Simulation::add_boundary(std::shared_ptr<Body> _bptr, ElementPacket<float> _geom)] *)
Definition add_boundary (_bptr : ptr) (_geom : ElementPacket) (s : Simulation)
  : Simulation :=
  let this_elem_type := reactive in
  let this_move_type := match _bptr with Some _ => bodybound | None => fixed end in
  let '(imatch, no_match) :=
    search_loop this_elem_type this_move_type _bptr (bdry s) 0 0 true in
  if no_match then
    with_bdry (bdry s ++ [CSurfaces (Surfaces_new (x _geom) (idx _geom) (val _geom)
                                                  reactive this_move_type _bptr)]) s
  else
    match bdry s !! imatch with
    | Some (CSurfaces surf) =>
        with_bdry (<[imatch := CSurfaces (Surfaces_add_new (x _geom) (idx _geom)
                                                           (val _geom) surf)]> (bdry s)) s
    | _ => s
    end.

(** *** The list of bodies *)

(** [Simulation::add_body(std::shared_ptr<Body> _body)] *)
Definition add_body (_body : ptr) (s : Simulation) : outcome Simulation :=
  let s := with_bodies (bodies s ++ [_body]) s in
  b <- deref (heap s) _body ;;
  Returns (print [OStr "  added new body ("; OStr (get_name b);
                  OStr "), now have "; OSize (length (bodies s)); OEndl] s).

(** The search loop of [get_pointer_to_body]. *)
Fixpoint report_matches (_name : string) (l : list ptr) (s : Simulation)
  : outcome Simulation :=
  match l with
  | [] => Returns s
  | bptr :: rest =>
      b <- deref (heap s) bptr ;;
      let s := if String.eqb (get_name b) _name
               then print [OStr "  found body matching name ("; OStr _name;
                           OStr ")"; OEndl] s
               else s in
      report_matches _name rest s
  end.

(** [Simulation::get_pointer_to_body(const std::string _name)] *)
Definition get_pointer_to_body (_name : string) (s : Simulation)
  : outcome (ptr * Simulation) :=
  let bp : ptr := None in
  s <- report_matches _name (bodies s) s ;;
  if negb (bool_decide (is_Some bp)) then
    let s := print [OStr "  no body matching ("; OStr _name;
                    OStr ") found, creating (ground)"; OEndl] s in
    let '(bp, h) := make_shared Body_default (heap s) in
    let s := with_heap h s in
    b <- deref (heap s) bp ;;
    let s := with_heap (store bp (set_name "ground" b) (heap s)) s in
    s <- add_body bp s ;;
    Returns (bp, s)
  else Returns (bp, s).

(** *** Notions used to state the properties *)

(** A shared pointer that owns a body of the table. *)
Definition valid_ptr (h : list Body) (p : ptr) : Prop :=
  match p with
  | Some a => a < length h
  | None => False
  end.

(** The number of background steps launched so far. *)
Definition is_launch (c : kernel_call) : bool :=
  match c with
  | CallAsync => true
  | _ => false
  end.

Definition launches (s : Simulation) : nat :=
  length (List.filter is_launch (calls s)).

(** Polling [test_for_new_results] until it answers true, while the
    background step may end between two polls. *)
Inductive polls_until_true : Simulation -> Simulation -> Prop :=
| polls_true (s s' : Simulation) :
    test_for_new_results s = (Normal true, s') ->
    polls_until_true s s'
| polls_false (s s1 s' : Simulation) :
    test_for_new_results s = (Normal false, s1) ->
    polls_until_true s1 s' ->
    polls_until_true s s'
| polls_worker (s s' : Simulation) :
    stepfuture s = FPending ->
    polls_until_true (worker_finish s) s' ->
    polls_until_true s s'.

(** [n] calls of [step()] in a row, stopping at the first exception. *)
Fixpoint run_steps (n : nat) (s : Simulation) : Simulation * option exn :=
  match n with
  | 0 => (s, None)
  | S n' =>
      match step s with
      | (s', None) => run_steps n' s'
      | (s', Some e) => (s', Some e)
      end
  end.

(** The two kinds of pass, to read the record of calls by. *)
Inductive pass : Type := Diffuse | Convect2nd.

Definition pass_of (c : kernel_call) : option pass :=
  match c with
  | CallAsync => None
  | CallDiffusionStep _ _ _ _ _ => Some Diffuse
  | CallAdvect2nd _ _ _ => Some Convect2nd
  end.

Definition passes (cs : list kernel_call) : list pass := omap pass_of cs.

(** The matching rule in the words of the specification: reactive element
    kind, the motion kind of the insertion (body-bound for a body pointer,
    fixed without one) and, when body-bound, the same body reference. *)
Definition matches (_bptr : ptr) (coll : Collection) : bool :=
  bool_decide (get_elemt coll = reactive)
  && bool_decide (get_movet coll = match _bptr with Some _ => bodybound | None => fixed end)
  && match _bptr with
     | Some _ => bool_decide (get_body_ptr coll = _bptr)
     | None => true
     end.

(** What a matched collection becomes: a panel set takes the geometry
    through [add_new], a point set is left as it is. *)
Definition merge_geometry (_geom : ElementPacket) (coll : Collection) : Collection :=
  match coll with
  | CSurfaces surf =>
      CSurfaces (Surfaces_add_new (x _geom) (idx _geom) (val _geom) surf)
  | CPoints _ => coll
  end.

(** The collection created when nothing matches. *)
Definition new_collection (_bptr : ptr) (_geom : ElementPacket) : Collection :=
  CSurfaces (Surfaces_new (x _geom) (idx _geom) (val _geom) reactive
                          match _bptr with Some _ => bodybound | None => fixed end
                          _bptr).

(** First-match-wins, as the specification words it: the first collection
    in list order that satisfies the rule receives the geometry. *)
Definition first_match_receives (_bptr : ptr) (_geom : ElementPacket)
  (s : Simulation) : Prop :=
  forall (i : nat) (coll : Collection),
    bdry s !! i = Some coll ->
    matches _bptr coll = true ->
    (forall (j : nat) (c : Collection),
        j < i -> bdry s !! j = Some c -> matches _bptr c = false) ->
    bdry (add_boundary _bptr _geom s) = <[i := merge_geometry _geom coll]> (bdry s).

(** Last-match-wins: the last collection in list order that satisfies the
    rule receives the geometry. *)
Definition last_match_receives (_bptr : ptr) (_geom : ElementPacket)
  (s : Simulation) : Prop :=
  forall (i : nat) (coll : Collection),
    bdry s !! i = Some coll ->
    matches _bptr coll = true ->
    (forall (j : nat) (c : Collection),
        i < j -> bdry s !! j = Some c -> matches _bptr c = false) ->
    bdry (add_boundary _bptr _geom s) = <[i := merge_geometry _geom coll]> (bdry s).

End SimulationModel.

(** Whether [needle] occurs in [hay]. *)
Fixpoint contains (needle hay : string) : bool :=
  String.prefix needle hay
  || match hay with
     | EmptyString => false
     | String _ rest => contains needle rest
     end.

(** ** More of the orchestrator and of the bodies *)

Section MoreModel.
Context `{Kernels}.

(** The bodies that the constructor and the methods of [Body.cpp] can
    produce. *)
Inductive reachable_body : Body -> Prop :=
| reach_new (_x _y : float) : reachable_body (Body_new _x _y)
| reach_set_name (n : string) (b : Body) :
    reachable_body b -> reachable_body (set_name n b)
| reach_set_parent_name (n : string) (b : Body) :
    reachable_body b -> reachable_body (set_parent_name n b)
| reach_set_pos (i : nat) (v : float) (b b' : Body) :
    reachable_body b -> set_pos i v b = Returns b' -> reachable_body b'
| reach_set_pos_expr (i : nat) (e : string) (b b' : Body) (out : list out_item) :
    reachable_body b -> set_pos_expr i e b = Returns (b', out) -> reachable_body b'
| reach_get_pos (t : float) (b : Body) :
    reachable_body b -> reachable_body (snd (get_pos t b))
| reach_get_vel (t : float) (b : Body) :
    reachable_body b -> reachable_body (snd (get_vel t b)).

(** The step of the finite difference in [Body::get_vel]. *)
Definition get_vel_dt : float := 0x1.4f8b588e368f1p-17%float.

(** [Simulation::get_last_body()] *)
Definition get_last_body (s : Simulation) : outcome (ptr * Simulation) :=
  if length (bodies s) =? 0 then
    let s := print [OStr "  no last body found, creating (ground)"; OEndl] s in
    let '(bp, h) := make_shared Body_default (heap s) in
    let s := with_heap h s in
    b <- deref (heap s) bp ;;
    let s := with_heap (store bp (set_name "ground" b) (heap s)) s in
    s <- add_body bp s ;;
    Returns (bp, s)
  else
    match last (bodies s) with
    | Some bp =>
        b <- deref (heap s) bp ;;
        Returns (bp, print [OStr "  returning last body ("; OStr (get_name b);
                            OStr ")"; OEndl] s)
    | None => Undefined "back() of an empty vector"
    end.

(** A body without compiled expression, at rest. *)
Definition body_at_rest (b : Body) : Prop :=
  pos_func b = (None, None)
  /\ vel b = (0%float, 0%float)
  /\ avel b = 0%float.

(** Every pointer of the list owns a body at rest. *)
Definition bodies_at_rest (h : list Body) (l : list ptr) : Prop :=
  Forall (fun p => exists (a : nat) (b : Body),
              p = Some a /\ h !! a = Some b /\ body_at_rest b) l.

(** A future only waits for a step that is marked as started. *)
Definition future_consistent (s : Simulation) : Prop :=
  stepfuture s = FPending -> step_has_started s = true.

(** What the caller and the background thread can do to the stepping
    state: poll, launch after a poll that answered true, reset, and the
    end of the background step. *)
Inductive stepping_move : Simulation -> Simulation -> Prop :=
| move_poll (s s' : Simulation) (c : completion bool) :
    test_for_new_results s = (c, s') -> stepping_move s s'
| move_launch (s s' : Simulation) :
    async_step s = Returns s' -> stepping_move s s'
| move_reset (s s' : Simulation) (c : completion unit) :
    reset s = (c, s') -> stepping_move s s'
| move_worker (s : Simulation) :
    stepping_move s (worker_finish s).

Inductive stepping_run : Simulation -> Simulation -> Prop :=
| run_nil (s : Simulation) : stepping_run s s
| run_cons (s s1 s' : Simulation) :
    stepping_move s s1 -> stepping_run s1 s' -> stepping_run s s'.

(** [n] polls in a row; the last answer and the simulation. *)
Fixpoint poll_times (n : nat) (s : Simulation) : completion bool * Simulation :=
  match n with
  | 0 => test_for_new_results s
  | S n' => poll_times n' (snd (test_for_new_results s))
  end.

(** A series of calls of [add_boundary]. *)
Definition add_boundaries (l : list (ptr * ElementPacket)) (s : Simulation)
  : Simulation :=
  foldl (fun s bg => add_boundary (fst bg) (snd bg) s) s l.

(** A boundary list as [add_boundary] builds it: reactive panel sets whose
    motion kind is body-bound exactly when they have a body, no two with
    the same body. *)
Definition panel_set_for (coll : Collection) : Prop :=
  exists surf : Surfaces,
    coll = CSurfaces surf
    /\ sE surf = reactive
    /\ sM surf = match sB surf with Some _ => bodybound | None => fixed end.

Definition boundaries_distinct (l : list Collection) : Prop :=
  Forall panel_set_for l
  /\ forall (i j : nat) (ci cj : Collection),
       l !! i = Some ci -> l !! j = Some cj ->
       get_body_ptr ci = get_body_ptr cj -> i = j.

End MoreModel.

(** ** BoundaryFeature.cpp

    The three generators of closed boundary shapes. The members of the
    classes are declared in [BoundaryFeature.h]; they are carried in single
    precision, like the packet they fill and the locals they are mixed
    with. [int] is 32 bits wide. *)

(** [(int)v]: the value truncated toward zero; undefined when it does not
    fit an [int] or [v] is not a number. *)
Definition int_of_spec (v : spec_float) : outcome Z :=
  match v with
  | S754_zero _ => Returns 0%Z
  | S754_finite s m e =>
      let mag := if (0 <=? e)%Z then Z.shiftl (Zpos m) e
                 else Z.shiftr (Zpos m) (- e) in
      let z := if s then (- mag)%Z else mag in
      if ((- 2 ^ 31 <=? z) && (z <? 2 ^ 31))%Z then Returns z
      else Undefined "floating value does not fit int"
  | _ => Undefined "floating value does not fit int"
  end.

Definition int_of_double (d : float) : outcome Z := int_of_spec (Prim2SF d).

(** Further single-precision operations: subtraction, [(float)i] for a
    [size_t], and the rounding of a [double] stored into a [float]. *)
Definition F32_sub : F32.t -> F32.t -> F32.t := SFsub F32.prec F32.emax.
Definition F32_of_nat (n : nat) : F32.t := F32.of_Z (Z.of_nat n).
Definition F32_of_double (d : float) : F32.t :=
  match Prim2SF d with
  | S754_finite s m e => binary_round F32.prec F32.emax s m e
  | v => v
  end.

(** [M_PI] *)
Definition M_PI : float := 0x1.921fb54442d18p+1%float.

(** The functions of the C library: [std::cos] and [std::sin] on [double]
    and on [float]. *)
Class Libm : Type := {
  cos : float -> float;
  sin : float -> float;
  cosf : F32.t -> F32.t;
  sinf : F32.t -> F32.t
}.

(** [v[k] = y] on a [std::vector]. *)
Definition vec_write {A : Type} (v : list A) (k : nat) (y : A) : outcome (list A) :=
  if k <? length v then Returns (<[k := y]> v)
  else Undefined "vector write out of range".

(** [for (size_t i=lo; i<lo+count; i++) body] *)
Fixpoint for_loop {St : Type} (body : nat -> St -> outcome St) (lo count : nat)
  (st : St) : outcome St :=
  match count with
  | 0 => Returns st
  | S count' => st' <- body lo st ;; for_loop body (S lo) count' st'
  end.

(** The three vectors of a packet under construction. *)
Definition flat_packet : Type := (list F32.t * list nat * list F32.t)%type.

(** [idx[2*i] = i; idx[2*i+1] = i+1; val[i] = 0.0;] *)
Definition connect_body (i : nat) (st : flat_packet) : outcome flat_packet :=
  let '(x, idx, val) := st in
  idx <- vec_write idx (2 * i) i ;;
  idx <- vec_write idx (2 * i + 1) (i + 1) ;;
  val <- vec_write val i (F32_of_double 0%float) ;;
  Returns (x, idx, val).

(** The loop body of the circle and of the oval: the two coordinates of
    node [i], then its panel. *)
Definition ring_body (fx fy : nat -> F32.t) (i : nat) (st : flat_packet)
  : outcome flat_packet :=
  let '(x, idx, val) := st in
  x <- vec_write x (2 * i) (fx i) ;;
  x <- vec_write x (2 * i + 1) (fy i) ;;
  connect_body i (x, idx, val).

(** [idx[2*num_panels-1] = 0;] *)
Definition close_loop (num_panels : nat) (st : flat_packet) : outcome flat_packet :=
  let '(x, idx, val) := st in
  idx <- vec_write idx (2 * num_panels - 1) 0 ;;
  Returns (x, idx, val).

(** The vectors as constructed with their sizes. *)
Definition fresh_packet (num_panels : nat) : flat_packet :=
  (replicate (num_panels * 2) F32.zero, replicate (num_panels * 2) 0,
   replicate num_panels F32.zero).

Section BoundaryFeatureModel.
Context `{Libm}.

Record SolidCircle : Type := mkSolidCircle {
  circle_x : F32.t;
  circle_y : F32.t;
  circle_diam : F32.t
}.

(** [std::min(10000, std::max(5, (int)(m_diam * M_PI / _ips)))] *)
Definition ring_num_panels (m_diam _ips : F32.t) : outcome nat :=
  k <- int_of_double (F32.to_double m_diam * M_PI / F32.to_double _ips)%float ;;
  Returns (Z.to_nat (Z.min 10000 (Z.max 5 k))).

Definition circle_node_x (c : SolidCircle) (num_panels i : nat) : F32.t :=
  F32_of_double
    (F32.to_double (circle_x c)
     + 0.5 * F32.to_double (circle_diam c)
       * cos (2.0 * M_PI * F32.to_double (F32_of_nat i)
              / F32.to_double (F32_of_nat num_panels)))%float.

Definition circle_node_y (c : SolidCircle) (num_panels i : nat) : F32.t :=
  F32_of_double
    (F32.to_double (circle_y c)
     - 0.5 * F32.to_double (circle_diam c)
       * sin (2.0 * M_PI * F32.to_double (F32_of_nat i)
              / F32.to_double (F32_of_nat num_panels)))%float.

(** [SolidCircle::init_elements(const float _ips)]: the three vectors of
    the packet and what was printed. *)
Definition SolidCircle_init_elements (c : SolidCircle) (_ips : F32.t)
  : outcome (flat_packet * list out_item) :=
  num_panels <- ring_num_panels (circle_diam c) _ips ;;
  let out := [OStr "Creating circle with "; OSize num_panels;
              OStr " panels"; OEndl] in
  st <- for_loop (ring_body (circle_node_x c num_panels)
                            (circle_node_y c num_panels))
                 0 num_panels (fresh_packet num_panels) ;;
  st <- close_loop num_panels st ;;
  Returns (st, out).

Record SolidOval : Type := mkSolidOval {
  oval_x : F32.t;
  oval_y : F32.t;
  oval_diam : F32.t;
  oval_dmin : F32.t;
  oval_theta : F32.t
}.

(** [const float st = std::sin(M_PI * m_theta / 180.0);] and the same with
    [std::cos]. *)
Definition rotation_sin (m_theta : F32.t) : F32.t :=
  F32_of_double (sin (M_PI * F32.to_double m_theta / 180.0)%float).
Definition rotation_cos (m_theta : F32.t) : F32.t :=
  F32_of_double (cos (M_PI * F32.to_double m_theta / 180.0)%float).

(** [m_x + px*ct - py*st] and [m_y + px*st + py*ct] *)
Definition rotated_x (m_x px py st ct : F32.t) : F32.t :=
  F32_sub (F32.add m_x (F32.mul px ct)) (F32.mul py st).
Definition rotated_y (m_y px py st ct : F32.t) : F32.t :=
  F32.add (F32.add m_y (F32.mul px st)) (F32.mul py ct).

Definition oval_angle (num_panels i : nat) : F32.t :=
  F32_of_double (2.0 * M_PI * F32.to_double (F32_of_nat i)
                 / F32.to_double (F32_of_nat num_panels))%float.
Definition oval_dx (o : SolidOval) (num_panels i : nat) : F32.t :=
  F32_of_double (0.5 * F32.to_double (oval_diam o)
                 * F32.to_double (cosf (oval_angle num_panels i)))%float.
Definition oval_dy (o : SolidOval) (num_panels i : nat) : F32.t :=
  F32_of_double (-0.5 * F32.to_double (oval_dmin o)
                 * F32.to_double (sinf (oval_angle num_panels i)))%float.

Definition oval_node_x (o : SolidOval) (num_panels i : nat) : F32.t :=
  rotated_x (oval_x o) (oval_dx o num_panels i) (oval_dy o num_panels i)
            (rotation_sin (oval_theta o)) (rotation_cos (oval_theta o)).
Definition oval_node_y (o : SolidOval) (num_panels i : nat) : F32.t :=
  rotated_y (oval_y o) (oval_dx o num_panels i) (oval_dy o num_panels i)
            (rotation_sin (oval_theta o)) (rotation_cos (oval_theta o)).

(** [SolidOval::init_elements(const float _ips)] *)
Definition SolidOval_init_elements (o : SolidOval) (_ips : F32.t)
  : outcome (flat_packet * list out_item) :=
  num_panels <- ring_num_panels (oval_diam o) _ips ;;
  let out := [OStr "Creating oval with "; OSize num_panels;
              OStr " panels"; OEndl] in
  st <- for_loop (ring_body (oval_node_x o num_panels)
                            (oval_node_y o num_panels))
                 0 num_panels (fresh_packet num_panels) ;;
  st <- close_loop num_panels st ;;
  Returns (st, out).

Record SolidSquare : Type := mkSolidSquare {
  square_x : F32.t;
  square_y : F32.t;
  square_side : F32.t;
  square_theta : F32.t
}.

(** [4 * std::min(2500, std::max(1, (int)(m_side / _ips)))] *)
Definition square_num_panels (m_side _ips : F32.t) : outcome nat :=
  k <- int_of_spec (F32.div m_side _ips) ;;
  Returns (Z.to_nat (4 * Z.min 2500 (Z.max 1 k))).

(** [(float)i / (float)(num_panels/4)] *)
Definition side_fraction (num_panels i : nat) : F32.t :=
  F32.div (F32_of_nat i) (F32_of_nat (num_panels / 4)).

(** [px] and [py] on each of the four sides, in the order of the loops. *)
Definition square_px (q : SolidSquare) (num_panels side i : nat) : F32.t :=
  match side with
  | 0 => F32_of_double (F32.to_double (square_side q) * -0.5)%float
  | 1 => F32_of_double
           (F32.to_double (square_side q)
            * (-0.5 + F32.to_double (side_fraction num_panels i)))%float
  | 2 => F32_of_double (F32.to_double (square_side q) * 0.5)%float
  | _ => F32_of_double
           (F32.to_double (square_side q)
            * (0.5 - F32.to_double (side_fraction num_panels i)))%float
  end.

Definition square_py (q : SolidSquare) (num_panels side i : nat) : F32.t :=
  match side with
  | 0 => F32_of_double
           (F32.to_double (square_side q)
            * (-0.5 + F32.to_double (side_fraction num_panels i)))%float
  | 1 => F32_of_double (F32.to_double (square_side q) * 0.5)%float
  | 2 => F32_of_double
           (F32.to_double (square_side q)
            * (0.5 - F32.to_double (side_fraction num_panels i)))%float
  | _ => F32_of_double (F32.to_double (square_side q) * -0.5)%float
  end.

Definition square_node_x (q : SolidSquare) (num_panels side i : nat) : F32.t :=
  rotated_x (square_x q) (square_px q num_panels side i)
            (square_py q num_panels side i)
            (rotation_sin (square_theta q)) (rotation_cos (square_theta q)).
Definition square_node_y (q : SolidSquare) (num_panels side i : nat) : F32.t :=
  rotated_y (square_y q) (square_px q num_panels side i)
            (square_py q num_panels side i)
            (rotation_sin (square_theta q)) (rotation_cos (square_theta q)).

(** The body of each of the four coordinate loops: two writes through
    [icnt++]. *)
Definition side_body (q : SolidSquare) (num_panels side i : nat)
  (st : list F32.t * nat) : outcome (list F32.t * nat) :=
  let '(x, icnt) := st in
  x <- vec_write x icnt (square_node_x q num_panels side i) ;;
  let icnt := icnt + 1 in
  x <- vec_write x icnt (square_node_y q num_panels side i) ;;
  let icnt := icnt + 1 in
  Returns (x, icnt).

(** [SolidSquare::init_elements(const float _ips)] *)
Definition SolidSquare_init_elements (q : SolidSquare) (_ips : F32.t)
  : outcome (flat_packet * list out_item) :=
  num_panels <- square_num_panels (square_side q) _ips ;;
  let out := [OStr "Creating square with "; OSize num_panels;
              OStr " panels"; OEndl] in
  let '(x, idx, val) := fresh_packet num_panels in
  let icnt := 0 in
  xi <- for_loop (side_body q num_panels 0) 0 (num_panels / 4) (x, icnt) ;;
  xi <- for_loop (side_body q num_panels 1) 0 (num_panels / 4) xi ;;
  xi <- for_loop (side_body q num_panels 2) 0 (num_panels / 4) xi ;;
  xi <- for_loop (side_body q num_panels 3) 0 (num_panels / 4) xi ;;
  st <- for_loop connect_body 0 num_panels (fst xi, idx, val) ;;
  st <- close_loop num_panels st ;;
  Returns (st, out).

(** *** Well-formed closed contours *)

(** The flat index vector taken two by two. *)
Fixpoint pair_up (l : list nat) : list (nat * nat) :=
  match l with
  | a :: b :: rest => (a, b) :: pair_up rest
  | _ => []
  end.

(** The packet handed to [add_boundary]. *)
Definition packet_of_flat (st : flat_packet) : ElementPacket :=
  let '(x, idx, val) := st in mkPacket x (pair_up idx) val.

(** A closed contour of [n] nodes: [2n] coordinates, [n] values that are
    all zero, and panel [i] running from node [i] to node [i+1], the last
    one back to node 0. *)
Definition closed_contour (n : nat) (st : flat_packet) : Prop :=
  let '(x, idx, val) := st in
  length x = 2 * n
  /\ length idx = 2 * n
  /\ val = replicate n F32.zero
  /\ forall i : nat,
       i < n -> idx !! (2 * i) = Some i /\ idx !! (2 * i + 1) = Some (S i mod n).

(** What holds after [k] turns of the connectivity loop. *)
Definition connected_upto (n k : nat) (idx : list nat) (val : list F32.t) : Prop :=
  length idx = 2 * n
  /\ val = replicate n F32.zero
  /\ forall j : nat,
       j < k -> idx !! (2 * j) = Some j /\ idx !! (2 * j + 1) = Some (j + 1).

(** The coordinates of node [i] in the flat vector. *)
Definition node_at (st : flat_packet) (i : nat) : option (F32.t * F32.t) :=
  match fst (fst st) !! (2 * i), fst (fst st) !! (2 * i + 1) with
  | Some a, Some b => Some (a, b)
  | _, _ => None
  end.

End BoundaryFeatureModel.

(** ** A small instance to run the model on

    An expression compiler that knows the two expressions [t] and [t*t] and
    rejects everything else at its first character, and kernels that leave
    the collections as they are. *)
Inductive sample_expr : Type := SampleT | SampleSquare.

Definition sample_tinyexpr : TinyExpr := {|
  te_expr := sample_expr;
  te_compile := fun e =>
    if String.eqb e "t" then (Some SampleT, 0%Z)
    else if String.eqb e "t*t" then (Some SampleSquare, 0%Z)
    else (None, 1%Z);
  te_eval := fun e t =>
    match e with
    | SampleT => t
    | SampleSquare => (t * t)%float
    end
|}.

Record sample_diffusion : Type := mkSampleDiffusion {
  sample_nom_sep_scaled : F32.t;
  sample_particle_overlap : F32.t;
  sample_diffuse : bool
}.

Definition sample_kernels : @Kernels sample_tinyexpr := {|
  ElementBase_add_new := fun _in pts =>
    mkPoints (pn pts + length _in / 4) (pE pts) (pM pts) (pB pts) (px pts)
             (pr pts) (ps pts) (pu pts) (max_strength pts);
  BEM := unit;
  BEM_reset := fun b => b;
  Diffusion := sample_diffusion;
  get_nom_sep_scaled := sample_nom_sep_scaled;
  get_particle_overlap := sample_particle_overlap;
  Diffusion_get_diffuse := sample_diffuse;
  Diffusion_step := fun _ _ _ _ _ st => (st, None);
  Convection := unit;
  advect_2nd := fun _ _ _ st => (st, None)
|}.

(** A new simulation over the sample kernels, with diffusion switched off. *)
Definition sample_sim : @Simulation sample_tinyexpr sample_kernels :=
  @Simulation_new sample_tinyexpr sample_kernels
                  tt (mkSampleDiffusion (F32.of_Z 1) (F32.of_Z 1) false) tt.

(** A body that is only ever given constants. *)
Definition sample_history : list body_call :=
  [CallSetPos 0 3.5%float; CallGetPos 0.25%float; CallSetName "wing";
   CallGetVel 2%float].

Definition sample_constant_body : @Body sample_tinyexpr :=
  mkBody "wing" "" 0.25%float (3.5%float, 2%float) (0%float, 0%float)
         0%float 0%float ("", "") (None, None).

(** A fixed panel set of one panel, and a packet of three panels. *)
Definition sample_panels_a : Surfaces :=
  Surfaces_new [F32.of_Z 0; F32.of_Z 0; F32.of_Z 1; F32.of_Z 0]
               [(0, 1)] [F32.zero] reactive fixed None.

Definition sample_geom : ElementPacket :=
  mkPacket [F32.of_Z 2; F32.of_Z 2; F32.of_Z 3; F32.of_Z 2; F32.of_Z 3; F32.of_Z 3]
           [(0, 1); (1, 2); (2, 0)] [F32.zero; F32.zero; F32.zero].

(** One boundary collection, and one body named "wing" that does not move. *)
Definition sample_with_body : @Simulation sample_tinyexpr sample_kernels :=
  @with_bdry sample_tinyexpr sample_kernels [CSurfaces sample_panels_a]
    (@with_bodies sample_tinyexpr sample_kernels [Some 0]
       (@with_heap sample_tinyexpr sample_kernels
          [@set_name sample_tinyexpr "wing"
             (@Body_new sample_tinyexpr 1%float 2%float)]
          sample_sim)).

(** One particle (x, y, strength, radius), and a simulation that already
    holds a collection of one particle. *)
Definition sample_batch : list F32.t :=
  [F32.of_Z 1; F32.of_Z 2; F32.of_Z 3; F32.of_Z 4].

Definition sample_points : Points :=
  mkPoints 1 active lagrangian None ([F32.of_Z 0], [F32.of_Z 0]) [F32.of_Z 1]
           (Some ([F32.of_Z 1], [F32.zero], [F32.zero]))
           ([F32.zero], [F32.zero]) (F32.of_Z (-1)).

Definition sample_with_particles : @Simulation sample_tinyexpr sample_kernels :=
  @with_vort sample_tinyexpr sample_kernels [CPoints sample_points] sample_sim.

(** A step launched on the sample simulation. *)
Definition sample_launched : @Simulation sample_tinyexpr sample_kernels :=
  @with_stepfuture sample_tinyexpr sample_kernels FPending
    (@record_call sample_tinyexpr sample_kernels CallAsync
       (@with_step_has_started sample_tinyexpr sample_kernels true sample_sim)).

(** Kernels whose diffusion pass throws. *)
Definition failing_kernels : @Kernels sample_tinyexpr := {|
  ElementBase_add_new := fun _in pts => pts;
  BEM := unit;
  BEM_reset := fun b => b;
  Diffusion := sample_diffusion;
  get_nom_sep_scaled := sample_nom_sep_scaled;
  get_particle_overlap := sample_particle_overlap;
  Diffusion_get_diffuse := sample_diffuse;
  Diffusion_step := fun _ _ _ _ _ st => (st, Some (Exn "diffusion failed"));
  Convection := unit;
  advect_2nd := fun _ _ _ st => (st, None)
|}.

Definition failing_sim : @Simulation sample_tinyexpr failing_kernels :=
  @Simulation_new sample_tinyexpr failing_kernels
                  tt (mkSampleDiffusion (F32.of_Z 1) (F32.of_Z 1) false) tt.

(** A simulation whose step has ended with an exception that has not been
    collected yet. *)
Definition sample_failed : @Simulation sample_tinyexpr sample_kernels :=
  @with_stepfuture sample_tinyexpr sample_kernels
    (FReady (Some (Exn "step failed")))
    (@with_step_has_started sample_tinyexpr sample_kernels true sample_sim).

(** A body that follows the expression [t] in its first coordinate, and
    the simulation of [sample_with_body] with that body instead. *)
Definition sample_moving_body : @Body sample_tinyexpr :=
  @with_pos_func sample_tinyexpr (Some SampleT, None)
    (@with_pos_expr sample_tinyexpr ("t", "")
       (@Body_new sample_tinyexpr 0%float 0%float)).

Definition sample_with_moving_body : @Simulation sample_tinyexpr sample_kernels :=
  @with_heap sample_tinyexpr sample_kernels [sample_moving_body] sample_with_body.

(** Three insertions: a body, no body, the same body again. *)
Definition sample_insertions : list (ptr * ElementPacket) :=
  [(Some 0, sample_geom); (None, sample_geom); (Some 0, sample_geom)].

(** The C library replaced by the first terms of the series. *)
Definition sample_libm : Libm := {|
  cos := fun v => (1 - v * v / 2)%float;
  sin := fun v => v;
  cosf := fun v => F32_of_double (1 - F32.to_double v * F32.to_double v / 2)%float;
  sinf := fun v => v
|}.

(** A circle of diameter 1 at the origin, and a spacing of a tenth. *)
Definition sample_circle : SolidCircle :=
  mkSolidCircle F32.zero F32.zero (F32.of_Z 1).

Definition sample_spacing : F32.t := F32.div (F32.of_Z 1) (F32.of_Z 10).

Definition sample_circle_flat : flat_packet :=
  match @SolidCircle_init_elements sample_libm sample_circle sample_spacing with
  | Returns (st, _) => st
  | _ => fresh_packet 0
  end.

(** * Properties *)

(** ** Rigid bodies *)

Section BodyProperties.
Context `{TinyExpr}.

Lemma get_pos_constant (t : float) (b : Body) :
  pos_func b = (None, None) -> get_pos t b = (pos b, with_this_time t b).
Proof.
  intros Hf. destruct b; cbn in Hf; subst. reflexivity.
Qed.

Lemma get_vel_constant (t : float) (b : Body) :
  pos_func b = (None, None) -> get_vel t b = (vel b, b).
Proof.
  intros Hf. destruct b; cbn in Hf; subst. reflexivity.
Qed.

Lemma run_call_constant (c : body_call) (b b' : Body) (v : Vec) :
  constant_body b v ->
  run_call c b = Returns b' ->
  constant_body b' (stored_constants [c] v).
Proof.
  intros (Hf & Hv & Hp) Hrun. destruct c; cbn [run_call stored_constants] in Hrun |- *.
  - inversion Hrun; subst. repeat split; assumption.
  - inversion Hrun; subst. repeat split; assumption.
  - unfold set_pos in Hrun. destruct (_i <? Dimensions); cbn in Hrun; [|discriminate].
    inversion Hrun; subst. repeat split; assumption.
  - rewrite get_pos_constant in Hrun by assumption.
    inversion Hrun; subst. repeat split; assumption.
  - rewrite get_vel_constant in Hrun by assumption.
    inversion Hrun; subst. repeat split; assumption.
  - inversion Hrun; subst. repeat split; assumption.
  - inversion Hrun; subst. repeat split; assumption.
Qed.

Lemma run_calls_constant (cs : list body_call) (b b' : Body) (v : Vec) :
  constant_body b v ->
  run_calls cs b = Returns b' ->
  constant_body b' (stored_constants cs v).
Proof.
  revert b v. induction cs as [|c cs IH]; intros b v Hb Hrun.
  - cbn in Hrun. inversion Hrun; subst. exact Hb.
  - cbn [run_calls] in Hrun.
    destruct (run_call c b) as [b1| |] eqn:Hc; cbn in Hrun; try discriminate.
    pose proof (run_call_constant c b b1 v Hb Hc) as Hb1.
    specialize (IH b1 _ Hb1 Hrun).
    destruct c; exact IH.
Qed.

(** C6. A body built by the constructor and then only given constant
    coordinates (whatever other calls are made on it, none compiles an
    expression) answers [get_pos] at every time with exactly the stored
    constants and [get_vel] at every time with exactly {0, 0}. *)
Theorem constant_body_pos_vel (_x _y : float) (cs : list body_call)
  (b : Body) (t : float) :
  run_calls cs (Body_new _x _y) = Returns b ->
  fst (get_pos t b) = stored_constants cs (_x, _y)
  /\ fst (get_vel t b) = (0%float, 0%float).
Proof.
  intros Hrun.
  assert (Hinit : constant_body (Body_new _x _y) (_x, _y)) by (repeat split).
  destruct (run_calls_constant cs _ b _ Hinit Hrun) as (Hf & Hv & Hp).
  rewrite get_pos_constant, get_vel_constant by assumption.
  cbn [fst]. split; assumption.
Qed.

Lemma get_pos_null_slot (t : float) (b : Body) (i : nat) :
  i < Dimensions ->
  arr2_get i (pos_func b) = None ->
  arr2_get i (pos_func (snd (get_pos t b))) = None
  /\ arr2_get i (pos (snd (get_pos t b))) = arr2_get i (pos b).
Proof.
  intros Hi Hnull. unfold Dimensions in Hi.
  destruct b as [n p tt0 [p0 p1] v ap av ex [f0 f1]].
  cbn [pos_func pos] in Hnull |- *.
  destruct i as [|[|i]]; [| |lia]; cbn [arr2_get fst snd] in Hnull; subst.
  - destruct f1; split; reflexivity.
  - destruct f0; split; reflexivity.
Qed.

Lemma after_get_pos_null_slot (ts : list float) (b : Body) (i : nat) :
  i < Dimensions ->
  arr2_get i (pos_func b) = None ->
  arr2_get i (pos_func (after_get_pos ts b)) = None
  /\ arr2_get i (pos (after_get_pos ts b)) = arr2_get i (pos b).
Proof.
  intros Hi. revert b. induction ts as [|t ts IH]; intros b Hnull.
  - split; [assumption|reflexivity].
  - unfold after_get_pos in *. cbn [foldl].
    destruct (get_pos_null_slot t b i Hi Hnull) as [Hf Hp].
    destruct (IH _ Hf) as [Hf' Hp']. split; [assumption|congruence].
Qed.

(** C7. When the expression does not compile, [set_pos] returns normally,
    prints the diagnostic with the character offset reported by the
    compiler, leaves the slot of that coordinate null and the stored
    position untouched, and every later [get_pos] returns for that
    coordinate the value stored before the call. *)
Theorem set_pos_expr_compile_failure (b : Body) (i : nat) (expr : string)
  (ierr : Z) :
  i < Dimensions ->
  te_compile expr = (None, ierr) ->
  exists b' : Body,
    set_pos_expr i expr b
      = Returns (b', [OStr "  Error parsing expression ("; OStr expr;
                      OStr "), near character "; OInt ierr; OEndl])
    /\ arr2_get i (pos_func b') = None
    /\ pos b' = pos b
    /\ forall (ts : list float) (t : float),
         arr2_get i (fst (get_pos t (after_get_pos ts b'))) = arr2_get i (pos b).
Proof.
  intros Hi Hc.
  assert (Hi' : (i <? Dimensions) = true) by (apply Nat.ltb_lt; exact Hi).
  assert (Hslot : forall (A : Type) (a : arr2 (option A)),
             arr2_get i (arr2_set i None a) = None).
  { intros A a. unfold Dimensions in Hi.
    destruct i as [|[|i]]; [reflexivity|reflexivity|lia]. }
  exists (with_pos_func (arr2_set i None (pos_func b))
            (with_pos_expr (arr2_set i expr (pos_expr b)) b)).
  split; [|split; [apply Hslot|split; [reflexivity|]]].
  - unfold set_pos_expr. rewrite Hi'. cbn [assert bind]. rewrite Hc.
    cbn [with_pos_func with_pos_expr pos_func]. rewrite Hslot. reflexivity.
  - intros ts t.
    set (b' := with_pos_func _ _).
    assert (Hnull : arr2_get i (pos_func b') = None) by apply Hslot.
    destruct (after_get_pos_null_slot ts b' i Hi Hnull) as [Hf Hp].
    destruct (get_pos_null_slot t _ i Hi Hf) as [_ Hp2].
    unfold get_pos in *. cbn [fst snd] in *. rewrite Hp2, Hp. reflexivity.
Qed.

End BodyProperties.

(** ** The orchestrator *)

Section SimulationProperties.
Context `{Kernels}.

(** *** Collection matching *)

Lemma this_match_matches (_bptr : ptr) (coll : Collection) :
  this_match reactive (match _bptr with Some _ => bodybound | None => fixed end)
             _bptr coll
  = matches _bptr coll.
Proof.
  unfold this_match, matches.
  destruct _bptr as [a|]; destruct (get_elemt coll), (get_movet coll); cbn;
    try reflexivity;
    repeat case_bool_decide; try reflexivity; congruence.
Qed.

Lemma search_loop_no_match (e : elem_t) (m : move_t) (_bptr : ptr)
  (l : list Collection) (i imatch : nat) (no_match : bool) :
  (forall (k : nat) (c : Collection), l !! k = Some c -> this_match e m _bptr c = false) ->
  search_loop e m _bptr l i imatch no_match = (imatch, no_match).
Proof.
  revert i. induction l as [|c l IH]; intros i Hnone; [reflexivity|].
  cbn [search_loop]. rewrite (Hnone 0 c eq_refl).
  apply IH. intros k c' Hk. exact (Hnone (S k) c' Hk).
Qed.

Lemma search_loop_last_match (e : elem_t) (m : move_t) (_bptr : ptr)
  (l : list Collection) (i imatch : nat) (no_match : bool)
  (k : nat) (c : Collection) :
  l !! k = Some c ->
  this_match e m _bptr c = true ->
  (forall (j : nat) (c' : Collection),
      k < j -> l !! j = Some c' -> this_match e m _bptr c' = false) ->
  search_loop e m _bptr l i imatch no_match = (i + k, false).
Proof.
  revert i imatch no_match k.
  induction l as [|c0 l IH]; intros i imatch no_match k Hk Hm Hlater.
  - discriminate.
  - cbn [search_loop]. destruct k as [|k].
    + cbn in Hk. inversion Hk; subst c0. rewrite Hm.
      rewrite search_loop_no_match.
      * f_equal. lia.
      * intros j c' Hj. apply (Hlater (S j) c'); [lia|exact Hj].
    + cbn in Hk.
      assert (Hrest : forall b n, search_loop e m _bptr l (S i) n b = (i + S k, false)).
      { intros b n. rewrite (IH (S i) n b k Hk Hm).
        - f_equal. lia.
        - intros j c' Hj Hl. apply (Hlater (S j) c'); [lia|exact Hl]. }
      destruct (this_match e m _bptr c0); apply Hrest.
Qed.

(** Among the collections that match, one is the last. *)
Lemma last_match_exists (_bptr : ptr) (l : list Collection) (i : nat)
  (coll : Collection) :
  l !! i = Some coll ->
  matches _bptr coll = true ->
  exists (k : nat) (ck : Collection),
    i <= k /\ l !! k = Some ck /\ matches _bptr ck = true
    /\ forall (j : nat) (c : Collection),
         k < j -> l !! j = Some c -> matches _bptr c = false.
Proof.
  revert i coll. induction l as [|c0 l IH]; intros i coll Hi Hm; [discriminate|].
  assert (Hdec : (exists j c, l !! j = Some c /\ matches _bptr c = true)
                 \/ ~ (exists j c, l !! j = Some c /\ matches _bptr c = true)).
  { destruct (decide (Exists (fun c => matches _bptr c = true) l)) as [He|He].
    - left. apply Exists_exists in He. destruct He as (c & Hin & Hc).
      apply list_elem_of_lookup in Hin. destruct Hin as [j Hj]. eauto.
    - right. intros (j & c & Hj & Hc). apply He, Exists_exists.
      exists c. split; [|exact Hc]. apply list_elem_of_lookup. eauto. }
  destruct Hdec as [(j & c & Hj & Hc)|Hnone].
  - destruct (IH j c Hj Hc) as (k & ck & Hle & Hk & Hmk & Hlast).
    exists (S k), ck. repeat split; try assumption.
    + destruct i as [|i]; [lia|].
      cbn in Hi. destruct (decide (i <= k)) as [|Hgt]; [lia|].
      exfalso. assert (Hf := Hlast i coll ltac:(lia) Hi). congruence.
    + intros j' c' Hlt Hj'. destruct j' as [|j']; [lia|].
      apply (Hlast j' c'); [lia|exact Hj'].
  - destruct i as [|i].
    + cbn in Hi. inversion Hi; subst c0.
      exists 0, coll. repeat split; try assumption; [lia|].
      intros j c Hlt Hj. destruct j as [|j]; [lia|]. cbn in Hj.
      destruct (matches _bptr c) eqn:Hc; [|reflexivity].
      exfalso. apply Hnone. exists j, c. split; assumption.
    + cbn in Hi. exfalso. apply Hnone. exists i, coll. split; assumption.
Qed.

Lemma add_boundary_no_match (_bptr : ptr) (_geom : ElementPacket) (s : Simulation) :
  (forall (k : nat) (c : Collection), bdry s !! k = Some c -> matches _bptr c = false) ->
  bdry (add_boundary _bptr _geom s) = bdry s ++ [new_collection _bptr _geom].
Proof.
  intros Hnone. unfold add_boundary. cbv zeta.
  rewrite search_loop_no_match.
  - reflexivity.
  - intros k c Hk. rewrite this_match_matches. exact (Hnone k c Hk).
Qed.

Lemma add_boundary_last_match (_bptr : ptr) (_geom : ElementPacket) (s : Simulation) :
  last_match_receives _bptr _geom s.
Proof.
  intros i coll Hi Hm Hlater. unfold add_boundary. cbv zeta.
  rewrite (search_loop_last_match _ _ _ _ 0 0 true i coll Hi).
  - cbn [Nat.add]. rewrite Hi. destruct coll as [pts|surf]; cbn.
    + symmetry. apply list_insert_id. exact Hi.
    + reflexivity.
  - rewrite this_match_matches. exact Hm.
  - intros j c' Hlt Hj. rewrite this_match_matches. exact (Hlater j c' Hlt Hj).
Qed.

(** *** Stop conditions *)

Lemma body_moves_returns (s : Simulation) (p : ptr) :
  valid_ptr (heap s) p ->
  exists (m : bool) (s' : Simulation),
    body_moves s p = Returns (m, s')
    /\ length (heap s') = length (heap s)
    /\ bodies s' = bodies s.
Proof.
  intros Hp. destruct p as [a|]; [|contradiction]. cbn in Hp.
  destruct (lookup_lt_is_Some_2 (heap s) a Hp) as [b Hb].
  unfold body_moves, deref. rewrite Hb. cbn [bind].
  destruct (get_vel (time s) b) as [thisvel b1].
  destruct (get_vel _ b1) as [nextvel b2].
  eexists _, _. split; [reflexivity|]. cbn. split; [|reflexivity].
  apply length_insert.
Qed.

Lemma bodies_move_loop_returns (l : list ptr) (some_move : bool) (s : Simulation) :
  Forall (valid_ptr (heap s)) l ->
  exists (m : bool) (s' : Simulation),
    bodies_move_loop l some_move s = Returns (m, s').
Proof.
  revert some_move s. induction l as [|p l IH]; intros some_move s Hall.
  - eexists _, _. reflexivity.
  - inversion Hall as [|? ? Hp Hl]; subst.
    destruct (body_moves_returns s p Hp) as (m & s1 & Hm & Hlen & _).
    cbn [bodies_move_loop]. rewrite Hm. cbn [bind].
    apply IH. eapply Forall_impl; [exact Hl|].
    intros q Hq. unfold valid_ptr in *. destruct q; [|exact Hq]. lia.
Qed.

(** C2. [check_simulation] always returns a text. Without boundary
    features and without particles the text is the message that starts with
    "No flow features and no bodies". With a boundary feature, no particles,
    a freestream whose squared magnitude is below the machine epsilon and no
    moving body, the text is the zero-freestream advisory alone, whether or
    not diffusion is on: the diffusion advisory is not appended. *)
Theorem check_simulation_advisories (_nff _nbf : nat) (s : Simulation) :
  (Forall (valid_ptr (heap s)) (bodies s) ->
   exists (text : string) (s' : Simulation),
     check_simulation _nff _nbf s = Returns (text, s'))
  /\ (_nbf = 0 -> get_nparts s = 0 ->
      check_simulation _nff _nbf s = Returns (msg_no_features, s)
      /\ contains "No flow features and no bodies" msg_no_features = true)
  /\ (forall s' : Simulation,
        0 < _nbf -> get_nparts s = 0 -> zero_freestream s = true ->
        do_any_bodies_move s = Returns (false, s') ->
        check_simulation _nff _nbf s = Returns (msg_zero_freestream, s')
        /\ contains msg_no_diffusion msg_zero_freestream = false).
Proof.
  split; [|split].
  - intros Hvalid. unfold check_simulation. cbv zeta.
    destruct ((0 <? _nbf) && (get_nparts s =? 0)); [|eexists _, _; reflexivity].
    destruct (bodies_move_loop_returns (bodies s) false s Hvalid) as (m & s1 & Hm).
    unfold do_any_bodies_move. rewrite Hm. cbn [bind].
    destruct (zero_freestream s && negb m); [eexists _, _; reflexivity|].
    destruct (negb (Diffusion_get_diffuse (diff s1))); eexists _, _; reflexivity.
  - intros Hnbf Hnp. subst _nbf. split; [|vm_compute; reflexivity].
    unfold check_simulation. rewrite Hnp. reflexivity.
  - intros s' Hnbf Hnp Hfs Hmove. split; [|vm_compute; reflexivity].
    unfold check_simulation. cbv zeta. rewrite Hnp, Hfs, Hmove.
    apply Nat.ltb_lt in Hnbf. rewrite Hnbf.
    destruct _nbf as [|n]; [discriminate|]. reflexivity.
Qed.

(** *** One step *)

Lemma launches_record_call (c : kernel_call) (s : Simulation) :
  launches (record_call c s) = launches s + (if is_launch c then 1 else 0).
Proof.
  unfold launches, record_call. cbn [calls with_calls].
  rewrite List.filter_app, length_app. cbn. destruct (is_launch c); reflexivity.
Qed.

(** What [step()] leaves alone. *)
Lemma step_frame (s : Simulation) :
  step_has_started (fst (step s)) = step_has_started s
  /\ step_is_finished (fst (step s)) = step_is_finished s
  /\ stepfuture (fst (step s)) = stepfuture s
  /\ bodies (fst (step s)) = bodies s
  /\ dt (fst (step s)) = dt s
  /\ launches (fst (step s)) = launches s.
Proof.
  unfold step. cbv zeta.
  destruct (Diffusion_step _ _ _ _ _ _) as [[[[[d v] b] m] h] [e|]].
  - cbn. unfold launches. cbn. rewrite List.filter_app, length_app. cbn.
    repeat split; lia.
  - destruct (advect_2nd _ _ _ _) as [[[[[[c v'] b'] f] m'] h'] [e|]];
      cbn; unfold launches; cbn;
      rewrite !List.filter_app, !length_app; cbn; repeat split; lia.
Qed.

Lemma step_completes (s s' : Simulation) :
  step s = (s', None) ->
  calls s'
  = calls s
      ++ [CallDiffusionStep (time s) (dt s) (re s) (get_vdelta s)
            (F32.to_double (arr2_get 0 (fs s)), F32.to_double (arr2_get 1 (fs s)));
          CallAdvect2nd (time s) (dt s)
            (F32.to_double (arr2_get 0 (fs s)), F32.to_double (arr2_get 1 (fs s)))]
  /\ time s' = (time s + F32.to_double (dt s))%float
  /\ dt s' = dt s.
Proof.
  unfold step. cbv zeta.
  destruct (Diffusion_step _ _ _ _ _ _) as [[[[[d v] b] m] h] [e|]];
    [intros Hs; inversion Hs|].
  destruct (advect_2nd _ _ _ _) as [[[[[[c v'] b'] f] m'] h'] [e|]];
    intros Hs; inversion Hs; subst; clear Hs.
  cbn. rewrite <- app_assoc. repeat split; reflexivity.
Qed.

Lemma iter_shift (A : Type) (f : A -> A) (n : nat) (a : A) :
  Nat.iter n f (f a) = f (Nat.iter n f a).
Proof.
  induction n as [|n IH]; [reflexivity|].
  change (Nat.iter (S n) f (f a)) with (f (Nat.iter n f (f a))).
  rewrite IH. reflexivity.
Qed.

(** C5. A call of [step()] that runs to its end performs exactly one
    diffusion pass and then one second-order convection pass: the diffusion
    kernel is applied once, over the whole [dt] and at the time the step
    began, to the diffusion object, the vortex and boundary collections and
    the solver as they were; the convection kernel is applied once, with
    the same time and [dt], to what the diffusion pass left together with
    the field points; the simulation holds what the convection pass left,
    and its clock is the old clock plus [dt]. Exactly these two calls are
    made, in this order. So after [n] steps the passes alternate diffusion
    and convection [n] times and the clock is the start time with [dt]
    added [n] times. *)
Theorem step_diffuse_then_convect (n : nat) (s s1 sn : Simulation) :
  step s = (s1, None) ->
  run_steps n s = (sn, None) ->
  (exists (d : Diffusion) (v b : list Collection) (m : BEM) (h : list Body)
          (c : Convection) (v' b' f : list Collection) (m' : BEM)
          (h' : list Body),
      Diffusion_step (time s) (dt s) (re s) (get_vdelta s)
        (F32.to_double (arr2_get 0 (fs s)), F32.to_double (arr2_get 1 (fs s)))
        (diff s, vort s, bdry s, bem s, heap s)
      = (d, v, b, m, h, None)
      /\ advect_2nd (time s) (dt s)
           (F32.to_double (arr2_get 0 (fs s)), F32.to_double (arr2_get 1 (fs s)))
           (conv s, v, b, fldpt s, m, h)
         = (c, v', b', f, m', h', None)
      /\ diff s1 = d /\ conv s1 = c
      /\ vort s1 = v' /\ bdry s1 = b' /\ fldpt s1 = f
      /\ bem s1 = m' /\ heap s1 = h'
      /\ re s1 = re s /\ dt s1 = dt s /\ fs s1 = fs s /\ bodies s1 = bodies s)
  /\ (calls s1
      = calls s
          ++ [CallDiffusionStep (time s) (dt s) (re s) (get_vdelta s)
                (F32.to_double (arr2_get 0 (fs s)), F32.to_double (arr2_get 1 (fs s)));
              CallAdvect2nd (time s) (dt s)
                (F32.to_double (arr2_get 0 (fs s)), F32.to_double (arr2_get 1 (fs s)))]
      /\ time s1 = (time s + F32.to_double (dt s))%float)
  /\ passes (calls sn) = passes (calls s) ++ concat (replicate n [Diffuse; Convect2nd])
  /\ time sn = Nat.iter n (fun t => (t + F32.to_double (dt s))%float) (time s).
Proof.
  intros Hstep Hrun. split.
  { revert Hstep. unfold step. cbv zeta.
    destruct (Diffusion_step _ _ _ _ _ _) as [[[[[d v] b] m] h] [e|]] eqn:Hd;
      [intros Hs; inversion Hs|].
    destruct (advect_2nd _ _ _ _) as [[[[[[c v'] b'] f] m'] h'] [e|]] eqn:Ha;
      intros Hs; inversion Hs; subst; clear Hs.
    exists d, v, b, m, h, c, v', b', f, m', h'.
    split; [first [reflexivity|exact Hd]|].
    split; [first [reflexivity|exact Ha]|]. cbn. repeat split; reflexivity. }
  split.
  { destruct (step_completes s s1 Hstep) as (Hc & Ht & _). split; assumption. }
  clear Hstep s1. revert s Hrun.
  induction n as [|n IH]; intros s Hrun.
  - cbn in Hrun. inversion Hrun; subst. cbn. rewrite app_nil_r. split; reflexivity.
  - cbn [run_steps] in Hrun.
    destruct (step s) as [s1 [e|]] eqn:Hstep; [discriminate|].
    destruct (step_completes s s1 Hstep) as (Hc & Ht & Hdt).
    destruct (IH s1 Hrun) as [Hp Htime]. split.
    + rewrite Hp, Hc. unfold passes. rewrite omap_app. cbn.
      rewrite <- app_assoc. reflexivity.
    + rewrite Htime, Hdt, Ht.
      apply (iter_shift _ (fun t => (t + F32.to_double (dt s))%float) n (time s)).
Qed.

(** *** The stepping state machine *)

Lemma worker_finish_pending (s : Simulation) :
  stepfuture s = FPending ->
  stepfuture (worker_finish s) = FReady (snd (step s))
  /\ step_has_started (worker_finish s) = step_has_started s
  /\ launches (worker_finish s) = launches s
  /\ bodies (worker_finish s) = bodies s
  /\ calls (worker_finish s) = calls (fst (step s))
  /\ heap (worker_finish s) = heap (fst (step s)).
Proof.
  intros Hp. unfold worker_finish. rewrite Hp.
  destruct (step_frame s) as (Hs & _ & _ & Hb & _ & Hl).
  destruct (step s) as [s' e]. cbn in *. repeat split; assumption.
Qed.

Lemma worker_finish_idle (s : Simulation) :
  stepfuture s <> FPending -> worker_finish s = s.
Proof.
  intros Hp. unfold worker_finish. destruct (stepfuture s); congruence.
Qed.

Lemma test_for_new_results_idle (s : Simulation) :
  step_has_started s = false -> test_for_new_results s = (Normal true, s).
Proof. intros Hs. unfold test_for_new_results. rewrite Hs. reflexivity. Qed.

Lemma test_for_new_results_ready (s : Simulation) (r : option exn) :
  step_has_started s = true ->
  stepfuture s = FReady r ->
  test_for_new_results s
  = match r with
    | Some e => (Raised e, with_stepfuture FInvalid s)
    | None => (Normal true,
               with_step_has_started false
                 (with_step_is_finished true (with_stepfuture FInvalid s)))
    end.
Proof.
  intros Hs Hf. unfold test_for_new_results, future_get, future_wait.
  rewrite Hs, Hf. cbn [negb is_future_ready].
  rewrite worker_finish_idle by (rewrite Hf; discriminate).
  rewrite Hf. destruct r; reflexivity.
Qed.

Lemma test_for_new_results_waiting (s : Simulation) :
  step_has_started s = true ->
  is_future_ready (stepfuture s) = false ->
  test_for_new_results s = (Normal false, s).
Proof.
  intros Hs Hf. unfold test_for_new_results. rewrite Hs, Hf. reflexivity.
Qed.

(** While a launched step is polled, it stays started, its future stays
    valid and nothing is launched; the poll that answers true leaves the
    simulation idle. *)
Lemma polls_until_true_idle (s s' : Simulation) :
  polls_until_true s s' ->
  step_has_started s = true ->
  stepfuture s <> FInvalid ->
  step_has_started s' = false /\ launches s' = launches s.
Proof.
  induction 1 as [s s' Ht|s s1 s' Ht _ IH|s s' Hp _ IH]; intros Hs Hf.
  - destruct (stepfuture s) as [| |r] eqn:Hfut; [congruence| |].
    + rewrite test_for_new_results_waiting in Ht by (try rewrite Hfut; done).
      discriminate.
    + rewrite (test_for_new_results_ready s r Hs Hfut) in Ht.
      destruct r; inversion Ht; subst. split; reflexivity.
  - destruct (stepfuture s) as [| |r] eqn:Hfut; [congruence| |].
    + rewrite test_for_new_results_waiting in Ht by (try rewrite Hfut; done).
      inversion Ht; subst s1. apply IH; [exact Hs|congruence].
    + rewrite (test_for_new_results_ready s r Hs Hfut) in Ht.
      destruct r; discriminate.
  - destruct (worker_finish_pending s Hp) as (Hfut & Hst & Hl & _).
    destruct IH as [IH1 IH2]; [congruence|rewrite Hfut; discriminate|].
    split; [exact IH1|congruence].
Qed.

(** C3. [test_for_new_results] answers true at once when no step has been
    started; with a step started and its future ready it takes the result
    (rethrowing the exception the step ended with, if any, and otherwise
    setting the finished flag, clearing the started flag and answering
    true); with a step started and its future not ready it answers false
    and changes nothing. So after [async_step] and polling until the answer
    is true, the next call answers true again, changes nothing, and only
    the one step has been launched. *)
Theorem test_for_new_results_state_machine (s : Simulation) :
  (step_has_started s = false -> test_for_new_results s = (Normal true, s))
  /\ (step_has_started s = true -> stepfuture s = FReady None ->
      test_for_new_results s
      = (Normal true,
         with_step_has_started false
           (with_step_is_finished true (with_stepfuture FInvalid s))))
  /\ (forall e : exn,
        step_has_started s = true -> stepfuture s = FReady (Some e) ->
        test_for_new_results s = (Raised e, with_stepfuture FInvalid s))
  /\ (step_has_started s = true -> is_future_ready (stepfuture s) = false ->
      test_for_new_results s = (Normal false, s))
  /\ (forall s1 s2 : Simulation,
        async_step s = Returns s1 ->
        polls_until_true s1 s2 ->
        test_for_new_results s2 = (Normal true, s2)
        /\ launches s2 = launches s + 1).
Proof.
  split; [apply test_for_new_results_idle|].
  split; [intros Hs Hf; exact (test_for_new_results_ready s None Hs Hf)|].
  split; [intros e Hs Hf; exact (test_for_new_results_ready s (Some e) Hs Hf)|].
  split; [apply test_for_new_results_waiting|].
  intros s1 s2 Hasync Hpoll.
  unfold async_step in Hasync. cbv zeta in Hasync.
  cbn [stepfuture with_step_has_started] in Hasync.
  destruct (stepfuture s) eqn:Hfut; try discriminate;
    inversion Hasync; subst s1; clear Hasync;
    (destruct (polls_until_true_idle _ _ Hpoll) as [Hidle Hl];
     [reflexivity|discriminate|]);
    (split; [apply test_for_new_results_idle; exact Hidle|]);
    rewrite Hl; unfold launches; cbn;
    rewrite List.filter_app, length_app; reflexivity.
Qed.

(** *** Reset *)

(** C4. [reset] first lets a step that is still in flight run to its end
    and takes its result; when it returns, the future is released, the
    three collection lists are empty, the time is 0, the started and
    finished flags are cleared and the list of bodies is as it was. It only
    fails to return when the awaited step ended with an exception, which it
    rethrows. *)
Theorem reset_waits_then_clears (s : Simulation) :
  reset s = reset (worker_finish s)
  /\ match reset s with
     | (Normal _, s') =>
         stepfuture (worker_finish s) <> FPending
         /\ (forall e : exn, stepfuture (worker_finish s) <> FReady (Some e))
         /\ stepfuture s' = FInvalid
         /\ calls s' = calls (worker_finish s)
         /\ heap s' = heap (worker_finish s)
         /\ vort s' = [] /\ bdry s' = [] /\ fldpt s' = []
         /\ time s' = 0%float
         /\ step_has_started s' = false
         /\ step_is_finished s' = false
         /\ bodies s' = bodies s
     | (Raised e, s') =>
         stepfuture (worker_finish s) = FReady (Some e)
         /\ stepfuture s' = FInvalid
     end.
Proof.
  destruct (stepfuture s) as [| |r] eqn:Hfut.
  - rewrite (worker_finish_idle s) by (rewrite Hfut; discriminate).
    split; [reflexivity|].
    unfold reset. rewrite Hfut. cbn. rewrite Hfut.
    repeat split; try reflexivity; discriminate.
  - destruct (worker_finish_pending s Hfut) as (Hready & _ & _ & Hb & _ & _).
    assert (Hidle : worker_finish (worker_finish s) = worker_finish s)
      by (apply worker_finish_idle; rewrite Hready; discriminate).
    assert (Hreset : reset s = reset (worker_finish s)).
    { unfold reset, future_get, future_wait. rewrite Hfut, Hready.
      cbn [future_valid]. rewrite !Hidle. reflexivity. }
    split; [exact Hreset|]. rewrite Hreset.
    unfold reset, future_get, future_wait. rewrite Hready.
    cbn [future_valid]. rewrite !Hidle, Hready.
    destruct (snd (step s)) as [e|]; cbn.
    + split; reflexivity.
    + repeat split; try reflexivity; try discriminate. exact Hb.
  - rewrite (worker_finish_idle s) by (rewrite Hfut; discriminate).
    split; [reflexivity|].
    unfold reset, future_get, future_wait. rewrite Hfut.
    cbn [future_valid].
    rewrite !(worker_finish_idle s) by (rewrite Hfut; discriminate).
    rewrite Hfut. destruct r as [e|]; cbn.
    + split; reflexivity.
    + repeat split; try reflexivity; discriminate.
Qed.

(** *** Adding particles and field points *)

Lemma set_radius_loop_length (fuel i : nat) (thisvd : F32.t) (v : list F32.t) :
  length (set_radius_loop fuel i thisvd v) = length v.
Proof.
  revert i v. induction fuel as [|fuel IH]; intros i v; cbn [set_radius_loop];
    [reflexivity|].
  destruct (i <? length v); [|reflexivity].
  rewrite IH. apply length_insert.
Qed.

Lemma set_radius_loop_lookup (fuel i : nat) (thisvd : F32.t) (v : list F32.t)
  (k : nat) :
  length v <= i + 4 * fuel ->
  set_radius_loop fuel i thisvd v !! k
  = if decide (i <= k /\ k < length v /\ (k - i) mod 4 = 0)
    then Some thisvd else v !! k.
Proof.
  revert i v. induction fuel as [|fuel IH]; intros i v Hfuel; cbn [set_radius_loop].
  - case_decide; [lia|reflexivity].
  - destruct (Nat.ltb_spec i (length v)) as [Hlt|Hge].
    + rewrite IH by (rewrite length_insert; lia). rewrite length_insert.
      destruct (decide (k = i)) as [->|Hne].
      * rewrite list_lookup_insert_eq by exact Hlt.
        rewrite Nat.sub_diag. cbn. repeat case_decide; try reflexivity; lia.
      * rewrite list_lookup_insert_ne by congruence.
        assert (Hshift : 4 <= k - i -> (k - (i + 4)) mod 4 = (k - i) mod 4).
        { intros Hk. replace (k - i) with ((k - (i + 4)) + 1 * 4) by lia.
          symmetry. apply Nat.Div0.mod_add. }
        assert (Hzero : (k - i) mod 4 = 0 -> i <= k -> k <> i -> 4 <= k - i).
        { intros Hm Hle Hki. destruct (k - i) as [|[|[|[|d]]]] eqn:Hd;
            try discriminate; lia. }
        destruct (decide (i + 4 <= k /\ k < length v /\ (k - (i + 4)) mod 4 = 0))
          as [(Ha & Hb & Hc)|Hn1];
          destruct (decide (i <= k /\ k < length v /\ (k - i) mod 4 = 0))
          as [(Ha' & Hb' & Hc')|Hn2]; try reflexivity; exfalso.
        -- apply Hn2. repeat split; lia.
        -- pose proof (Hzero Hc' Ha' Hne) as H4. apply Hn1.
           repeat split; lia.
    + case_decide; [lia|reflexivity].
Qed.

(** C10. For a batch of [4n] values with [n] positive, the vector that
    [add_particles] hands on has the same length, holds the current
    [vdelta] at every fourth position (the radius of each particle) and the
    caller's values elsewhere; that vector is what the new collection is
    built from when there is none, and what [add_new] appends to the last
    collection otherwise. An empty batch leaves the simulation as it is. *)
Theorem add_particles_overwrites_radius (_invec : list F32.t) (n : nat)
  (s : Simulation) :
  length _invec = 4 * n -> 0 < n ->
  let stored := set_radius_loop (length _invec) 3 (get_vdelta s) _invec in
  length stored = 4 * n
  /\ (forall k : nat, k < n -> stored !! (4 * k + 3) = Some (get_vdelta s))
  /\ (forall j : nat, j mod 4 <> 3 -> stored !! j = _invec !! j)
  /\ (vort s = [] ->
      add_particles _invec s
      = (r <- Points_new stored active lagrangian None ;;
         Returns (with_vort [CPoints (fst r)] (print (snd r) s))))
  /\ (forall pts : Points,
        last (vort s) = Some (CPoints pts) ->
        add_particles _invec s
        = Returns (with_vort
                     (<[length (vort s) - 1
                        := CPoints (ElementBase_add_new stored pts)]> (vort s))
                     (print [OStr "  adding "; OSize n;
                             OStr " particles to collection..."; OEndl] s)))
  /\ add_particles [] s = Returns s.
Proof.
  intros Hlen Hn stored.
  assert (Hslen : length stored = 4 * n).
  { unfold stored. rewrite set_radius_loop_length. exact Hlen. }
  assert (Hne : (length _invec =? 0) = false) by (apply Nat.eqb_neq; lia).
  assert (Hmod : (length _invec mod 4 =? 0) = true).
  { apply Nat.eqb_eq. rewrite Hlen, Nat.mul_comm. apply Nat.Div0.mod_mul. }
  split; [exact Hslen|]. split; [|split; [|split; [|split; [|reflexivity]]]].
  - intros k Hk. unfold stored. rewrite set_radius_loop_lookup by lia.
    case_decide as Hd; [reflexivity|]. exfalso. apply Hd.
    repeat split; try lia.
    replace (4 * k + 3 - 3) with (k * 4) by lia. apply Nat.Div0.mod_mul.
  - intros j Hj. unfold stored. rewrite set_radius_loop_lookup by lia.
    case_decide as Hd; [|reflexivity]. exfalso. destruct Hd as (Ha & _ & Hc).
    apply Hj. replace j with (3 + (j - 3)) by lia.
    rewrite Nat.Div0.add_mod, Hc. reflexivity.
  - intros Hvort. unfold add_particles. rewrite Hne, Hmod. cbn [assert bind].
    fold stored. unfold store_points. rewrite Hvort. cbn [length Nat.eqb].
    destruct (Points_new stored active lagrangian None) as [[p out]| |];
      reflexivity.
  - intros pts Hlast. unfold add_particles. rewrite Hne, Hmod. cbn [assert bind].
    fold stored. unfold store_points. rewrite Hlast.
    destruct (vort s) as [|c l] eqn:Hv; [discriminate|]. cbn [length Nat.eqb].
    unfold Points_add_new. cbn [bind]. rewrite Hslen.
    replace (4 * n / 4) with n; [reflexivity|].
    rewrite Nat.mul_comm, Nat.div_mul; [reflexivity|lia].
Qed.

(** C8. A batch whose length is not a multiple of the stride makes
    [add_particles] (stride 4) and [add_fldpts] (stride [Dimensions]) fail
    their first assertion. A batch that passes it still fails the assertion
    of the [Points] constructor, which asks for a multiple of 7, whenever a
    new collection has to be created and the length is no multiple of 7. *)
Theorem stride_assertions (_invec : list F32.t) (s : Simulation) :
  (length _invec mod 4 <> 0 ->
   add_particles _invec s = Aborts "_invec.size() % 4 == 0")
  /\ (forall _moves : bool,
        length _invec mod Dimensions <> 0 ->
        add_fldpts _invec _moves s = Aborts "_invec.size() % Dimensions == 0")
  /\ (vort s = [] -> length _invec <> 0 ->
      length _invec mod 4 = 0 -> length _invec mod 7 <> 0 ->
      add_particles _invec s = Aborts "_in.size() % 7 == 0")
  /\ (forall _moves : bool,
        fldpt s = [] -> length _invec <> 0 ->
        length _invec mod Dimensions = 0 -> length _invec mod 7 <> 0 ->
        add_fldpts _invec _moves s = Aborts "_in.size() % 7 == 0").
Proof.
  split; [|split; [|split]].
  - intros Hm. unfold add_particles.
    destruct (Nat.eqb_spec (length _invec) 0) as [Hz|_].
    { rewrite Hz in Hm. cbn in Hm. congruence. }
    apply Nat.eqb_neq in Hm. rewrite Hm. reflexivity.
  - intros _moves Hm. unfold add_fldpts.
    destruct (Nat.eqb_spec (length _invec) 0) as [Hz|_].
    { rewrite Hz in Hm. cbn in Hm. congruence. }
    apply Nat.eqb_neq in Hm. rewrite Hm. reflexivity.
  - intros Hv Hne H4 H7. unfold add_particles.
    apply Nat.eqb_neq in Hne. apply Nat.eqb_eq in H4. rewrite Hne, H4.
    cbn [assert bind]. unfold store_points. rewrite Hv. cbn [length Nat.eqb].
    unfold Points_new. cbv zeta. rewrite set_radius_loop_length.
    apply Nat.eqb_neq in H7. rewrite H7. reflexivity.
  - intros _moves Hv Hne H2 H7. unfold add_fldpts.
    apply Nat.eqb_neq in Hne. apply Nat.eqb_eq in H2. rewrite Hne, H2.
    cbn [assert bind]. unfold store_points. rewrite Hv. cbn [length Nat.eqb].
    unfold Points_new. cbv zeta.
    apply Nat.eqb_neq in H7. rewrite H7. reflexivity.
Qed.

(** *** The list of bodies *)

Lemma report_matches_returns (_name : string) (l : list ptr) (s : Simulation) :
  Forall (valid_ptr (heap s)) l ->
  exists s' : Simulation,
    report_matches _name l s = Returns s'
    /\ heap s' = heap s /\ bodies s' = bodies s.
Proof.
  revert s. induction l as [|p l IH]; intros s Hall.
  - exists s. repeat split.
  - inversion Hall as [|? ? Hp Hl]; subst.
    destruct p as [a|]; [|contradiction]. cbn in Hp.
    destruct (lookup_lt_is_Some_2 (heap s) a Hp) as [b Hb].
    cbn [report_matches]. unfold deref. rewrite Hb. cbn [bind].
    destruct (String.eqb (get_name b) _name).
    + destruct (IH (print [OStr "  found body matching name ("; OStr _name;
                           OStr ")"; OEndl] s) Hl) as (s' & Hr & Hh & Hbs).
      exists s'. repeat split; assumption.
    + apply IH. exact Hl.
Qed.

(** C9. Whatever the name, and whether or not a body of that name is in the
    list, [get_pointer_to_body] creates a body named "ground" at rest at
    the origin, appends it to the list of bodies (which grows by one) and
    returns the pointer to it. *)
Theorem get_pointer_to_body_creates_ground (_name : string) (s : Simulation) :
  Forall (valid_ptr (heap s)) (bodies s) ->
  exists s' : Simulation,
    get_pointer_to_body _name s = Returns (Some (length (heap s)), s')
    /\ heap s' = heap s ++ [set_name "ground" (Body_new 0%float 0%float)]
    /\ bodies s' = bodies s ++ [Some (length (heap s))]
    /\ length (bodies s') = length (bodies s) + 1.
Proof.
  intros Hvalid.
  destruct (report_matches_returns _name (bodies s) s Hvalid) as (s1 & Hr & Hh & Hb).
  unfold get_pointer_to_body. cbv zeta. rewrite Hr. cbn [bind].
  rewrite bool_decide_eq_false_2 by (intros [? ?]; discriminate).
  cbn [negb]. unfold make_shared, print. cbn [heap with_cout with_heap].
  unfold deref. rewrite list_lookup_middle by reflexivity. cbn [bind store].
  rewrite insert_app_r_alt by lia. rewrite Nat.sub_diag. cbn [insert list_insert].
  unfold add_body. cbn [heap bodies with_bodies with_heap deref].
  rewrite list_lookup_middle by (rewrite Hh; reflexivity). cbn [bind].
  eexists. split; [rewrite Hh; reflexivity|].
  cbn. rewrite Hb. repeat split. rewrite length_app. reflexivity.
Qed.


End SimulationProperties.

(** ** Further properties of the bodies *)

Section MoreBodyProperties.
Context `{TinyExpr}.

(** X1. Asking for the position twice at the same time gives the same
    vector and leaves the body as the first call left it. *)
Theorem get_pos_idempotent (t : float) (b : Body) :
  get_pos t (snd (get_pos t b)) = (fst (get_pos t b), snd (get_pos t b)).
Proof.
  destruct b as [n p tt0 [p0 p1] v ap av ex [[e0|] [e1|]]]; reflexivity.
Qed.

(** X2. Neither of [get_pos] and [get_vel] changes what the other
    returns, whatever the times they are called at. *)
Theorem get_pos_get_vel_independent (t t' : float) (b : Body) :
  fst (get_pos t (snd (get_vel t' b))) = fst (get_pos t b)
  /\ fst (get_vel t (snd (get_pos t' b))) = fst (get_vel t b).
Proof.
  destruct b as [n p tt0 [p0 p1] [v0 v1] ap av ex [[e0|] [e1|]]];
    split; reflexivity.
Qed.

(** X3. A constant given to a coordinate that has a compiled expression
    is never seen: [get_pos] returns the value of the expression. On a
    coordinate without expression it returns the constant. The other
    coordinate is not affected. *)
Theorem set_pos_then_get_pos (b : Body) (i : nat) (v t : float) :
  i < Dimensions ->
  exists b' : Body,
    set_pos i v b = Returns b'
    /\ pos_func b' = pos_func b
    /\ arr2_get i (fst (get_pos t b'))
       = match arr2_get i (pos_func b) with
         | Some e => te_eval e t
         | None => v
         end
    /\ forall j : nat,
         j < Dimensions -> j <> i ->
         arr2_get j (fst (get_pos t b')) = arr2_get j (fst (get_pos t b)).
Proof.
  intros Hi. unfold Dimensions in Hi.
  unfold set_pos. replace (i <? Dimensions) with true
    by (symmetry; apply Nat.ltb_lt; exact Hi).
  cbn [assert bind]. eexists. split; [reflexivity|].
  destruct b as [n p tt0 [p0 p1] vv ap av ex [[e0|] [e1|]]];
    destruct i as [|[|i]]; try lia;
    (split; [reflexivity|split; [reflexivity|]]);
    intros j Hj Hne; unfold Dimensions in Hj;
    destruct j as [|[|j]]; try lia; try congruence; reflexivity.
Qed.

(** X4. After an expression compiled for a coordinate, [set_pos] prints the
    value of the expression at the body's current time, keeps the text and
    the compiled expression in the slot of that coordinate; from then on
    [get_pos] returns the value of the expression at the requested time and
    [get_vel] the centred difference of the expression over twice the
    step. *)
Theorem set_pos_expr_compiled (b : Body) (i : nat) (expr : string)
  (e : te_expr) (ierr : Z) (t : float) :
  i < Dimensions ->
  te_compile expr = (Some e, ierr) ->
  exists b' : Body,
    set_pos_expr i expr b
      = Returns (b', [OStr "  testing parsed expression, with t=0, value is ";
                      ODouble (te_eval e (this_time b)); OEndl])
    /\ arr2_get i (pos_func b') = Some e
    /\ arr2_get i (pos_expr b') = expr
    /\ arr2_get i (fst (get_pos t b')) = te_eval e t
    /\ arr2_get i (fst (get_vel t b'))
       = ((te_eval e (t + get_vel_dt) - te_eval e (t - get_vel_dt))
          / (2.0 * get_vel_dt))%float.
Proof.
  intros Hi Hc. unfold Dimensions in Hi.
  unfold set_pos_expr. replace (i <? Dimensions) with true
    by (symmetry; apply Nat.ltb_lt; exact Hi).
  cbn [assert bind]. rewrite Hc.
  destruct b as [n p tt0 [p0 p1] [v0 v1] ap av [x0 x1] [f0 f1]].
  destruct i as [|[|i]]; [| |lia].
  - eexists. split; [reflexivity|]. destruct f1; repeat split; reflexivity.
  - eexists. split; [reflexivity|]. destruct f0; repeat split; reflexivity.
Qed.

(** X5. No call of [Body.cpp] changes the orientation or the rotation
    rate: on every body that the constructor and the methods can produce,
    [get_orient] and [get_rotvel] return 0 at every time. *)
Theorem reachable_body_never_rotates (b : Body) (t : float) :
  reachable_body b ->
  get_orient t b = 0%float /\ get_rotvel t b = 0%float.
Proof.
  unfold get_orient, get_rotvel.
  induction 1 as [x y|n b _ IH|n b _ IH|i v b b' _ IH Hs|i e b b' out _ IH Hs
                 |t' b _ IH|t' b _ IH].
  - split; reflexivity.
  - exact IH.
  - exact IH.
  - unfold set_pos in Hs. destruct (i <? Dimensions); cbn in Hs; [|discriminate].
    inversion Hs; subst. exact IH.
  - unfold set_pos_expr in Hs. destruct (i <? Dimensions); cbn [assert bind] in Hs;
      [|discriminate].
    destruct (te_compile e) as [f ierr].
    destruct (arr2_get i _); inversion Hs; subst; exact IH.
  - destruct b as [n p tt0 [p0 p1] vv ap av ex [[e0|] [e1|]]]; exact IH.
  - destruct b as [n p tt0 pp [v0 v1] ap av ex [[e0|] [e1|]]]; exact IH.
Qed.

End MoreBodyProperties.

(** ** Further properties of the orchestrator *)

Section MoreSimulationProperties.
Context `{Kernels}.

(** *** The list of bodies *)

Lemma with_heap_same (s : Simulation) : with_heap (heap s) s = s.
Proof. destruct s; reflexivity. Qed.

Lemma get_last_body_last (s : Simulation) (a : nat) (b : Body) :
  last (bodies s) = Some (Some a) -> heap s !! a = Some b ->
  get_last_body s
  = Returns (Some a, print [OStr "  returning last body ("; OStr (get_name b);
                            OStr ")"; OEndl] s).
Proof.
  intros Hl Hlook. unfold get_last_body.
  destruct (bodies s) as [|p0 l]; [discriminate|].
  cbn [length Nat.eqb]. rewrite Hl. unfold deref. rewrite Hlook. reflexivity.
Qed.

Lemma get_last_body_empty (s : Simulation) :
  bodies s = [] ->
  exists s' : Simulation,
    get_last_body s = Returns (Some (length (heap s)), s')
    /\ bodies s' = [Some (length (heap s))]
    /\ heap s' = heap s ++ [set_name "ground" (Body_new 0%float 0%float)].
Proof.
  intros Hb. unfold get_last_body. rewrite Hb.
  cbn [length Nat.eqb]. cbv zeta. unfold make_shared, print.
  cbn [heap with_cout with_heap]. unfold deref.
  rewrite list_lookup_middle by reflexivity. cbn [bind store].
  rewrite insert_app_r_alt by lia. rewrite Nat.sub_diag. cbn [insert list_insert].
  unfold add_body. cbn [heap bodies with_bodies with_heap deref].
  rewrite list_lookup_middle by reflexivity. cbn [bind].
  eexists. split; [reflexivity|].
  cbn [bodies heap print with_cout]. rewrite Hb. split; reflexivity.
Qed.

(** X6. [get_last_body] creates a body named "ground" only when the list
    of bodies is empty; otherwise it returns the last pointer and leaves
    the list and the bodies alone. Either way a second call returns the
    same pointer and adds nothing. *)
Theorem get_last_body_creates_once (s : Simulation) :
  Forall (valid_ptr (heap s)) (bodies s) ->
  exists (p : ptr) (s' : Simulation),
    get_last_body s = Returns (p, s')
    /\ (bodies s = [] ->
        p = Some (length (heap s)) /\ bodies s' = [p]
        /\ heap s' = heap s ++ [set_name "ground" (Body_new 0%float 0%float)])
    /\ (bodies s <> [] ->
        last (bodies s) = Some p /\ bodies s' = bodies s /\ heap s' = heap s)
    /\ exists s'' : Simulation,
         get_last_body s' = Returns (p, s'')
         /\ bodies s'' = bodies s' /\ heap s'' = heap s'.
Proof.
  intros Hvalid.
  destruct (bodies s) as [|p0 l] eqn:Hb.
  - destruct (get_last_body_empty s Hb) as (s' & Hg & Hbs & Hh).
    exists (Some (length (heap s))), s'. split; [exact Hg|].
    split; [intros _; repeat split; assumption|]. split; [congruence|].
    eexists. split.
    + apply (get_last_body_last s' (length (heap s))
               (set_name "ground" (Body_new 0%float 0%float))).
      * rewrite Hbs. reflexivity.
      * rewrite Hh. apply list_lookup_middle. reflexivity.
    + split; reflexivity.
  - assert (Hlast : exists p, last (bodies s) = Some p /\ valid_ptr (heap s) p).
    { rewrite Hb. destruct (last (p0 :: l)) as [p|] eqn:Hl.
      - exists p. split; [reflexivity|].
        rewrite Forall_forall in Hvalid. apply Hvalid.
        rewrite last_lookup in Hl. apply list_elem_of_lookup. eauto.
      - apply last_None in Hl. discriminate. }
    destruct Hlast as (p & Hl & Hp).
    destruct p as [a|]; [|contradiction]. cbn in Hp.
    destruct (lookup_lt_is_Some_2 (heap s) a Hp) as [b Hlook].
    pose proof (get_last_body_last s a b Hl Hlook) as Hg.
    eexists _, _. split; [exact Hg|].
    split; [discriminate|].
    split; [intros _; rewrite <- Hb; repeat split; exact Hl|].
    eexists. split.
    + apply (get_last_body_last _ a b); [exact Hl|exact Hlook].
    + split; reflexivity.
Qed.

(** *** Stop conditions *)

Lemma body_at_rest_moves (s : Simulation) (a : nat) (b : Body) :
  heap s !! a = Some b -> body_at_rest b ->
  body_moves s (Some a) = Returns (false, s).
Proof.
  intros Hlook (Hf & Hv & Ha). unfold body_moves, deref. rewrite Hlook.
  cbn [bind]. rewrite !get_vel_constant by exact Hf.
  unfold get_rotvel. rewrite Hv, Ha. cbn [arr2_get fst snd store].
  rewrite list_insert_id by exact Hlook. rewrite with_heap_same.
  reflexivity.
Qed.

(** X7. When every body of the list has no compiled expression and is at
    rest, [do_any_bodies_move] answers false and changes nothing. *)
Theorem bodies_at_rest_do_not_move (s : Simulation) :
  bodies_at_rest (heap s) (bodies s) ->
  do_any_bodies_move s = Returns (false, s).
Proof.
  unfold do_any_bodies_move. generalize (bodies s) as l.
  induction l as [|p l IH]; intros Hrest; [reflexivity|].
  inversion Hrest as [|? ? (a & b & -> & Hlook & Hb) Hl]; subst.
  cbn [bodies_move_loop]. rewrite (body_at_rest_moves s a b Hlook Hb).
  cbn [bind]. apply IH. exact Hl.
Qed.

Lemma bodies_move_loop_frame (l : list ptr) (m m' : bool) (s s' : Simulation) :
  bodies_move_loop l m s = Returns (m', s') ->
  diff s' = diff s /\ vort s' = vort s /\ fs s' = fs s.
Proof.
  revert m s. induction l as [|p l IH]; intros m s Hloop.
  - cbn in Hloop. inversion Hloop; subst. repeat split.
  - cbn [bodies_move_loop] in Hloop.
    destruct (body_moves s p) as [[m1 s1]| |] eqn:Hm; cbn [bind] in Hloop;
      try discriminate.
    destruct (IH _ _ Hloop) as (Hd & Hv & Hf).
    unfold body_moves in Hm.
    destruct (deref (heap s) p) as [b| |]; cbn [bind] in Hm; try discriminate.
    destruct (get_vel (time s) b) as [v1 b1].
    destruct (get_vel _ b1) as [v2 b2].
    inversion Hm; subst. rewrite Hd, Hv, Hf. repeat split.
Qed.

(** X8. [check_simulation] never returns two advisories: its text is
    empty or exactly one of the three messages. With particles in the
    simulation the text is empty and nothing is touched. *)
Theorem check_simulation_one_advisory (_nff _nbf : nat) (s : Simulation) :
  (get_nparts s <> 0 -> check_simulation _nff _nbf s = Returns ("", s))
  /\ forall (text : string) (s' : Simulation),
       check_simulation _nff _nbf s = Returns (text, s') ->
       text = "" \/ text = msg_no_features
       \/ text = msg_zero_freestream \/ text = msg_no_diffusion.
Proof.
  split.
  - intros Hn. unfold check_simulation. apply Nat.eqb_neq in Hn. rewrite Hn.
    rewrite !andb_false_r. reflexivity.
  - intros text s' Hc. unfold check_simulation in Hc. cbv zeta in Hc.
    destruct (get_nparts s =? 0); [|rewrite !andb_false_r in Hc;
                                    inversion Hc; left; reflexivity].
    rewrite !andb_true_r in Hc.
    destruct _nbf as [|n]; cbn [Nat.eqb Nat.ltb Nat.leb] in Hc.
    + inversion Hc. right; left. reflexivity.
    + destruct (do_any_bodies_move s) as [[m s1]| |]; cbn [bind] in Hc;
        try discriminate.
      destruct (zero_freestream s && negb m);
        [inversion Hc; right; right; left; reflexivity|].
      destruct (negb (Diffusion_get_diffuse (diff s1))); inversion Hc.
      * right; right; right. reflexivity.
      * left. reflexivity.
Qed.

(** X9. With a boundary feature and no particles, the diffusion advisory is
    the text exactly when diffusion is off and the freestream is not below
    the threshold or some body moves. *)
Theorem check_simulation_no_diffusion (_nff _nbf : nat) (s s' : Simulation)
  (moves : bool) :
  0 < _nbf -> get_nparts s = 0 ->
  do_any_bodies_move s = Returns (moves, s') ->
  (check_simulation _nff _nbf s = Returns (msg_no_diffusion, s')
   <-> (get_diffuse s = false /\ (zero_freestream s = false \/ moves = true))).
Proof.
  intros Hnbf Hn Hmove. unfold check_simulation. cbv zeta.
  rewrite Hn, Hmove. cbn [Nat.eqb bind]. rewrite !andb_true_r.
  destruct _nbf as [|n]; [lia|]. cbn [Nat.eqb Nat.ltb Nat.leb].
  destruct (bodies_move_loop_frame _ _ _ _ _ Hmove) as (Hd & _ & _).
  unfold get_diffuse. rewrite Hd.
  destruct (zero_freestream s), moves, (Diffusion_get_diffuse (diff s));
    cbn;
    (split;
     [intros Hx; first [inversion Hx; fail | split; [reflexivity|]; auto]
     |intros Hx; first [reflexivity | exfalso; intuition discriminate]]).
Qed.

(** *** Steps that fail *)

(** X10. A step in which a pass throws does not advance the clock. When the
    diffusion pass throws, the convection pass is not called: the step ends
    with the exception of the diffusion pass, the diffusion call is the only
    one made, the simulation holds what the diffusion pass left, and the
    convection object and the field points are untouched. When the
    diffusion pass returns, the exception is the one of the convection
    pass, which ran on what the diffusion pass left. *)
Theorem failed_step_keeps_clock (s : Simulation) (e : exn) :
  snd (step s) = Some e ->
  time (fst (step s)) = time s
  /\ forall (d : Diffusion) (v b : list Collection) (m : BEM) (h : list Body)
            (r : option exn),
       Diffusion_step (time s) (dt s) (re s) (get_vdelta s)
         (F32.to_double (arr2_get 0 (fs s)), F32.to_double (arr2_get 1 (fs s)))
         (diff s, vort s, bdry s, bem s, heap s)
       = (d, v, b, m, h, r) ->
       match r with
       | Some e1 =>
           e = e1
           /\ calls (fst (step s))
              = calls s
                  ++ [CallDiffusionStep (time s) (dt s) (re s) (get_vdelta s)
                        (F32.to_double (arr2_get 0 (fs s)),
                         F32.to_double (arr2_get 1 (fs s)))]
           /\ passes (calls (fst (step s))) = passes (calls s) ++ [Diffuse]
           /\ conv (fst (step s)) = conv s
           /\ fldpt (fst (step s)) = fldpt s
           /\ diff (fst (step s)) = d
           /\ vort (fst (step s)) = v
           /\ bdry (fst (step s)) = b
           /\ bem (fst (step s)) = m
           /\ heap (fst (step s)) = h
       | None =>
           snd (advect_2nd (time s) (dt s)
                  (F32.to_double (arr2_get 0 (fs s)),
                   F32.to_double (arr2_get 1 (fs s)))
                  (conv s, v, b, fldpt s, m, h))
           = Some e
           /\ passes (calls (fst (step s)))
              = passes (calls s) ++ [Diffuse; Convect2nd]
       end.
Proof.
  unfold step. cbv zeta.
  destruct (Diffusion_step _ _ _ _ _ _) as [[[[[d v] b] m] h] [e1|]] eqn:Hd.
  - intros He. cbn in He. inversion He; subst e1. cbn. split; [reflexivity|].
    intros d0 v0 b0 m0 h0 r Hr. inversion Hr; subst.
    unfold passes. rewrite omap_app. repeat split; reflexivity.
  - destruct (advect_2nd _ _ _ _) as [[[[[[c v'] b'] f] m'] h'] [e2|]] eqn:Ha;
      cbn; [|discriminate].
    intros He. inversion He; subst e2. split; [reflexivity|].
    intros d0 v0 b0 m0 h0 r Hr. inversion Hr; subst.
    cbn in Ha. rewrite Ha. cbn. split; [reflexivity|].
    unfold passes. rewrite !omap_app, <- app_assoc. reflexivity.
Qed.

(** *** The stepping protocol *)

Lemma reset_releases_future (s : Simulation) :
  stepfuture (snd (reset s)) = FInvalid.
Proof.
  unfold reset, future_get, future_wait.
  destruct (stepfuture s) as [| |r] eqn:Hf; cbn [future_valid].
  - cbn. exact Hf.
  - destruct (worker_finish_pending s Hf) as (Hr & _).
    rewrite !(worker_finish_idle (worker_finish s)) by (rewrite Hr; discriminate).
    rewrite Hr. destruct (snd (step s)); reflexivity.
  - rewrite !(worker_finish_idle s) by (rewrite Hf; discriminate).
    rewrite Hf. destruct r; reflexivity.
Qed.

Lemma stepping_move_consistent (s s' : Simulation) :
  stepping_move s s' -> future_consistent s -> future_consistent s'.
Proof.
  unfold future_consistent.
  intros Hmove Hs. destruct Hmove as [s s' c Ht|s s' Ha|s s' c Hr|s].
  - destruct (step_has_started s) eqn:Hst.
    + destruct (stepfuture s) as [| |r] eqn:Hf.
      * rewrite test_for_new_results_waiting in Ht by (try rewrite Hf; done).
        inversion Ht; subst. rewrite Hf. discriminate.
      * rewrite test_for_new_results_waiting in Ht by (try rewrite Hf; done).
        inversion Ht; subst. intros _. exact Hst.
      * rewrite (test_for_new_results_ready s r Hst Hf) in Ht.
        destruct r; inversion Ht; subst; cbn; discriminate.
    + rewrite test_for_new_results_idle in Ht by exact Hst.
      inversion Ht; subst. intros Hp. specialize (Hs Hp). discriminate Hs.
  - unfold async_step in Ha. cbv zeta in Ha.
    cbn [stepfuture with_step_has_started] in Ha.
    destruct (stepfuture s); inversion Ha; subst; intros _; reflexivity.
  - pose proof (reset_releases_future s) as Hinv. rewrite Hr in Hinv.
    cbn in Hinv. rewrite Hinv. discriminate.
  - destruct (stepfuture s) as [| |r] eqn:Hf.
    + rewrite worker_finish_idle by (rewrite Hf; discriminate).
      intros Hp. congruence.
    + destruct (worker_finish_pending s Hf) as (Hr & _). rewrite Hr. discriminate.
    + rewrite worker_finish_idle by (rewrite Hf; discriminate).
      intros Hp. congruence.
Qed.

Lemma stepping_run_consistent (s s' : Simulation) :
  stepping_run s s' -> future_consistent s -> future_consistent s'.
Proof.
  induction 1 as [s|s s1 s' Hm _ IH]; intros Hs; [exact Hs|].
  apply IH. exact (stepping_move_consistent s s1 Hm Hs).
Qed.

(** X11. Whatever polls, launches, resets and ends of background steps
    came before, a poll that answers true is followed by a launch that
    succeeds: the step it starts is the only one in flight. *)
Theorem poll_true_allows_launch (s0 s s' : Simulation) :
  future_consistent s0 ->
  stepping_run s0 s ->
  test_for_new_results s = (Normal true, s') ->
  stepfuture s' <> FPending
  /\ exists s'' : Simulation,
       async_step s' = Returns s''
       /\ stepfuture s'' = FPending
       /\ launches s'' = launches s' + 1.
Proof.
  intros Hs0 Hrun Ht.
  pose proof (stepping_run_consistent s0 s Hrun Hs0) as Hs.
  assert (Hidle : stepfuture s' <> FPending).
  { destruct (step_has_started s) eqn:Hst.
    - destruct (stepfuture s) as [| |r] eqn:Hf.
      + rewrite test_for_new_results_waiting in Ht by (try rewrite Hf; done).
        discriminate.
      + rewrite test_for_new_results_waiting in Ht by (try rewrite Hf; done).
        discriminate.
      + rewrite (test_for_new_results_ready s r Hst Hf) in Ht.
        destruct r; inversion Ht; subst; cbn; discriminate.
    - rewrite test_for_new_results_idle in Ht by exact Hst.
      inversion Ht; subst. intros Hp. specialize (Hs Hp). congruence. }
  split; [exact Hidle|].
  unfold async_step. cbv zeta. cbn [stepfuture with_step_has_started].
  destruct (stepfuture s') eqn:Hf; [|congruence|];
    (eexists; split; [reflexivity|]; split; [reflexivity|]);
    unfold launches; cbn; rewrite List.filter_app, length_app; reflexivity.
Qed.

(** X12. After [test_for_new_results] has rethrown the exception of a
    step, every later poll answers false and changes nothing, so a caller
    that launches only after a true answer never steps again; [reset]
    returns normally and clears the started flag. *)
Theorem failed_step_blocks_polling (s s' : Simulation) (e : exn) (n : nat) :
  test_for_new_results s = (Raised e, s') ->
  poll_times n s' = (Normal false, s')
  /\ fst (reset s') = Normal tt
  /\ step_has_started (snd (reset s')) = false.
Proof.
  intros Ht.
  assert (Hs' : step_has_started s' = true /\ stepfuture s' = FInvalid).
  { destruct (step_has_started s) eqn:Hst.
    - destruct (stepfuture s) as [| |r] eqn:Hf.
      + rewrite test_for_new_results_waiting in Ht by (try rewrite Hf; done).
        discriminate.
      + rewrite test_for_new_results_waiting in Ht by (try rewrite Hf; done).
        discriminate.
      + rewrite (test_for_new_results_ready s r Hst Hf) in Ht.
        destruct r; inversion Ht; subst. split; [exact Hst|reflexivity].
    - rewrite test_for_new_results_idle in Ht by exact Hst. discriminate. }
  destruct Hs' as [Hst Hf].
  assert (Hpoll : test_for_new_results s' = (Normal false, s')).
  { apply test_for_new_results_waiting; [exact Hst|rewrite Hf; reflexivity]. }
  split; [|split].
  - induction n as [|n IH]; cbn [poll_times]; [exact Hpoll|].
    rewrite Hpoll. exact IH.
  - unfold reset. rewrite Hf. reflexivity.
  - unfold reset. rewrite Hf. reflexivity.
Qed.

(** *** Boundary lists built by [add_boundary] *)

Lemma panel_set_matches (_bptr : ptr) (coll : Collection) :
  panel_set_for coll ->
  (matches _bptr coll = true <-> get_body_ptr coll = _bptr).
Proof.
  intros (surf & -> & HE & HM). unfold matches. cbn [get_elemt get_movet get_body_ptr].
  rewrite HE, HM. rewrite (bool_decide_eq_true_2 (reactive = reactive)) by reflexivity.
  cbn [andb]. destruct _bptr as [a|], (sB surf) as [a'|]; cbn.
  - rewrite andb_true_l. rewrite bool_decide_eq_true. reflexivity.
  - split; intros Hx; discriminate.
  - split; intros Hx; discriminate.
  - split; reflexivity.
Qed.

Lemma merge_geometry_panel_set (_geom : ElementPacket) (coll : Collection) :
  panel_set_for coll ->
  panel_set_for (merge_geometry _geom coll)
  /\ get_body_ptr (merge_geometry _geom coll) = get_body_ptr coll.
Proof.
  intros (surf & -> & HE & HM). cbn. split; [|reflexivity].
  eexists. split; [reflexivity|]. cbn. split; assumption.
Qed.

Lemma add_boundary_keeps_distinct (_bptr : ptr) (_geom : ElementPacket)
  (s : Simulation) :
  boundaries_distinct (bdry s) ->
  boundaries_distinct (bdry (add_boundary _bptr _geom s)).
Proof.
  intros [Hall Hdist].
  destruct (decide (Exists (fun c => matches _bptr c = true) (bdry s))) as [He|He].
  - apply Exists_exists in He. destruct He as (c & Hin & Hc).
    apply list_elem_of_lookup in Hin. destruct Hin as [i Hi].
    destruct (last_match_exists _bptr (bdry s) i c Hi Hc)
      as (k & ck & _ & Hk & Hmk & Hlast).
    rewrite (add_boundary_last_match _bptr _geom s k ck Hk Hmk Hlast).
    assert (Hck : panel_set_for ck).
    { rewrite Forall_forall in Hall. apply Hall, list_elem_of_lookup. eauto. }
    destruct (merge_geometry_panel_set _geom ck Hck) as [Hps Hptr].
    assert (Hsame : forall (j : nat) (cj : Collection),
               <[k := merge_geometry _geom ck]> (bdry s) !! j = Some cj ->
               exists c0, bdry s !! j = Some c0
                          /\ get_body_ptr c0 = get_body_ptr cj).
    { intros j cj Hj. destruct (decide (j = k)) as [->|Hne].
      - rewrite list_lookup_insert_eq in Hj by (eapply lookup_lt_Some; eauto).
        inversion Hj; subst cj. exists ck. split; [exact Hk|congruence].
      - rewrite list_lookup_insert_ne in Hj by congruence. eauto. }
    split.
    + apply Forall_insert; assumption.
    + intros i' j' ci cj Hi' Hj' Heq.
      destruct (Hsame i' ci Hi') as (c1 & H1 & E1).
      destruct (Hsame j' cj Hj') as (c2 & H2 & E2).
      apply (Hdist i' j' c1 c2 H1 H2). congruence.
  - assert (Hnone : forall (k : nat) (c : Collection),
               bdry s !! k = Some c -> matches _bptr c = false).
    { intros k c Hk. destruct (matches _bptr c) eqn:Hm; [|reflexivity].
      exfalso. apply He, Exists_exists. exists c.
      split; [apply list_elem_of_lookup; eauto|exact Hm]. }
    rewrite (add_boundary_no_match _bptr _geom s Hnone).
    assert (Hnew : panel_set_for (new_collection _bptr _geom)).
    { eexists. split; [reflexivity|]. split; reflexivity. }
    assert (Hfresh : forall (i : nat) (ci : Collection),
               bdry s !! i = Some ci -> get_body_ptr ci <> _bptr).
    { intros i ci Hi Heq.
      assert (Hci : panel_set_for ci).
      { rewrite Forall_forall in Hall. apply Hall, list_elem_of_lookup. eauto. }
      apply (panel_set_matches _bptr ci Hci) in Heq.
      rewrite (Hnone i ci Hi) in Heq. discriminate. }
    split.
    + apply Forall_app. split; [exact Hall|]. constructor; [exact Hnew|constructor].
    + intros i j ci cj Hi Hj Heq.
      apply lookup_app_Some in Hi as [Hi|[Hil Hi]];
        apply lookup_app_Some in Hj as [Hj|[Hjl Hj]].
      * exact (Hdist i j ci cj Hi Hj Heq).
      * destruct (j - length (bdry s)) as [|d] eqn:Hd; [|discriminate].
        cbn in Hj. inversion Hj; subst cj. exfalso.
        exact (Hfresh i ci Hi Heq).
      * destruct (i - length (bdry s)) as [|d] eqn:Hd; [|discriminate].
        cbn in Hi. inversion Hi; subst ci. exfalso.
        apply (Hfresh j cj Hj). symmetry. exact Heq.
      * destruct (i - length (bdry s)) as [|d] eqn:Hd; [|discriminate].
        destruct (j - length (bdry s)) as [|d'] eqn:Hd'; [|discriminate].
        lia.
Qed.

Lemma add_boundaries_keeps_distinct (l : list (ptr * ElementPacket))
  (s : Simulation) :
  boundaries_distinct (bdry s) ->
  boundaries_distinct (bdry (add_boundaries l s)).
Proof.
  revert s. induction l as [|[bp g] l IH]; intros s Hs; [exact Hs|].
  unfold add_boundaries. cbn [foldl fst snd]. apply IH.
  apply add_boundary_keeps_distinct. exact Hs.
Qed.

(** X13. Starting from an empty boundary list, after any series of
    [add_boundary] calls every boundary collection is a reactive panel set,
    no two have the same body reference, and for every body pointer at most
    one collection satisfies the matching rule. *)
Theorem add_boundaries_at_most_one_match (l : list (ptr * ElementPacket))
  (s : Simulation) :
  bdry s = [] ->
  boundaries_distinct (bdry (add_boundaries l s))
  /\ forall (_bptr : ptr) (i j : nat) (ci cj : Collection),
       bdry (add_boundaries l s) !! i = Some ci ->
       bdry (add_boundaries l s) !! j = Some cj ->
       matches _bptr ci = true -> matches _bptr cj = true ->
       i = j.
Proof.
  intros Hempty.
  assert (Hinit : boundaries_distinct (bdry s)).
  { rewrite Hempty. split; [constructor|]. intros i j ci cj Hi. discriminate. }
  pose proof (add_boundaries_keeps_distinct l s Hinit) as Hd.
  split; [exact Hd|].
  destruct Hd as [Hall Hdist].
  intros bp i j ci cj Hi Hj Hmi Hmj.
  rewrite Forall_forall in Hall.
  assert (Hci : panel_set_for ci) by (apply Hall, list_elem_of_lookup; eauto).
  assert (Hcj : panel_set_for cj) by (apply Hall, list_elem_of_lookup; eauto).
  apply (panel_set_matches bp ci Hci) in Hmi.
  apply (panel_set_matches bp cj Hcj) in Hmj.
  apply (Hdist i j ci cj Hi Hj). congruence.
Qed.

Lemma npanels_foldl_acc (l : list Collection) (a : nat) :
  foldl (fun n coll =>
           match coll with
           | CSurfaces surf => n + Surfaces_get_npanels surf
           | CPoints _ => n
           end) a l
  = a + foldl (fun n coll =>
                 match coll with
                 | CSurfaces surf => n + Surfaces_get_npanels surf
                 | CPoints _ => n
                 end) 0 l.
Proof.
  revert a. induction l as [|c l IH]; intros a; cbn [foldl]; [lia|].
  rewrite IH. rewrite (IH (match c with CSurfaces surf => _ | CPoints _ => _ end)).
  destruct c; lia.
Qed.

Lemma get_npanels_add_boundary (_bptr : ptr) (_geom : ElementPacket)
  (s : Simulation) :
  Forall panel_set_for (bdry s) ->
  get_npanels (add_boundary _bptr _geom s) = get_npanels s + length (idx _geom).
Proof.
  intros Hall. unfold get_npanels.
  destruct (decide (Exists (fun c => matches _bptr c = true) (bdry s))) as [He|He].
  - apply Exists_exists in He. destruct He as (c & Hin & Hc).
    apply list_elem_of_lookup in Hin. destruct Hin as [i Hi].
    destruct (last_match_exists _bptr (bdry s) i c Hi Hc)
      as (k & ck & _ & Hk & Hmk & Hlast).
    rewrite (add_boundary_last_match _bptr _geom s k ck Hk Hmk Hlast).
    assert (Hck : panel_set_for ck).
    { rewrite Forall_forall in Hall. apply Hall, list_elem_of_lookup. eauto. }
    destruct Hck as (surf & -> & _ & _).
    rewrite insert_take_drop by (eapply lookup_lt_Some; eauto).
    rewrite <- (take_drop_middle (bdry s) k (CSurfaces surf) Hk) at 3.
    rewrite !foldl_app. cbn [foldl merge_geometry].
    rewrite npanels_foldl_acc.
    rewrite (npanels_foldl_acc (drop (S k) (bdry s)) (_ + Surfaces_get_npanels surf)).
    unfold Surfaces_get_npanels, Surfaces_add_new. cbn [sidx].
    rewrite length_app, length_map. lia.
  - assert (Hnone : forall (k : nat) (c : Collection),
               bdry s !! k = Some c -> matches _bptr c = false).
    { intros k c Hk. destruct (matches _bptr c) eqn:Hm; [|reflexivity].
      exfalso. apply He, Exists_exists. exists c.
      split; [apply list_elem_of_lookup; eauto|exact Hm]. }
    rewrite (add_boundary_no_match _bptr _geom s Hnone).
    rewrite foldl_app. reflexivity.
Qed.

Lemma distinct_unique_match (_bptr : ptr) (l : list Collection) (i j : nat)
  (ci cj : Collection) :
  boundaries_distinct l ->
  l !! i = Some ci -> l !! j = Some cj ->
  matches _bptr ci = true -> matches _bptr cj = true -> i = j.
Proof.
  intros [Hall Hdist] Hi Hj Hmi Hmj.
  rewrite Forall_forall in Hall.
  assert (Hci : panel_set_for ci) by (apply Hall, list_elem_of_lookup; eauto).
  assert (Hcj : panel_set_for cj) by (apply Hall, list_elem_of_lookup; eauto).
  apply (panel_set_matches _bptr ci Hci) in Hmi.
  apply (panel_set_matches _bptr cj Hcj) in Hmj.
  apply (Hdist i j ci cj Hi Hj). congruence.
Qed.

(** On a list built by [add_boundary] the matching collection, being the
    only one, is the one the search loop ends on. *)
Lemma add_boundary_match (_bptr : ptr) (_geom : ElementPacket) (s : Simulation)
  (i : nat) (coll : Collection) :
  boundaries_distinct (bdry s) ->
  bdry s !! i = Some coll -> matches _bptr coll = true ->
  bdry (add_boundary _bptr _geom s) = <[i := merge_geometry _geom coll]> (bdry s).
Proof.
  intros Hd Hi Hm.
  apply (add_boundary_last_match _bptr _geom s i coll Hi Hm).
  intros j c Hlt Hj. destruct (matches _bptr c) eqn:Hc; [|reflexivity].
  exfalso.
  pose proof (distinct_unique_match _bptr _ i j coll c Hd Hi Hj Hm Hc). lia.
Qed.

Lemma match_or_none (_bptr : ptr) (l : list Collection) :
  (exists (i : nat) (c : Collection), l !! i = Some c /\ matches _bptr c = true)
  \/ (forall (i : nat) (c : Collection), l !! i = Some c -> matches _bptr c = false).
Proof.
  destruct (decide (Exists (fun c => matches _bptr c = true) l)) as [He|He].
  - left. apply Exists_exists in He. destruct He as (c & Hin & Hc).
    apply list_elem_of_lookup in Hin. destruct Hin as [i Hi]. eauto.
  - right. intros i c Hi. destruct (matches _bptr c) eqn:Hm; [|reflexivity].
    exfalso. apply He, Exists_exists. exists c.
    split; [apply list_elem_of_lookup; eauto|exact Hm].
Qed.

Lemma matches_new_collection (_bptr : ptr) (_geom : ElementPacket) :
  matches _bptr (new_collection _bptr _geom) = true.
Proof.
  unfold matches, new_collection. cbn [get_elemt get_movet get_body_ptr sE sM sB Surfaces_new].
  destruct _bptr as [a|]; repeat case_bool_decide; try reflexivity; congruence.
Qed.

Lemma matches_other_body (b1 b2 : nat) (_geom : ElementPacket) :
  b1 <> b2 -> matches (Some b2) (new_collection (Some b1) _geom) = false.
Proof.
  intros Hne. unfold matches, new_collection.
  cbn [get_elemt get_movet get_body_ptr sE sM sB Surfaces_new].
  rewrite (bool_decide_eq_false_2 (Some b1 = Some b2)) by congruence.
  apply andb_false_r.
Qed.

(** [add_boundary] keeps every collection in its place, with its body. *)
Lemma add_boundary_keeps_body (_bptr : ptr) (_geom : ElementPacket)
  (s : Simulation) (k : nat) (c : Collection) :
  boundaries_distinct (bdry s) ->
  bdry s !! k = Some c ->
  exists c' : Collection,
    bdry (add_boundary _bptr _geom s) !! k = Some c'
    /\ get_body_ptr c' = get_body_ptr c.
Proof.
  intros Hd Hk.
  destruct (match_or_none _bptr (bdry s)) as [(i & ci & Hi & Hm)|Hnone].
  - rewrite (add_boundary_match _bptr _geom s i ci Hd Hi Hm).
    destruct (decide (k = i)) as [->|Hne].
    + rewrite list_lookup_insert_eq by (eapply lookup_lt_Some; eauto).
      assert (c = ci) by congruence. subst ci.
      exists (merge_geometry _geom c). split; [reflexivity|].
      destruct c; reflexivity.
    + rewrite list_lookup_insert_ne by congruence. eauto.
  - rewrite (add_boundary_no_match _bptr _geom s Hnone).
    exists c. split; [|reflexivity].
    apply lookup_app_l_Some. exact Hk.
Qed.

(** After [add_boundary] some collection has the body of the insertion. *)
Lemma add_boundary_has_body (_bptr : ptr) (_geom : ElementPacket)
  (s : Simulation) :
  boundaries_distinct (bdry s) ->
  exists (k : nat) (c : Collection),
    bdry (add_boundary _bptr _geom s) !! k = Some c
    /\ get_body_ptr c = _bptr.
Proof.
  intros Hd.
  destruct (match_or_none _bptr (bdry s)) as [(i & ci & Hi & Hm)|Hnone].
  - rewrite (add_boundary_match _bptr _geom s i ci Hd Hi Hm).
    exists i, (merge_geometry _geom ci). split.
    + apply list_lookup_insert_eq. eapply lookup_lt_Some; eauto.
    + assert (Hci : panel_set_for ci).
      { destruct Hd as [Hall _]. rewrite Forall_forall in Hall.
        apply Hall, list_elem_of_lookup. eauto. }
      apply (panel_set_matches _bptr ci Hci) in Hm.
      destruct ci; exact Hm.
  - rewrite (add_boundary_no_match _bptr _geom s Hnone).
    exists (length (bdry s)), (new_collection _bptr _geom). split.
    + apply list_lookup_middle. reflexivity.
    + reflexivity.
Qed.

(** C1. On every boundary list the simulation can hold, that is, built from
    the empty list by calls of [add_boundary], a call
    [add_boundary(_bptr, _geom)] merges the geometry into an existing
    collection when, and only when, that collection is a reactive one of
    the motion kind of the insertion (body-bound with a body pointer, fixed
    without) and, when body-bound, of the same body: a collection that
    satisfies the rule is a panel set and takes the geometry through
    [add_new], every other collection is left as it is, and when none
    satisfies the rule a new collection is appended. The first collection
    in list order that satisfies the rule receives the geometry; no two
    collections satisfy it at once. Two body-bound insertions with
    different bodies leave two distinct collections, one for each body (two
    new ones, in the order of the calls, when neither body had one). Two
    insertions with the same body reference leave exactly one collection
    of that body; when the body had none it is one new collection whose
    panel count is the sum of the panel counts of the two packets, and in
    every case the panel count of the simulation grows by that sum. *)
Theorem add_boundary_first_match_wins (l : list (ptr * ElementPacket))
  (s0 s : Simulation) (_bptr : ptr) (_geom : ElementPacket) :
  bdry s0 = [] ->
  s = add_boundaries l s0 ->
  (forall (i : nat) (coll : Collection),
      bdry s !! i = Some coll -> matches _bptr coll = true ->
      exists surf : Surfaces,
        coll = CSurfaces surf
        /\ bdry (add_boundary _bptr _geom s)
           = <[i := CSurfaces (Surfaces_add_new (x _geom) (idx _geom) (val _geom) surf)]>
               (bdry s))
  /\ (forall (i : nat) (coll : Collection),
        bdry s !! i = Some coll -> matches _bptr coll = false ->
        bdry (add_boundary _bptr _geom s) !! i = Some coll)
  /\ ((forall (i : nat) (coll : Collection),
          bdry s !! i = Some coll -> matches _bptr coll = false) ->
      bdry (add_boundary _bptr _geom s) = bdry s ++ [new_collection _bptr _geom])
  /\ ((exists (i : nat) (coll : Collection),
          bdry s !! i = Some coll /\ matches _bptr coll = true) ->
      length (bdry (add_boundary _bptr _geom s)) = length (bdry s))
  /\ first_match_receives _bptr _geom s
  /\ (forall (i j : nat) (ci cj : Collection),
        bdry s !! i = Some ci -> bdry s !! j = Some cj ->
        matches _bptr ci = true -> matches _bptr cj = true -> i = j)
  /\ (forall (b1 b2 : nat) (g1 g2 : ElementPacket),
        b1 <> b2 ->
        (exists (k1 k2 : nat) (c1 c2 : Collection),
            k1 <> k2
            /\ bdry (add_boundary (Some b2) g2 (add_boundary (Some b1) g1 s)) !! k1
               = Some c1
            /\ bdry (add_boundary (Some b2) g2 (add_boundary (Some b1) g1 s)) !! k2
               = Some c2
            /\ get_body_ptr c1 = Some b1 /\ get_body_ptr c2 = Some b2)
        /\ ((forall (i : nat) (coll : Collection),
                bdry s !! i = Some coll ->
                matches (Some b1) coll = false /\ matches (Some b2) coll = false) ->
            bdry (add_boundary (Some b2) g2 (add_boundary (Some b1) g1 s))
            = bdry s ++ [new_collection (Some b1) g1; new_collection (Some b2) g2]))
  /\ (forall (bp : ptr) (g1 g2 : ElementPacket),
        (exists (k : nat) (c : Collection),
            bdry (add_boundary bp g2 (add_boundary bp g1 s)) !! k = Some c
            /\ get_body_ptr c = bp
            /\ forall (j : nat) (cj : Collection),
                 bdry (add_boundary bp g2 (add_boundary bp g1 s)) !! j = Some cj ->
                 get_body_ptr cj = bp -> j = k)
        /\ ((forall (i : nat) (coll : Collection),
                bdry s !! i = Some coll -> matches bp coll = false) ->
            exists surf : Surfaces,
              bdry (add_boundary bp g2 (add_boundary bp g1 s))
              = bdry s ++ [CSurfaces surf]
              /\ sB surf = bp
              /\ Surfaces_get_npanels surf = length (idx g1) + length (idx g2))
        /\ get_npanels (add_boundary bp g2 (add_boundary bp g1 s))
           = get_npanels s + (length (idx g1) + length (idx g2))).
Proof.
  intros Hempty ->.
  assert (Hinit : boundaries_distinct (bdry s0)).
  { rewrite Hempty. split; [constructor|]. intros i j ci cj Hi. discriminate. }
  pose proof (add_boundaries_keeps_distinct l s0 Hinit) as Hd.
  set (s := add_boundaries l s0) in *. clearbody s. clear Hinit Hempty l s0.
  assert (Hps : forall (i : nat) (c : Collection),
             bdry s !! i = Some c -> panel_set_for c).
  { intros i c Hi. destruct Hd as [Hall _]. rewrite Forall_forall in Hall.
    apply Hall, list_elem_of_lookup. eauto. }
  assert (Hmerge : forall (i : nat) (coll : Collection),
             bdry s !! i = Some coll -> matches _bptr coll = true ->
             bdry (add_boundary _bptr _geom s)
             = <[i := merge_geometry _geom coll]> (bdry s)).
  { intros i coll. apply add_boundary_match. exact Hd. }
  split; [|split; [|split; [|split; [|split; [|split; [|split]]]]]].
  - intros i coll Hi Hm. destruct (Hps i coll Hi) as (surf & -> & _).
    exists surf. split; [reflexivity|]. exact (Hmerge i _ Hi Hm).
  - intros i coll Hi Hm.
    destruct (match_or_none _bptr (bdry s)) as [(k & ck & Hk & Hmk)|Hnone].
    + rewrite (Hmerge k ck Hk Hmk).
      rewrite list_lookup_insert_ne; [exact Hi|].
      intros ->. congruence.
    + rewrite (add_boundary_no_match _bptr _geom s Hnone).
      apply lookup_app_l_Some. exact Hi.
  - apply add_boundary_no_match.
  - intros (i & coll & Hi & Hm). rewrite (Hmerge i coll Hi Hm).
    apply length_insert.
  - intros i coll Hi Hm _. exact (Hmerge i coll Hi Hm).
  - intros i j ci cj. apply distinct_unique_match. exact Hd.
  - intros b1 b2 g1 g2 Hne. split.
    + pose proof (add_boundary_keeps_distinct (Some b1) g1 s Hd) as Hd1.
      destruct (add_boundary_has_body (Some b1) g1 s Hd) as (k1 & c1 & Hk1 & Hb1).
      destruct (add_boundary_keeps_body (Some b2) g2 _ k1 c1 Hd1 Hk1)
        as (c1' & Hk1' & Hb1').
      destruct (add_boundary_has_body (Some b2) g2 _ Hd1) as (k2 & c2 & Hk2 & Hb2).
      exists k1, k2, c1', c2. repeat split; try assumption; [|congruence].
      intros ->. rewrite Hk1' in Hk2. inversion Hk2; subst c2. congruence.
    + intros Hnone.
      assert (H1 : bdry (add_boundary (Some b1) g1 s)
                   = bdry s ++ [new_collection (Some b1) g1]).
      { apply add_boundary_no_match. intros i c Hi. apply (Hnone i c Hi). }
      rewrite add_boundary_no_match; rewrite H1.
      * rewrite <- app_assoc. reflexivity.
      * intros i c Hi. apply lookup_app_Some in Hi as [Hi|[_ Hi]].
        -- apply (Hnone i c Hi).
        -- destruct (i - length (bdry s)) as [|d]; [|discriminate].
           cbn in Hi. inversion Hi; subst c.
           apply matches_other_body. exact Hne.
  - intros bp g1 g2.
    pose proof (add_boundary_keeps_distinct bp g1 s Hd) as Hd1.
    pose proof (add_boundary_keeps_distinct bp g2 _ Hd1) as Hd2.
    split; [|split].
    + destruct (add_boundary_has_body bp g2 _ Hd1) as (k & c & Hk & Hb).
      exists k, c. split; [exact Hk|]. split; [exact Hb|].
      intros j cj Hj Hbj. destruct Hd2 as [_ Hdist].
      apply (Hdist j k cj c Hj Hk). congruence.
    + intros Hnone.
      assert (H1 : bdry (add_boundary bp g1 s) = bdry s ++ [new_collection bp g1]).
      { apply add_boundary_no_match. exact Hnone. }
      assert (Hat : bdry (add_boundary bp g1 s) !! length (bdry s)
                    = Some (new_collection bp g1)).
      { rewrite H1. apply list_lookup_middle. reflexivity. }
      rewrite (add_boundary_match bp g2 _ _ _ Hd1 Hat (matches_new_collection bp g1)).
      rewrite H1.
      rewrite insert_app_r_alt by lia. rewrite Nat.sub_diag. cbn [insert list_insert].
      eexists. split; [reflexivity|]. split; [reflexivity|].
      unfold Surfaces_get_npanels, Surfaces_add_new. cbn [sidx Surfaces_new].
      rewrite length_app, length_map. reflexivity.
    + rewrite get_npanels_add_boundary by (apply Hd1).
      rewrite get_npanels_add_boundary by (apply Hd). lia.
Qed.

(** X14. Starting from an empty boundary list, the panel count after a
    series of [add_boundary] calls is the sum of the panel counts of the
    packets, whichever collections they went to. *)
Theorem get_npanels_add_boundaries (l : list (ptr * ElementPacket))
  (s : Simulation) :
  bdry s = [] ->
  get_npanels (add_boundaries l s)
  = sum_list (map (fun bg => length (idx (snd bg))) l).
Proof.
  intros Hempty.
  assert (Hgen : forall (l : list (ptr * ElementPacket)) (s : Simulation),
             boundaries_distinct (bdry s) ->
             get_npanels (add_boundaries l s)
             = get_npanels s + sum_list (map (fun bg => length (idx (snd bg))) l)).
  { clear. induction l as [|[bp g] l IH]; intros s Hs.
    - cbn. lia.
    - unfold add_boundaries. cbn [foldl fst snd map sum_list].
      fold (add_boundaries l (add_boundary bp g s)).
      rewrite IH by (apply add_boundary_keeps_distinct; exact Hs).
      rewrite get_npanels_add_boundary by (apply Hs). cbn. lia. }
  rewrite Hgen.
  - unfold get_npanels. rewrite Hempty. reflexivity.
  - rewrite Hempty. split; [constructor|]. intros i j ci cj Hi. discriminate.
Qed.

(** *** First batches *)

Lemma gather_returns (f : nat -> nat) (v : list F32.t) (l : list nat) :
  Forall (fun i => f i < length v) l ->
  exists ys : list F32.t, gather f v l = Returns ys /\ length ys = length l.
Proof.
  induction l as [|i l IH]; intros Hall.
  - exists []. split; reflexivity.
  - inversion Hall as [|? ? Hi Hl]; subst.
    destruct (IH Hl) as (ys & Hg & Hlen).
    destruct (lookup_lt_is_Some_2 v (f i) Hi) as [y Hy].
    exists (y :: ys). cbn [gather]. unfold vec_at. rewrite Hy. cbn [bind].
    rewrite Hg. cbn [bind]. split; [reflexivity|]. cbn. rewrite Hlen. reflexivity.
Qed.

Lemma Points_new_inert (_in : list F32.t) (_m : move_t) (_bp : ptr) :
  length _in mod 7 = 0 ->
  exists (p : Points) (out : list out_item),
    Points_new _in inert _m _bp = Returns (p, out)
    /\ pn p = length _in / 4 /\ pE p = inert /\ pM p = _m /\ pB p = _bp
    /\ ps p = None /\ length (pr p) = length _in / 4.
Proof.
  intros H7. unfold Points_new. cbv zeta.
  apply Nat.eqb_eq in H7. rewrite H7. cbn [assert bind].
  assert (Hrange : forall d : nat, d < 4 ->
             Forall (fun i => 4 * i + d < length _in) (seq 0 (length _in / 4))).
  { intros d Hd. apply Forall_forall. intros i Hi. apply elem_of_seq in Hi.
    pose proof (Nat.Div0.mul_div_le (length _in) 4). lia. }
  destruct (gather_returns (fun i => 4 * i + 0) _in _ (Hrange 0 ltac:(lia)))
    as (x0 & -> & _).
  destruct (gather_returns (fun i => 4 * i + 1) _in _ (Hrange 1 ltac:(lia)))
    as (x1 & -> & _).
  destruct (gather_returns (fun i => 4 * i + 3) _in _ (Hrange 3 ltac:(lia)))
    as (r & -> & Hr).
  cbn [bind]. rewrite (bool_decide_eq_false_2 (inert <> inert)) by (intros Hx; congruence).
  cbn [bind]. eexists _, _. split; [reflexivity|]. cbn.
  rewrite Hr, length_seq. repeat split.
Qed.

(** X16. Into an empty list of field points, a non-empty batch is stored
    exactly when its length is a multiple of 14 (the stride 2 asserted by
    [add_fldpts] and the 7 asserted by the constructor); the collection
    then counts a quarter of the values as points, not half, and has no
    strengths. *)
Theorem add_fldpts_first_batch (_invec : list F32.t) (_moves : bool)
  (s : Simulation) :
  fldpt s = [] -> length _invec <> 0 ->
  ((exists s' : Simulation, add_fldpts _invec _moves s = Returns s')
   <-> length _invec mod 14 = 0)
  /\ forall s' : Simulation,
       add_fldpts _invec _moves s = Returns s' ->
       exists p : Points,
         fldpt s' = [CPoints p]
         /\ pn p = length _invec / 4
         /\ pE p = inert
         /\ pM p = (if _moves then lagrangian else fixed)
         /\ ps p = None.
Proof.
  intros Hempty Hne.
  assert (Hne' : (length _invec =? 0) = false) by (apply Nat.eqb_neq; exact Hne).
  assert (H14 : length _invec mod 14 = 0
                <-> length _invec mod 2 = 0 /\ length _invec mod 7 = 0).
  { pose proof (Nat.div_mod_eq (length _invec) 14).
    pose proof (Nat.div_mod_eq (length _invec) 2).
    pose proof (Nat.div_mod_eq (length _invec) 7).
    pose proof (Nat.mod_upper_bound (length _invec) 14 ltac:(lia)).
    pose proof (Nat.mod_upper_bound (length _invec) 2 ltac:(lia)).
    pose proof (Nat.mod_upper_bound (length _invec) 7 ltac:(lia)).
    lia. }
  unfold add_fldpts. rewrite Hne'. unfold store_points. rewrite Hempty.
  cbn [length Nat.eqb]. change Dimensions with 2.
  destruct (Nat.eqb_spec (length _invec mod 2) 0) as [H2|H2]; cbn [assert bind].
  - destruct (Nat.eqb_spec (length _invec mod 7) 0) as [H7|H7].
    + destruct (Points_new_inert _invec (if _moves then lagrangian else fixed)
                  None H7) as (p & out & Hnew & Hn & HE & HM & _ & Hs & _).
      rewrite Hnew. cbn [bind]. split.
      * split; [intros _; apply H14; split; assumption|intros _; eauto].
      * intros s' Hs'. inversion Hs'; subst s'. exists p.
        cbn. repeat split; assumption.
    + unfold Points_new. cbv zeta. apply Nat.eqb_neq in H7. rewrite H7.
      cbn [assert bind]. apply Nat.eqb_neq in H7. split.
      * split; [intros [s' Hs']; discriminate|intros Hx; apply H14 in Hx; tauto].
      * intros s' Hs'. discriminate.
  - split.
    + split; [intros [s' Hs']; discriminate|intros Hx; apply H14 in Hx; tauto].
    + intros s' Hs'. discriminate.
Qed.

Lemma gather_out_of_range (f : nat -> nat) (v : list F32.t) (l : list nat) :
  Exists (fun i => length v <= f i) l ->
  gather f v l = Undefined "vector read out of range".
Proof.
  induction l as [|i l IH]; intros Hex; [inversion Hex|].
  cbn [gather]. unfold vec_at.
  destruct (v !! f i) as [y|] eqn:Hy; cbn [bind]; [|reflexivity].
  inversion Hex as [? ? Hi|? ? Hl]; subst.
  - apply lookup_lt_Some in Hy. lia.
  - rewrite (IH Hl). reflexivity.
Qed.

(** The constructor on a non-empty batch of whole particles for an active
    collection: the positions and radii are read in range, and the first
    strength loop reads [_in[7*i+3]] past the end of the batch. *)
Lemma Points_new_active_out_of_range (_in : list F32.t) (_m : move_t)
  (_bp : ptr) :
  length _in <> 0 -> length _in mod 4 = 0 -> length _in mod 7 = 0 ->
  Points_new _in active _m _bp = Undefined "vector read out of range".
Proof.
  intros Hne H4 H7. unfold Points_new. cbv zeta.
  apply Nat.eqb_eq in H7. rewrite H7. apply Nat.eqb_eq in H7. cbn [assert bind].
  set (n := length _in / 4).
  assert (Hlen : length _in = 4 * n).
  { unfold n. apply Nat.Div0.div_exact. exact H4. }
  assert (Hrange : forall d : nat, d < 4 ->
             Forall (fun i => 4 * i + d < length _in) (seq 0 n)).
  { intros d Hd. apply Forall_forall. intros i Hi. apply elem_of_seq in Hi. lia. }
  destruct (gather_returns (fun i => 4 * i + 0) _in _ (Hrange 0 ltac:(lia)))
    as (x0 & -> & _).
  destruct (gather_returns (fun i => 4 * i + 1) _in _ (Hrange 1 ltac:(lia)))
    as (x1 & -> & _).
  destruct (gather_returns (fun i => 4 * i + 3) _in _ (Hrange 3 ltac:(lia)))
    as (r & -> & _).
  cbn [bind].
  rewrite (bool_decide_eq_true_2 (active <> inert)) by (intros Hx; discriminate Hx).
  rewrite (gather_out_of_range (fun i => 7 * i + 0 + 3) _in (seq 0 n));
    [reflexivity|].
  apply Exists_exists. exists (n - 1).
  assert (Hn : 2 <= n).
  { destruct n as [|[|n']]; [lia| |lia].
    rewrite Hlen in H7. cbn in H7. discriminate H7. }
  split; [apply elem_of_seq; lia|lia].
Qed.

(** X15. The first non-empty batch given to [add_particles], when no vortex
    collection exists yet, has one of three outcomes, by its length alone:
    not a multiple of 4, the assertion of [add_particles] fails; a multiple
    of 4 but not of 7, the assertion of the [Points] constructor fails; a
    multiple of both (of 28), both assertions pass, the positions and radii
    are read in range, and the strength loop of the constructor reads
    [_in[7*i+3]] at an index past the end of the batch, which is undefined
    behaviour (an out-of-range read: the program may go on and store the
    collection with whatever it read). *)
Theorem add_particles_first_batch_outcome (_invec : list F32.t)
  (s : Simulation) :
  vort s = [] -> length _invec <> 0 ->
  (length _invec mod 4 <> 0 ->
   add_particles _invec s = Aborts "_invec.size() % 4 == 0")
  /\ (length _invec mod 4 = 0 -> length _invec mod 7 <> 0 ->
      add_particles _invec s = Aborts "_in.size() % 7 == 0")
  /\ (length _invec mod 4 = 0 -> length _invec mod 7 = 0 ->
      add_particles _invec s = Undefined "vector read out of range"
      /\ exists i : nat,
           i < length _invec / 4 /\ length _invec <= 7 * i + 0 + 3)
  /\ (length _invec mod 28 = 0
      <-> length _invec mod 4 = 0 /\ length _invec mod 7 = 0).
Proof.
  intros Hv Hne.
  assert (Hne' : (length _invec =? 0) = false) by (apply Nat.eqb_neq; exact Hne).
  split; [|split; [|split]].
  - intros H4. unfold add_particles. rewrite Hne'.
    apply Nat.eqb_neq in H4. rewrite H4. reflexivity.
  - intros H4 H7. unfold add_particles. rewrite Hne'.
    apply Nat.eqb_eq in H4. rewrite H4. cbn [assert bind].
    unfold store_points. rewrite Hv. cbn [length Nat.eqb].
    unfold Points_new. cbv zeta. rewrite set_radius_loop_length.
    apply Nat.eqb_neq in H7. rewrite H7. reflexivity.
  - intros H4 H7. split.
    + unfold add_particles. rewrite Hne'.
      apply Nat.eqb_eq in H4. rewrite H4. apply Nat.eqb_eq in H4.
      cbn [assert bind]. unfold store_points. rewrite Hv. cbn [length Nat.eqb].
      rewrite Points_new_active_out_of_range;
        [reflexivity| | |]; rewrite set_radius_loop_length; assumption.
    + exists (length _invec / 4 - 1).
      pose proof (Nat.Div0.div_exact (length _invec) 4) as [_ Hx].
      specialize (Hx H4).
      pose proof (Nat.Div0.div_exact (length _invec) 7) as [_ Hy].
      specialize (Hy H7).
      set (n := length _invec / 4) in *. set (k := length _invec / 7) in *.
      lia.
  - pose proof (Nat.div_mod_eq (length _invec) 28).
    pose proof (Nat.div_mod_eq (length _invec) 4).
    pose proof (Nat.div_mod_eq (length _invec) 7).
    pose proof (Nat.mod_upper_bound (length _invec) 28 ltac:(lia)).
    pose proof (Nat.mod_upper_bound (length _invec) 4 ltac:(lia)).
    pose proof (Nat.mod_upper_bound (length _invec) 7 ltac:(lia)).
    lia.
Qed.

(** X17. With a vortex collection already in the list, [add_particles]
    returns for every non-empty batch of whole particles and never adds or
    removes a collection: all collections but the last are left as they
    are; a last collection of points is replaced by what [add_new] makes
    of it with the batch (radii overwritten), after the count of the batch
    is printed; a last collection of panels is left alone and the batch is
    dropped without a word. The boundary and field-point lists, the bodies
    and the clock are untouched. *)
Theorem add_particles_into_last_collection (_invec : list F32.t)
  (s : Simulation) :
  vort s <> [] -> length _invec <> 0 -> length _invec mod 4 = 0 ->
  exists s' : Simulation,
    add_particles _invec s = Returns s'
    /\ length (vort s') = length (vort s)
    /\ (forall i : nat, i < length (vort s) - 1 -> vort s' !! i = vort s !! i)
    /\ (forall pts : Points,
          last (vort s) = Some (CPoints pts) ->
          last (vort s')
          = Some (CPoints (ElementBase_add_new
                             (set_radius_loop (length _invec) 3 (get_vdelta s) _invec)
                             pts))
          /\ cout s'
             = cout s ++ [OStr "  adding "; OSize (length _invec / 4);
                          OStr " particles to collection..."; OEndl])
    /\ (forall surf : Surfaces,
          last (vort s) = Some (CSurfaces surf) ->
          vort s' = vort s /\ cout s' = cout s)
    /\ bdry s' = bdry s /\ fldpt s' = fldpt s
    /\ bodies s' = bodies s /\ heap s' = heap s /\ time s' = time s.
Proof.
  intros Hv Hne H4.
  apply Nat.eqb_neq in Hne. apply Nat.eqb_eq in H4.
  unfold add_particles. rewrite Hne, H4. cbn [assert bind].
  unfold store_points.
  destruct (vort s) as [|c l] eqn:Hvort; [congruence|]. clear Hv.
  cbn [length Nat.eqb].
  destruct (last (c :: l)) as [[pts|surf]|] eqn:Hlast.
  - unfold Points_add_new. cbn [bind]. eexists. split; [reflexivity|].
    cbn [vort with_vort print cout with_cout bdry fldpt bodies heap time].
    rewrite length_insert. split; [reflexivity|]. split.
    { intros i Hi. apply list_lookup_insert_ne. cbn [length] in Hi. lia. }
    split.
    { intros pts' Hp. inversion Hp; subst pts'. split.
      - rewrite last_lookup, length_insert. cbn [length Nat.pred].
        replace (S (length l) - 1) with (length l) by lia.
        apply list_lookup_insert_eq. cbn [length]. lia.
      - rewrite set_radius_loop_length. reflexivity. }
    split; [intros surf Hs; discriminate|]. repeat split.
  - cbn [bind]. eexists. split; [reflexivity|].
    cbn [vort with_vort print cout with_cout bdry fldpt bodies heap time].
    split; [reflexivity|]. split; [reflexivity|].
    split; [intros pts Hp; discriminate|].
    split; [intros surf' _; split; [reflexivity|apply app_nil_r]|].
    repeat split.
  - rewrite last_lookup in Hlast. cbn [length Nat.pred] in Hlast.
    destruct (lookup_lt_is_Some_2 (c :: l) (length l)) as [x Hx];
      [cbn [length]; lia|]. congruence.
Qed.

End MoreSimulationProperties.

(** ** Boundary shapes *)

Section BoundaryFeatureProperties.
Context `{Libm}.

Lemma for_loop_invariant {St : Type} (body : nat -> St -> outcome St)
  (Inv : nat -> St -> Prop) (count lo : nat) (st : St) :
  Inv lo st ->
  (forall (i : nat) (s : St),
      lo <= i < lo + count -> Inv i s ->
      exists s' : St, body i s = Returns s' /\ Inv (S i) s') ->
  exists st' : St,
    for_loop body lo count st = Returns st' /\ Inv (lo + count) st'.
Proof.
  revert lo st. induction count as [|count IH]; intros lo st Hinv Hstep.
  - exists st. rewrite Nat.add_0_r. split; [reflexivity|exact Hinv].
  - destruct (Hstep lo st ltac:(lia) Hinv) as (s1 & Hb & Hinv1).
    destruct (IH (S lo) s1 Hinv1) as (st' & Hloop & Hinv').
    { intros i s Hi. apply Hstep. lia. }
    exists st'. cbn [for_loop]. rewrite Hb. cbn [bind].
    split; [exact Hloop|]. replace (lo + S count) with (S lo + count) by lia.
    exact Hinv'.
Qed.

Lemma vec_write_in_range {A : Type} (v : list A) (k : nat) (y : A) :
  k < length v -> vec_write v k y = Returns (<[k := y]> v).
Proof.
  intros Hk. unfold vec_write. apply Nat.ltb_lt in Hk. rewrite Hk. reflexivity.
Qed.

Lemma connect_body_step (n i : nat) (x : list F32.t) (idx : list nat)
  (val : list F32.t) :
  i < n -> connected_upto n i idx val ->
  exists idx' : list nat,
    connect_body i (x, idx, val) = Returns (x, idx', val)
    /\ connected_upto n (S i) idx' val.
Proof.
  intros Hi (Hlen & Hval & Hidx). unfold connect_body.
  rewrite vec_write_in_range by lia. cbn [bind].
  rewrite vec_write_in_range by (rewrite length_insert; lia). cbn [bind].
  rewrite vec_write_in_range by (rewrite Hval, length_replicate; exact Hi).
  cbn [bind].
  assert (Hsame : <[i := F32_of_double 0%float]> val = val).
  { apply list_insert_id. rewrite Hval. apply lookup_replicate_2. exact Hi. }
  rewrite Hsame. eexists. split; [reflexivity|].
  split; [rewrite !length_insert; exact Hlen|]. split; [exact Hval|].
  intros j Hj. destruct (decide (j = i)) as [->|Hne].
  - split.
    + rewrite list_lookup_insert_ne by lia.
      apply list_lookup_insert_eq. lia.
    + apply list_lookup_insert_eq. rewrite length_insert. lia.
  - rewrite !list_lookup_insert_ne by lia. apply Hidx. lia.
Qed.

Lemma close_loop_contour (n : nat) (x : list F32.t) (idx : list nat)
  (val : list F32.t) :
  1 <= n -> length x = 2 * n -> connected_upto n n idx val ->
  exists idx' : list nat,
    close_loop n (x, idx, val) = Returns (x, idx', val)
    /\ closed_contour n (x, idx', val).
Proof.
  intros Hn Hx (Hlen & Hval & Hidx). unfold close_loop.
  rewrite vec_write_in_range by lia. cbn [bind].
  eexists. split; [reflexivity|]. unfold closed_contour.
  split; [exact Hx|]. split; [rewrite length_insert; exact Hlen|].
  split; [exact Hval|].
  intros i Hi. destruct (Hidx i Hi) as [Ha Hb]. split.
  - rewrite list_lookup_insert_ne by lia. exact Ha.
  - destruct (decide (i = n - 1)) as [->|Hne].
    + replace (2 * (n - 1) + 1) with (2 * n - 1) by lia.
      rewrite list_lookup_insert_eq by lia.
      replace (S (n - 1)) with n by lia. rewrite Nat.Div0.mod_same. reflexivity.
    + rewrite list_lookup_insert_ne by lia. rewrite Hb.
      rewrite Nat.mod_small by lia. f_equal. lia.
Qed.

(** The loop of the circle and of the oval, followed by the correction of
    the last index. *)
Lemma ring_loop_contour (fx fy : nat -> F32.t) (n : nat) :
  1 <= n ->
  exists st st' : flat_packet,
    for_loop (ring_body fx fy) 0 n (fresh_packet n) = Returns st
    /\ close_loop n st = Returns st'
    /\ closed_contour n st'
    /\ forall i : nat, i < n -> node_at st' i = Some (fx i, fy i).
Proof.
  intros Hn.
  set (Inv := fun (k : nat) (st : flat_packet) =>
                let '(x, idx, val) := st in
                length x = 2 * n
                /\ connected_upto n k idx val
                /\ forall j : nat,
                     j < k -> x !! (2 * j) = Some (fx j)
                              /\ x !! (2 * j + 1) = Some (fy j)).
  destruct (for_loop_invariant (ring_body fx fy) Inv n 0 (fresh_packet n))
    as ([[x idx] val] & Hloop & Hx & Hconn & Hnodes).
  - unfold Inv, fresh_packet. split; [rewrite length_replicate; lia|].
    split; [|intros j Hj; lia].
    split; [rewrite length_replicate; lia|]. split; [reflexivity|].
    intros j Hj. lia.
  - intros i [[x idx] val] Hi (Hx & Hconn & Hnodes). unfold ring_body.
    rewrite vec_write_in_range by lia. cbn [bind].
    rewrite vec_write_in_range by (rewrite length_insert; lia). cbn [bind].
    destruct (connect_body_step n i (<[2 * i + 1 := fy i]> (<[2 * i := fx i]> x))
                idx val ltac:(lia) Hconn) as (idx' & Hb & Hconn').
    rewrite Hb. eexists. split; [reflexivity|]. unfold Inv.
    split; [rewrite !length_insert; exact Hx|]. split; [exact Hconn'|].
    intros j Hj. destruct (decide (j = i)) as [->|Hne].
    + split.
      * rewrite list_lookup_insert_ne by lia. apply list_lookup_insert_eq. lia.
      * apply list_lookup_insert_eq. rewrite length_insert. lia.
    + rewrite !list_lookup_insert_ne by lia. apply Hnodes. lia.
  - cbn [Nat.add] in Hconn, Hnodes.
    destruct (close_loop_contour n x idx val Hn Hx Hconn) as (idx' & Hc & Hcont).
    exists (x, idx, val), (x, idx', val).
    split; [exact Hloop|]. split; [exact Hc|]. split; [exact Hcont|].
    intros i Hi. unfold node_at. cbn [fst].
    destruct (Hnodes i Hi) as [-> ->]. reflexivity.
Qed.

Lemma ring_num_panels_range (m_diam _ips : F32.t) (n : nat) :
  ring_num_panels m_diam _ips = Returns n -> 5 <= n <= 100 * 100.
Proof.
  unfold ring_num_panels. destruct (int_of_double _) as [k| |]; cbn [bind];
    intros Hn; inversion Hn; subst. lia.
Qed.

(** X18. Whenever the panel count of a circle is defined,
    [SolidCircle::init_elements] returns a closed contour of between 5 and
    10000 panels: twice as many coordinates and indices as panels, values
    all zero, panel [i] from node [i] to node [i+1] and the last panel back
    to node 0, every index below the number of nodes. When the count is
    not defined the call is undefined. *)
Theorem SolidCircle_init_elements_contour (c : SolidCircle) (_ips : F32.t) :
  match ring_num_panels (circle_diam c) _ips with
  | Returns n =>
      5 <= n <= 100 * 100
      /\ exists st : flat_packet,
           SolidCircle_init_elements c _ips
           = Returns (st, [OStr "Creating circle with "; OSize n;
                           OStr " panels"; OEndl])
           /\ closed_contour n st
           /\ forall i : nat,
                i < n ->
                node_at st i = Some (circle_node_x c n i, circle_node_y c n i)
  | Aborts w => SolidCircle_init_elements c _ips = Aborts w
  | Undefined w => SolidCircle_init_elements c _ips = Undefined w
  end.
Proof.
  unfold SolidCircle_init_elements.
  destruct (ring_num_panels (circle_diam c) _ips) as [n| |] eqn:Hn;
    cbn [bind]; try reflexivity.
  pose proof (ring_num_panels_range _ _ _ Hn) as Hrange.
  split; [exact Hrange|].
  destruct (ring_loop_contour (circle_node_x c n) (circle_node_y c n) n
              ltac:(lia)) as (st & st' & Hloop & Hclose & Hcont & Hnodes).
  exists st'. rewrite Hloop. cbn [bind]. rewrite Hclose. cbn [bind].
  split; [reflexivity|]. split; assumption.
Qed.

(** X19. The same for [SolidOval::init_elements], with the nodes of the
    rotated oval. *)
Theorem SolidOval_init_elements_contour (o : SolidOval) (_ips : F32.t) :
  match ring_num_panels (oval_diam o) _ips with
  | Returns n =>
      5 <= n <= 100 * 100
      /\ exists st : flat_packet,
           SolidOval_init_elements o _ips
           = Returns (st, [OStr "Creating oval with "; OSize n;
                           OStr " panels"; OEndl])
           /\ closed_contour n st
           /\ forall i : nat,
                i < n ->
                node_at st i = Some (oval_node_x o n i, oval_node_y o n i)
  | Aborts w => SolidOval_init_elements o _ips = Aborts w
  | Undefined w => SolidOval_init_elements o _ips = Undefined w
  end.
Proof.
  unfold SolidOval_init_elements.
  destruct (ring_num_panels (oval_diam o) _ips) as [n| |] eqn:Hn;
    cbn [bind]; try reflexivity.
  pose proof (ring_num_panels_range _ _ _ Hn) as Hrange.
  split; [exact Hrange|].
  destruct (ring_loop_contour (oval_node_x o n) (oval_node_y o n) n
              ltac:(lia)) as (st & st' & Hloop & Hclose & Hcont & Hnodes).
  exists st'. rewrite Hloop. cbn [bind]. rewrite Hclose. cbn [bind].
  split; [reflexivity|]. split; assumption.
Qed.

Lemma connect_loop_contour (n : nat) (x : list F32.t) :
  exists idx : list nat,
    for_loop connect_body 0 n (x, replicate (n * 2) 0, replicate n F32.zero)
    = Returns (x, idx, replicate n F32.zero)
    /\ connected_upto n n idx (replicate n F32.zero).
Proof.
  set (Inv := fun (k : nat) (st : flat_packet) =>
                let '(x', idx, val) := st in
                x' = x /\ val = replicate n F32.zero
                /\ connected_upto n k idx val).
  destruct (for_loop_invariant connect_body Inv n 0
              (x, replicate (n * 2) 0, replicate n F32.zero))
    as ([[x' idx] val] & Hloop & -> & -> & Hconn).
  - unfold Inv. split; [reflexivity|]. split; [reflexivity|].
    split; [rewrite length_replicate; lia|]. split; [reflexivity|].
    intros j Hj. lia.
  - intros i [[x' idx] val] Hi (-> & -> & Hconn).
    destruct (connect_body_step n i x idx _ ltac:(lia) Hconn) as (idx' & Hb & Hc').
    rewrite Hb. eexists. split; [reflexivity|]. unfold Inv.
    split; [reflexivity|]. split; [reflexivity|exact Hc'].
  - exists idx. split; [exact Hloop|exact Hconn].
Qed.

(** One of the four coordinate loops of the square: it writes the nodes of
    its side and keeps what is below. *)
Lemma side_loop_writes (q : SolidSquare) (n side m : nat) (x0 : list F32.t)
  (icnt : nat) :
  length x0 = 2 * n -> side * m + m <= n -> icnt = 2 * (side * m) ->
  exists x' : list F32.t,
    for_loop (side_body q n side) 0 m (x0, icnt)
    = Returns (x', 2 * (S side * m))
    /\ length x' = 2 * n
    /\ (forall j : nat,
           j < m ->
           x' !! (2 * (side * m + j)) = Some (square_node_x q n side j)
           /\ x' !! (2 * (side * m + j) + 1) = Some (square_node_y q n side j))
    /\ forall p : nat, p < 2 * (side * m) -> x' !! p = x0 !! p.
Proof.
  intros Hlen Hfit ->.
  set (Inv := fun (k : nat) (st : list F32.t * nat) =>
                let '(x, ic) := st in
                ic = 2 * (side * m + k)
                /\ length x = 2 * n
                /\ (forall j : nat,
                       j < k ->
                       x !! (2 * (side * m + j)) = Some (square_node_x q n side j)
                       /\ x !! (2 * (side * m + j) + 1)
                          = Some (square_node_y q n side j))
                /\ forall p : nat, p < 2 * (side * m) -> x !! p = x0 !! p).
  destruct (for_loop_invariant (side_body q n side) Inv m 0 (x0, 2 * (side * m)))
    as ([x' ic] & Hloop & Hic & Hx & Hnodes & Hbelow).
  - unfold Inv. split; [lia|]. split; [exact Hlen|].
    split; [intros j Hj; lia|]. intros p _. reflexivity.
  - intros i [x ic] Hi (Hic & Hx & Hnodes & Hbelow). unfold side_body.
    rewrite vec_write_in_range by lia. cbn [bind]. cbv zeta.
    rewrite vec_write_in_range by (rewrite length_insert; lia). cbn [bind].
    eexists. split; [reflexivity|]. unfold Inv.
    split; [lia|]. split; [rewrite !length_insert; exact Hx|]. split.
    + intros j Hj. subst ic. destruct (decide (j = i)) as [->|Hne].
      * split.
        -- rewrite list_lookup_insert_ne by lia. apply list_lookup_insert_eq. lia.
        -- apply list_lookup_insert_eq. rewrite length_insert. lia.
      * rewrite !list_lookup_insert_ne by lia. apply Hnodes. lia.
    + intros p Hp. rewrite !list_lookup_insert_ne by lia. apply Hbelow. exact Hp.
  - exists x'. cbn [Nat.add] in Hic, Hnodes.
    replace (2 * (S side * m)) with ic by (rewrite Hic; lia).
    split; [exact Hloop|]. split; [exact Hx|]. split; assumption.
Qed.

Lemma square_num_panels_range (m_side _ips : F32.t) (n : nat) :
  square_num_panels m_side _ips = Returns n ->
  4 <= n <= 100 * 100 /\ n = 4 * (n / 4).
Proof.
  unfold square_num_panels. destruct (int_of_spec _) as [k| |]; cbn [bind];
    intros Hn; inversion Hn; subst.
  set (z := Z.min 2500 (Z.max 1 k)).
  assert (Hz : (1 <= z <= 2500)%Z) by (unfold z; lia).
  replace (Z.to_nat (4 * z)) with (4 * Z.to_nat z) by lia.
  split; [lia|]. rewrite Nat.mul_comm, Nat.div_mul by lia. lia.
Qed.

(** X20. Whenever the panel count of a square is defined,
    [SolidSquare::init_elements] returns a closed contour whose panel count
    is a multiple of 4 between 4 and 10000; the four coordinate loops fill
    the coordinate vector exactly, side after side, a quarter of the nodes
    each. *)
Theorem SolidSquare_init_elements_contour (q : SolidSquare) (_ips : F32.t) :
  match square_num_panels (square_side q) _ips with
  | Returns n =>
      (4 <= n <= 100 * 100 /\ n mod 4 = 0)
      /\ exists st : flat_packet,
           SolidSquare_init_elements q _ips
           = Returns (st, [OStr "Creating square with "; OSize n;
                           OStr " panels"; OEndl])
           /\ closed_contour n st
           /\ forall side i : nat,
                side < 4 -> i < n / 4 ->
                node_at st (side * (n / 4) + i)
                = Some (square_node_x q n side i, square_node_y q n side i)
  | Aborts w => SolidSquare_init_elements q _ips = Aborts w
  | Undefined w => SolidSquare_init_elements q _ips = Undefined w
  end.
Proof.
  unfold SolidSquare_init_elements.
  destruct (square_num_panels (square_side q) _ips) as [n| |] eqn:Hn;
    cbn [bind]; try reflexivity.
  destruct (square_num_panels_range _ _ _ Hn) as [Hrange Hfour].
  set (m := n / 4) in *.
  split.
  { split; [exact Hrange|]. rewrite Hfour, Nat.mul_comm.
    apply Nat.Div0.mod_mul. }
  unfold fresh_packet. cbv zeta.
  destruct (side_loop_writes q n 0 m (replicate (n * 2) F32.zero) 0)
    as (x1 & -> & Hl1 & Hn1 & Hb1); [rewrite length_replicate; lia|lia|lia|].
  cbn [bind].
  destruct (side_loop_writes q n 1 m x1 (2 * (1 * m)) Hl1)
    as (x2 & -> & Hl2 & Hn2 & Hb2); [lia|lia|].
  cbn [bind].
  destruct (side_loop_writes q n 2 m x2 (2 * (2 * m)) Hl2)
    as (x3 & -> & Hl3 & Hn3 & Hb3); [lia|lia|].
  cbn [bind].
  destruct (side_loop_writes q n 3 m x3 (2 * (3 * m)) Hl3)
    as (x4 & -> & Hl4 & Hn4 & Hb4); [lia|lia|].
  cbn [bind fst].
  destruct (connect_loop_contour n x4) as (idx & -> & Hconn). cbn [bind].
  destruct (close_loop_contour n x4 idx _ ltac:(lia) Hl4 Hconn)
    as (idx' & -> & Hcont).
  cbn [bind]. eexists. split; [reflexivity|]. split; [exact Hcont|].
  intros side i Hside Hi. unfold node_at. cbn [fst].
  destruct side as [|[|[|[|side]]]]; [| | | |lia].
  - destruct (Hn1 i Hi) as [Ha Hb].
    rewrite !Hb4, !Hb3, !Hb2 by lia. rewrite Ha, Hb. reflexivity.
  - destruct (Hn2 i Hi) as [Ha Hb].
    rewrite !Hb4, !Hb3 by lia. rewrite Ha, Hb. reflexivity.
  - destruct (Hn3 i Hi) as [Ha Hb].
    rewrite !Hb4 by lia. rewrite Ha, Hb. reflexivity.
  - destruct (Hn4 i Hi) as [Ha Hb]. rewrite Ha, Hb. reflexivity.
Qed.

Lemma int_of_spec_div_zero (v : spec_float) (prec emax : Z) (s : bool) :
  int_of_spec (SFdiv prec emax v (S754_zero s))
  = Undefined "floating value does not fit int".
Proof. destruct v; reflexivity. Qed.

Lemma ring_num_panels_zero (m_diam : F32.t) :
  ring_num_panels m_diam F32.zero = Undefined "floating value does not fit int".
Proof.
  unfold ring_num_panels, int_of_double.
  change (F32.to_double F32.zero) with 0%float.
  rewrite div_spec. change (Prim2SF 0%float) with (S754_zero false).
  unfold SF64div. rewrite int_of_spec_div_zero. reflexivity.
Qed.

(** X22. With a particle spacing of zero the panel count of each of the
    three shapes is the conversion to [int] of an infinity or of a
    not-a-number, whatever the size of the shape: [init_elements] is
    undefined. *)
Theorem zero_spacing_undefined (c : SolidCircle) (o : SolidOval) (q : SolidSquare) :
  SolidCircle_init_elements c F32.zero
  = Undefined "floating value does not fit int"
  /\ SolidOval_init_elements o F32.zero
     = Undefined "floating value does not fit int"
  /\ SolidSquare_init_elements q F32.zero
     = Undefined "floating value does not fit int".
Proof.
  split; [|split].
  - unfold SolidCircle_init_elements. rewrite ring_num_panels_zero. reflexivity.
  - unfold SolidOval_init_elements. rewrite ring_num_panels_zero. reflexivity.
  - unfold SolidSquare_init_elements, square_num_panels, F32.div, F32.zero.
    rewrite int_of_spec_div_zero. reflexivity.
Qed.


End BoundaryFeatureProperties.

(** ** From the generators to the orchestrator *)

Section GeneratedBoundaries.
Context `{Libm} `{Kernels}.

Lemma pair_up_length (m : nat) (l : list nat) :
  length l = 2 * m -> length (pair_up l) = m.
Proof.
  revert l. induction m as [|m IH]; intros l Hlen.
  - destruct l; [reflexivity|cbn in Hlen; lia].
  - destruct l as [|a0 [|b0 rest]]; cbn in Hlen; try lia.
    cbn [pair_up length]. rewrite IH by lia. reflexivity.
Qed.

Lemma pair_up_lookup (m : nat) (l : list nat) (i a b : nat) :
  length l = 2 * m ->
  l !! (2 * i) = Some a -> l !! (2 * i + 1) = Some b ->
  pair_up l !! i = Some (a, b).
Proof.
  revert l i. induction m as [|m IH]; intros l i Hlen Ha Hb.
  - destruct l; [discriminate|cbn in Hlen; lia].
  - destruct l as [|a0 [|b0 rest]]; cbn in Hlen; try lia.
    cbn [pair_up]. destruct i as [|i].
    + cbn in Ha, Hb. inversion Ha; inversion Hb; subst. reflexivity.
    + replace (2 * S i) with (S (S (2 * i))) in Ha by lia.
      replace (2 * S i + 1) with (S (S (2 * i + 1))) in Hb by lia.
      cbn in Ha, Hb. cbn. apply IH; [lia|exact Ha|exact Hb].
Qed.

Lemma closed_contour_panels (n : nat) (st : flat_packet) :
  1 <= n -> closed_contour n st ->
  idx (packet_of_flat st) = map (fun i => (i, S i mod n)) (seq 0 n).
Proof.
  intros Hn. destruct st as [[x0 idx0] val0]. intros (_ & Hlen & _ & Hidx).
  cbn [packet_of_flat idx].
  assert (Hpl : length (pair_up idx0) = n) by (apply pair_up_length; exact Hlen).
  apply list_eq. intros i.
  destruct (decide (i < n)) as [Hi|Hi].
  - destruct (Hidx i Hi) as [Ha Hb].
    rewrite (pair_up_lookup n idx0 i _ _ Hlen Ha Hb).
    rewrite list_lookup_fmap, lookup_seq_lt by exact Hi. reflexivity.
  - rewrite !lookup_ge_None_2; [reflexivity| |].
    + rewrite length_map, length_seq. lia.
    + rewrite Hpl. lia.
Qed.

Lemma first_boundary_panels (_bptr : ptr) (g : ElementPacket) (s : Simulation) :
  bdry s = [] ->
  bdry (add_boundary _bptr g s) = [new_collection _bptr g]
  /\ get_npanels (add_boundary _bptr g s) = length (idx g).
Proof.
  intros Hempty.
  assert (Hb : bdry (add_boundary _bptr g s) = [new_collection _bptr g]).
  { rewrite add_boundary_no_match; rewrite Hempty; [reflexivity|].
    intros k c Hk. discriminate. }
  split; [exact Hb|]. unfold get_npanels. rewrite Hb. reflexivity.
Qed.

(** X21. The packet that [SolidCircle::init_elements] returns, given to
    [add_boundary] of a simulation without boundaries, makes one collection
    whose panels are exactly the edges from node [i] to node [i+1], the last
    one back to node 0, and the panel count of the simulation is the panel
    count of the circle. *)
Theorem circle_into_empty_simulation (c : SolidCircle) (_ips : F32.t)
  (st : flat_packet) (out : list out_item) (_bptr : ptr) (s : Simulation) :
  SolidCircle_init_elements c _ips = Returns (st, out) ->
  bdry s = [] ->
  exists n : nat,
    ring_num_panels (circle_diam c) _ips = Returns n
    /\ idx (packet_of_flat st) = map (fun i => (i, S i mod n)) (seq 0 n)
    /\ bdry (add_boundary _bptr (packet_of_flat st) s)
       = [new_collection _bptr (packet_of_flat st)]
    /\ get_npanels (add_boundary _bptr (packet_of_flat st) s) = n.
Proof.
  intros Hinit Hempty. unfold SolidCircle_init_elements in Hinit.
  destruct (ring_num_panels (circle_diam c) _ips) as [n| |] eqn:Hn;
    cbn [bind] in Hinit; try discriminate.
  pose proof (ring_num_panels_range _ _ _ Hn) as Hrange.
  destruct (ring_loop_contour (circle_node_x c n) (circle_node_y c n) n
              ltac:(lia)) as (st0 & st' & Hloop & Hclose & Hcont & _).
  rewrite Hloop in Hinit. cbn [bind] in Hinit.
  rewrite Hclose in Hinit. cbn [bind] in Hinit.
  inversion Hinit; subst st out.
  pose proof (closed_contour_panels n st' ltac:(lia) Hcont) as Hidx.
  destruct (first_boundary_panels _bptr (packet_of_flat st') s Hempty) as [Hb Hnp].
  exists n. split; [reflexivity|]. split; [exact Hidx|]. split; [exact Hb|].
  rewrite Hnp, Hidx, length_map, length_seq. reflexivity.
Qed.

End GeneratedBoundaries.

(** * Runs on the sample instance *)

#[local] Existing Instance sample_tinyexpr.
#[local] Existing Instance sample_kernels.

Lemma constant_body_pos_vel_witness :
  run_calls sample_history (Body_new 1%float 2%float) = Returns sample_constant_body
  /\ fst (get_pos 7%float sample_constant_body) = (3.5%float, 2%float)
  /\ fst (get_vel 7%float sample_constant_body) = (0%float, 0%float).
Proof.
  split; [reflexivity|].
  apply (constant_body_pos_vel 1%float 2%float sample_history
           sample_constant_body 7%float).
  reflexivity.
Defined.

Lemma set_pos_expr_compile_failure_witness :
  1 < Dimensions
  /\ te_compile "(t" = (None, 1%Z)
  /\ exists b' : Body,
       set_pos_expr 1 "(t" sample_constant_body
         = Returns (b', [OStr "  Error parsing expression ("; OStr "(t";
                         OStr "), near character "; OInt 1%Z; OEndl])
       /\ arr2_get 1 (pos_func b') = None
       /\ pos b' = pos sample_constant_body
       /\ forall (ts : list float) (t : float),
            arr2_get 1 (fst (get_pos t (after_get_pos ts b')))
            = arr2_get 1 (pos sample_constant_body).
Proof.
  split; [unfold Dimensions; lia|]. split; [reflexivity|].
  apply (set_pos_expr_compile_failure sample_constant_body 1 "(t" 1%Z).
  - unfold Dimensions; lia.
  - reflexivity.
Defined.

Lemma add_boundary_first_match_wins_witness :
  bdry sample_sim = []
  /\ length (bdry (add_boundaries sample_insertions sample_sim)) = 2
  /\ first_match_receives (Some 0) sample_geom
       (add_boundaries sample_insertions sample_sim)
  /\ length (bdry (add_boundary (Some 0) sample_geom
                     (add_boundaries sample_insertions sample_sim))) = 2
  /\ get_npanels (add_boundary None sample_geom
                    (add_boundary None sample_geom
                       (add_boundaries sample_insertions sample_sim)))
     = 9 + (3 + 3).
Proof.
  split; [reflexivity|]. split; [reflexivity|].
  destruct (add_boundary_first_match_wins sample_insertions sample_sim _
              (Some 0) sample_geom eq_refl eq_refl)
    as (_ & _ & _ & Hlen & Hfirst & _ & _ & Hsame).
  split; [exact Hfirst|]. split.
  - apply Hlen. eexists 0, _. split; reflexivity.
  - exact (proj2 (proj2 (Hsame None sample_geom sample_geom))).
Defined.

Lemma check_simulation_advisories_witness :
  Forall (valid_ptr (heap sample_with_body)) (bodies sample_with_body)
  /\ 0 < 1
  /\ get_nparts sample_with_body = 0
  /\ zero_freestream sample_with_body = true
  /\ do_any_bodies_move sample_with_body = Returns (false, sample_with_body)
  /\ get_diffuse sample_with_body = false
  /\ check_simulation 0 1 sample_with_body
     = Returns (msg_zero_freestream, sample_with_body)
  /\ check_simulation 0 0 sample_sim = Returns (msg_no_features, sample_sim).
Proof.
  assert (Hvalid : Forall (valid_ptr (heap sample_with_body)) (bodies sample_with_body)).
  { constructor; [cbn; lia|constructor]. }
  assert (Hmove : do_any_bodies_move sample_with_body = Returns (false, sample_with_body))
    by (vm_compute; reflexivity).
  split; [exact Hvalid|]. split; [lia|]. split; [reflexivity|].
  split; [vm_compute; reflexivity|]. split; [exact Hmove|]. split; [reflexivity|].
  split.
  - destruct (check_simulation_advisories 0 1 sample_with_body) as (_ & _ & Hzero).
    apply (Hzero sample_with_body); [lia|reflexivity|vm_compute; reflexivity|exact Hmove].
  - destruct (check_simulation_advisories 0 0 sample_sim) as (_ & Hnone & _).
    apply Hnone; reflexivity.
Defined.

Lemma test_for_new_results_state_machine_witness :
  async_step sample_sim = Returns sample_launched
  /\ polls_until_true sample_launched
       (with_step_has_started false
          (with_step_is_finished true
             (with_stepfuture FInvalid (worker_finish sample_launched))))
  /\ test_for_new_results
       (with_step_has_started false
          (with_step_is_finished true
             (with_stepfuture FInvalid (worker_finish sample_launched))))
     = (Normal true,
        with_step_has_started false
          (with_step_is_finished true
             (with_stepfuture FInvalid (worker_finish sample_launched))))
  /\ launches
       (with_step_has_started false
          (with_step_is_finished true
             (with_stepfuture FInvalid (worker_finish sample_launched))))
     = launches sample_sim + 1.
Proof.
  assert (Hasync : async_step sample_sim = Returns sample_launched) by reflexivity.
  assert (Hpoll : polls_until_true sample_launched
            (with_step_has_started false
               (with_step_is_finished true
                  (with_stepfuture FInvalid (worker_finish sample_launched))))).
  { apply polls_false with (s1 := sample_launched); [reflexivity|].
    apply polls_worker; [reflexivity|].
    apply polls_true. vm_compute. reflexivity. }
  split; [exact Hasync|]. split; [exact Hpoll|].
  destruct (test_for_new_results_state_machine sample_sim) as (_ & _ & _ & _ & Hrun).
  exact (Hrun _ _ Hasync Hpoll).
Defined.

Lemma reset_waits_then_clears_witness :
  fst (reset sample_launched) = Normal tt
  /\ calls (snd (reset sample_launched)) = calls (worker_finish sample_launched)
  /\ length (calls (snd (reset sample_launched))) = 3
  /\ time (snd (reset sample_launched)) = 0%float.
Proof.
  pose proof (reset_waits_then_clears sample_launched) as [_ Hreset].
  destruct (reset sample_launched) as [[[]|e] s'] eqn:Hr.
  - destruct Hreset as (_ & _ & _ & Hcalls & _ & _ & _ & _ & Htime & _).
    split; [reflexivity|]. cbn [snd]. split; [exact Hcalls|].
    split; [rewrite Hcalls; vm_compute; reflexivity|exact Htime].
  - vm_compute in Hr. discriminate.
Defined.

Lemma step_diffuse_then_convect_witness :
  step sample_sim = (fst (step sample_sim), None)
  /\ run_steps 3 sample_sim = (fst (run_steps 3 sample_sim), None)
  /\ passes (calls (fst (run_steps 3 sample_sim)))
     = [Diffuse; Convect2nd; Diffuse; Convect2nd; Diffuse; Convect2nd]
  /\ time (fst (run_steps 3 sample_sim))
     = (0 + F32.to_double (dt sample_sim) + F32.to_double (dt sample_sim)
        + F32.to_double (dt sample_sim))%float.
Proof.
  assert (H1 : step sample_sim = (fst (step sample_sim), None))
    by (vm_compute; reflexivity).
  assert (H3 : run_steps 3 sample_sim = (fst (run_steps 3 sample_sim), None))
    by (vm_compute; reflexivity).
  split; [exact H1|]. split; [exact H3|].
  destruct (step_diffuse_then_convect 3 sample_sim _ _ H1 H3) as (_ & _ & Hp & Ht).
  split; [exact Hp|exact Ht].
Defined.

Lemma stride_assertions_witness :
  length sample_batch mod 4 = 0
  /\ length sample_batch mod 7 <> 0
  /\ add_particles sample_batch sample_sim = Aborts "_in.size() % 7 == 0"
  /\ add_particles [F32.zero; F32.zero; F32.zero] sample_sim
     = Aborts "_invec.size() % 4 == 0"
  /\ add_fldpts [F32.zero; F32.zero; F32.zero] true sample_sim
     = Aborts "_invec.size() % Dimensions == 0"
  /\ add_fldpts [F32.zero; F32.zero] false sample_sim
     = Aborts "_in.size() % 7 == 0".
Proof.
  split; [reflexivity|]. split; [cbn; lia|].
  destruct (stride_assertions sample_batch sample_sim) as (_ & _ & Hctor & _).
  destruct (stride_assertions [F32.zero; F32.zero; F32.zero] sample_sim)
    as (Hp & Hf & _ & _).
  destruct (stride_assertions [F32.zero; F32.zero] sample_sim) as (_ & _ & _ & Hfc).
  split; [apply Hctor; [reflexivity|cbn; lia|reflexivity|cbn; lia]|].
  split; [apply Hp; cbn; lia|].
  split; [apply Hf; cbn; lia|].
  apply Hfc; [reflexivity|cbn; lia|reflexivity|cbn; lia].
Defined.

Lemma get_pointer_to_body_creates_ground_witness :
  Forall (valid_ptr (heap sample_with_body)) (bodies sample_with_body)
  /\ deref (heap sample_with_body) (Some 0)
     = Returns (set_name "wing" (Body_new 1%float 2%float))
  /\ exists s' : Simulation,
       get_pointer_to_body "wing" sample_with_body = Returns (Some 1, s')
       /\ heap s' = heap sample_with_body
                      ++ [set_name "ground" (Body_new 0%float 0%float)]
       /\ bodies s' = [Some 0; Some 1]
       /\ length (bodies s') = 1 + 1.
Proof.
  assert (Hvalid : Forall (valid_ptr (heap sample_with_body)) (bodies sample_with_body)).
  { constructor; [cbn; lia|constructor]. }
  split; [exact Hvalid|]. split; [reflexivity|].
  exact (get_pointer_to_body_creates_ground "wing" sample_with_body Hvalid).
Defined.

Lemma add_particles_overwrites_radius_witness :
  length sample_batch = 4 * 1
  /\ 0 < 1
  /\ last (vort sample_with_particles) = Some (CPoints sample_points)
  /\ add_particles sample_batch sample_with_particles
     = Returns (with_vort
                  [CPoints (ElementBase_add_new
                              [F32.of_Z 1; F32.of_Z 2; F32.of_Z 3;
                               get_vdelta sample_with_particles]
                              sample_points)]
                  (print [OStr "  adding "; OSize 1;
                          OStr " particles to collection..."; OEndl]
                         sample_with_particles)).
Proof.
  split; [reflexivity|]. split; [lia|]. split; [reflexivity|].
  destruct (add_particles_overwrites_radius sample_batch 1 sample_with_particles
              eq_refl ltac:(lia)) as (_ & _ & _ & _ & Hadd & _).
  exact (Hadd sample_points eq_refl).
Defined.

(** ** Runs for the further properties *)

#[local] Existing Instance sample_libm.

Lemma set_pos_then_get_pos_witness :
  1 < Dimensions
  /\ exists b' : Body,
       set_pos 1 9%float sample_constant_body = Returns b'
       /\ arr2_get 1 (fst (get_pos 4%float b')) = 9%float
  /\ exists b' : Body,
       set_pos 0 9%float sample_moving_body = Returns b'
       /\ arr2_get 0 (fst (get_pos 4%float b')) = 4%float.
Proof.
  split; [unfold Dimensions; lia|].
  destruct (set_pos_then_get_pos sample_constant_body 1 9%float 4%float)
    as (b1 & H1 & _ & Hv1 & _); [unfold Dimensions; lia|].
  destruct (set_pos_then_get_pos sample_moving_body 0 9%float 4%float)
    as (b2 & H2 & _ & Hv2 & _); [unfold Dimensions; lia|].
  exists b1. split; [exact H1|]. split; [exact Hv1|].
  exists b2. split; [exact H2|exact Hv2].
Defined.

Lemma set_pos_expr_compiled_witness :
  0 < Dimensions
  /\ te_compile "t*t" = (Some SampleSquare, 0%Z)
  /\ exists b' : Body,
       set_pos_expr 0 "t*t" sample_constant_body
         = Returns (b', [OStr "  testing parsed expression, with t=0, value is ";
                         ODouble (0.25 * 0.25)%float; OEndl])
       /\ arr2_get 0 (fst (get_pos 3%float b')) = 9%float
       /\ arr2_get 0 (fst (get_vel 3%float b'))
          = (((3 + get_vel_dt) * (3 + get_vel_dt)
              - (3 - get_vel_dt) * (3 - get_vel_dt)) / (2.0 * get_vel_dt))%float.
Proof.
  split; [unfold Dimensions; lia|]. split; [reflexivity|].
  destruct (set_pos_expr_compiled sample_constant_body 0 "t*t" SampleSquare 0%Z
              3%float) as (b' & Hs & _ & _ & Hp & Hv);
    [unfold Dimensions; lia|reflexivity|].
  exists b'. split; [exact Hs|]. split; [exact Hp|exact Hv].
Defined.

Lemma reachable_body_never_rotates_witness :
  reachable_body sample_moving_body
  /\ get_orient 5%float sample_moving_body = 0%float
  /\ get_rotvel 5%float sample_moving_body = 0%float.
Proof.
  assert (Hr : reachable_body sample_moving_body).
  { apply (reach_set_pos_expr 0 "t" (Body_new 0%float 0%float) sample_moving_body
             [OStr "  testing parsed expression, with t=0, value is ";
              ODouble 0%float; OEndl]).
    - apply reach_new.
    - reflexivity. }
  split; [exact Hr|].
  exact (reachable_body_never_rotates sample_moving_body 5%float Hr).
Defined.

Lemma get_last_body_creates_once_witness :
  Forall (valid_ptr (heap sample_sim)) (bodies sample_sim)
  /\ bodies sample_sim = []
  /\ exists (p : ptr) (s' s'' : Simulation),
       get_last_body sample_sim = Returns (p, s')
       /\ p = Some 0 /\ bodies s' = [p]
       /\ get_last_body s' = Returns (p, s'')
       /\ bodies s'' = [p].
Proof.
  assert (Hvalid : Forall (valid_ptr (heap sample_sim)) (bodies sample_sim))
    by constructor.
  split; [exact Hvalid|]. split; [reflexivity|].
  destruct (get_last_body_creates_once sample_sim Hvalid)
    as (p & s' & Hg & Hempty & _ & s'' & Hg' & Hb' & _).
  destruct (Hempty eq_refl) as (Hp & Hb & _).
  exists p, s', s''. split; [exact Hg|]. split; [exact Hp|].
  split; [exact Hb|]. split; [exact Hg'|]. rewrite Hb'. exact Hb.
Defined.

Lemma bodies_at_rest_do_not_move_witness :
  bodies_at_rest (heap sample_with_body) (bodies sample_with_body)
  /\ do_any_bodies_move sample_with_body = Returns (false, sample_with_body).
Proof.
  assert (Hrest : bodies_at_rest (heap sample_with_body) (bodies sample_with_body)).
  { constructor; [|constructor].
    exists 0, (set_name "wing" (Body_new 1%float 2%float)).
    split; [reflexivity|]. split; [reflexivity|]. repeat split. }
  split; [exact Hrest|].
  exact (bodies_at_rest_do_not_move sample_with_body Hrest).
Defined.

Lemma check_simulation_one_advisory_witness :
  get_nparts sample_with_particles <> 0
  /\ check_simulation 0 1 sample_with_particles = Returns ("", sample_with_particles)
  /\ check_simulation 0 1 sample_with_body
     = Returns (msg_zero_freestream, sample_with_body)
  /\ (msg_zero_freestream = "" \/ msg_zero_freestream = msg_no_features
      \/ msg_zero_freestream = msg_zero_freestream
      \/ msg_zero_freestream = msg_no_diffusion).
Proof.
  assert (Hn : get_nparts sample_with_particles <> 0) by (cbn; lia).
  assert (Hc : check_simulation 0 1 sample_with_body
               = Returns (msg_zero_freestream, sample_with_body))
    by (vm_compute; reflexivity).
  split; [exact Hn|].
  split; [exact (proj1 (check_simulation_one_advisory 0 1 sample_with_particles) Hn)|].
  split; [exact Hc|].
  exact (proj2 (check_simulation_one_advisory 0 1 sample_with_body) _ _ Hc).
Defined.

Lemma check_simulation_no_diffusion_witness :
  0 < 1
  /\ get_nparts sample_with_moving_body = 0
  /\ fst <$> (match do_any_bodies_move sample_with_moving_body with
              | Returns r => Some r
              | _ => None
              end) = Some true
  /\ get_diffuse sample_with_moving_body = false
  /\ exists s' : Simulation,
       check_simulation 0 1 sample_with_moving_body
       = Returns (msg_no_diffusion, s').
Proof.
  split; [lia|]. split; [reflexivity|]. split; [vm_compute; reflexivity|].
  split; [reflexivity|].
  destruct (do_any_bodies_move sample_with_moving_body) as [[m s']| |] eqn:Hm;
    try (vm_compute in Hm; discriminate).
  assert (Hmt : m = true).
  { vm_compute in Hm. inversion Hm. reflexivity. }
  subst m. exists s'.
  apply (check_simulation_no_diffusion 0 1 sample_with_moving_body s' true);
    [lia|reflexivity|exact Hm|].
  split; [reflexivity|right; reflexivity].
Defined.

Lemma failed_step_keeps_clock_witness :
  snd (step failing_sim) = Some (Exn "diffusion failed")
  /\ time (fst (step failing_sim)) = time failing_sim
  /\ passes (calls (fst (step failing_sim))) = [Diffuse]
  /\ conv (fst (step failing_sim)) = conv failing_sim.
Proof.
  assert (Hs : snd (step failing_sim) = Some (Exn "diffusion failed"))
    by reflexivity.
  split; [exact Hs|].
  destruct (failed_step_keeps_clock failing_sim _ Hs) as [Ht Hcase].
  split; [exact Ht|].
  destruct (Hcase _ _ _ _ _ _ eq_refl) as (_ & _ & Hp & Hc & _).
  split; [exact Hp|exact Hc].
Defined.

Lemma poll_true_allows_launch_witness :
  future_consistent sample_sim
  /\ stepping_run sample_sim (worker_finish sample_launched)
  /\ exists s' s'' : Simulation,
       test_for_new_results (worker_finish sample_launched) = (Normal true, s')
       /\ async_step s' = Returns s''
       /\ launches s'' = 2.
Proof.
  assert (Hc : future_consistent sample_sim) by (intros Hp; discriminate Hp).
  assert (Hrun : stepping_run sample_sim (worker_finish sample_launched)).
  { eapply run_cons; [apply move_launch; reflexivity|].
    eapply run_cons; [apply move_worker|]. apply run_nil. }
  split; [exact Hc|]. split; [exact Hrun|].
  destruct (test_for_new_results (worker_finish sample_launched)) as [c s'] eqn:Ht.
  assert (Hcn : c = Normal true) by (vm_compute in Ht; inversion Ht; reflexivity).
  subst c.
  destruct (poll_true_allows_launch sample_sim _ s' Hc Hrun Ht)
    as (_ & s'' & Ha & _ & Hl).
  exists s', s''. split; [reflexivity|]. split; [exact Ha|].
  rewrite Hl. vm_compute in Ht. inversion Ht. reflexivity.
Defined.

Lemma failed_step_blocks_polling_witness :
  test_for_new_results sample_failed
  = (Raised (Exn "step failed"), with_stepfuture FInvalid sample_failed)
  /\ poll_times 3 (with_stepfuture FInvalid sample_failed)
     = (Normal false, with_stepfuture FInvalid sample_failed)
  /\ fst (reset (with_stepfuture FInvalid sample_failed)) = Normal tt.
Proof.
  assert (Ht : test_for_new_results sample_failed
               = (Raised (Exn "step failed"), with_stepfuture FInvalid sample_failed))
    by reflexivity.
  split; [exact Ht|].
  destruct (failed_step_blocks_polling sample_failed _ _ 3 Ht) as (Hp & Hr & _).
  split; [exact Hp|exact Hr].
Defined.

Lemma add_boundaries_at_most_one_match_witness :
  bdry sample_sim = []
  /\ length (bdry (add_boundaries sample_insertions sample_sim)) = 2
  /\ boundaries_distinct (bdry (add_boundaries sample_insertions sample_sim)).
Proof.
  split; [reflexivity|]. split; [reflexivity|].
  exact (proj1 (add_boundaries_at_most_one_match sample_insertions sample_sim eq_refl)).
Defined.

Lemma get_npanels_add_boundaries_witness :
  bdry sample_sim = []
  /\ get_npanels (add_boundaries sample_insertions sample_sim) = 3 + (3 + (3 + 0)).
Proof.
  split; [reflexivity|].
  exact (get_npanels_add_boundaries sample_insertions sample_sim eq_refl).
Defined.

Lemma add_particles_first_batch_outcome_witness :
  vort sample_sim = []
  /\ length (replicate 28 F32.zero) <> 0
  /\ add_particles (replicate 28 F32.zero) sample_sim
     = Undefined "vector read out of range"
  /\ add_particles sample_batch sample_sim = Aborts "_in.size() % 7 == 0".
Proof.
  assert (Hne : length (replicate 28 F32.zero) <> 0) by (cbn; lia).
  assert (Hne' : length sample_batch <> 0) by (cbn; lia).
  split; [reflexivity|]. split; [exact Hne|]. split.
  - destruct (add_particles_first_batch_outcome (replicate 28 F32.zero)
                sample_sim eq_refl Hne) as (_ & _ & Hu & _).
    exact (proj1 (Hu eq_refl eq_refl)).
  - destruct (add_particles_first_batch_outcome sample_batch sample_sim
                eq_refl Hne') as (_ & Ha & _).
    apply Ha; [reflexivity|cbn; lia].
Defined.

Lemma add_fldpts_first_batch_witness :
  fldpt sample_sim = []
  /\ length (replicate 14 F32.zero) <> 0
  /\ length (replicate 14 F32.zero) mod 14 = 0
  /\ exists (s' : Simulation) (p : Points),
       add_fldpts (replicate 14 F32.zero) true sample_sim = Returns s'
       /\ fldpt s' = [CPoints p] /\ pn p = 3.
Proof.
  assert (Hne : length (replicate 14 F32.zero) <> 0) by (cbn; lia).
  split; [reflexivity|]. split; [exact Hne|]. split; [reflexivity|].
  destruct (add_fldpts_first_batch (replicate 14 F32.zero) true sample_sim
              eq_refl Hne) as [Hiff Hshape].
  destruct (proj2 Hiff eq_refl) as [s' Hs'].
  destruct (Hshape s' Hs') as (p & Hf & Hn & _).
  exists s', p. split; [exact Hs'|]. split; [exact Hf|exact Hn].
Defined.

Lemma add_particles_into_last_collection_witness :
  vort sample_with_particles <> []
  /\ length sample_batch <> 0
  /\ length sample_batch mod 4 = 0
  /\ exists s' : Simulation,
       add_particles sample_batch sample_with_particles = Returns s'
       /\ length (vort s') = 1 /\ bdry s' = [] /\ fldpt s' = [].
Proof.
  assert (Hv : vort sample_with_particles <> []) by (intros Hx; discriminate Hx).
  assert (Hne : length sample_batch <> 0) by (cbn; lia).
  split; [exact Hv|]. split; [exact Hne|]. split; [reflexivity|].
  destruct (add_particles_into_last_collection sample_batch sample_with_particles
              Hv Hne eq_refl)
    as (s' & Ha & Hlen & _ & _ & _ & Hb & Hf & _).
  exists s'. split; [exact Ha|]. split; [exact Hlen|]. split; assumption.
Defined.

Lemma SolidCircle_init_elements_contour_witness :
  ring_num_panels (circle_diam sample_circle) sample_spacing = Returns 31
  /\ SolidCircle_init_elements sample_circle sample_spacing
     = Returns (sample_circle_flat,
                [OStr "Creating circle with "; OSize 31; OStr " panels"; OEndl])
  /\ closed_contour 31 sample_circle_flat.
Proof.
  assert (Hn : ring_num_panels (circle_diam sample_circle) sample_spacing
               = Returns 31) by (vm_compute; reflexivity).
  split; [exact Hn|].
  pose proof (SolidCircle_init_elements_contour sample_circle sample_spacing) as Hc.
  rewrite Hn in Hc. destruct Hc as (_ & st & Hs & Hcont & _).
  assert (Hst : sample_circle_flat = st).
  { unfold sample_circle_flat. rewrite Hs. reflexivity. }
  rewrite Hst. split; [exact Hs|exact Hcont].
Defined.

Lemma circle_into_empty_simulation_witness :
  SolidCircle_init_elements sample_circle sample_spacing
  = Returns (sample_circle_flat,
             [OStr "Creating circle with "; OSize 31; OStr " panels"; OEndl])
  /\ bdry sample_sim = []
  /\ get_npanels (add_boundary None (packet_of_flat sample_circle_flat) sample_sim)
     = 31.
Proof.
  assert (Hs : SolidCircle_init_elements sample_circle sample_spacing
               = Returns (sample_circle_flat,
                          [OStr "Creating circle with "; OSize 31;
                           OStr " panels"; OEndl]))
    by (vm_compute; reflexivity).
  split; [exact Hs|]. split; [reflexivity|].
  destruct (circle_into_empty_simulation sample_circle sample_spacing _ _ None
              sample_sim Hs eq_refl) as (n & Hn & _ & _ & Hp).
  assert (H31 : n = 31) by (vm_compute in Hn; inversion Hn; reflexivity).
  rewrite Hp. exact H31.
Defined.
